(** * Job-Agents: ingestion, idempotent storage and search

  A shallow embedding of the Python sources

    - job_agent/job_agent/core.py        (schema, request_with_backoff)
    - job_agent/job_agent/greenhouse.py  (BoardAPI adapter)
    - job_agent/job_agent/lever.py       (PostingsAPI adapter)
    - job_agent/job_agent/workday.py     (PaginatedSearchAPI adapter)
    - job_agent/job_agent/normalizer.py  (keyword classification)
    - job_agent/job_agent/search.py      (FTS / LIKE search)
    - Greenhouse/greenhouse_fetch_and_query.py (single-file variant)

  Raw records are JSON documents, so they are modelled as dynamically
  typed Python values; a method applied to a value of the wrong type
  raises, exactly as in the interpreter.  The [jobs] table is the list of
  its rows in rowid order; the database is that table together with the
  full-text index [job_fts] that the triggers of FTS_DDL maintain. *)

From Stdlib Require Import ZArith QArith List String Ascii Bool Lia.
From Stdlib Require Import DecimalString Sorted OrderedTypeEx.
Import ListNotations.
Open Scope string_scope.
Open Scope list_scope.
Open Scope Z_scope.
Set Warnings "-register-all".

(* ================================================================== *)
(** * Python values, exceptions and the builtins the adapters call     *)
(* ================================================================== *)

Module Py.

Inductive exn : Type :=
| AttributeError
| TypeError
| ValueError
| OverflowError
| HTTPStatusError
| JSONDecodeError
| InterfaceError.

Inductive result (A : Type) : Type :=
| Ok (a : A)
| Raise (e : exn).
Arguments Ok {A} a.
Arguments Raise {A} e.

Definition bind {A B} (m : result A) (k : A -> result B) : result B :=
  match m with
  | Ok a => k a
  | Raise e => Raise e
  end.

(** JSON numbers decode to [int] or [float]. *)
Inductive number : Type :=
| Int (z : Z)
| Float (q : Q).

(** What [json.loads] can produce.  A [PDict] lists its items in
    insertion order, keys pairwise distinct. *)
Inductive value : Type :=
| PNone
| PBool (b : bool)
| PNum (n : number)
| PStr (s : string)
| PList (l : list value)
| PDict (kv : list (string * value)).

(** [bool(v)] *)
Definition truthy (v : value) : bool :=
  match v with
  | PNone => false
  | PBool b => b
  | PNum (Int z) => negb (z =? 0)
  | PNum (Float q) => negb (Qnum q =? 0)
  | PStr s => negb (s =? "")%string
  | PList l => match l with [] => false | _ => true end
  | PDict kv => match kv with [] => false | _ => true end
  end.

(** [a or b] (both operands are side-effect free in this code base) *)
Definition or_ (a b : value) : value := if truthy a then a else b.

Fixpoint lookup (kv : list (string * value)) (k : string) : option value :=
  match kv with
  | [] => None
  | (k', v) :: rest => if (k' =? k)%string then Some v else lookup rest k
  end.

(** [d.get(k)] on a dictionary's items: [None] for a missing key. *)
Definition lookup_value (kv : list (string * value)) (k : string) : value :=
  match lookup kv k with Some x => x | None => PNone end.

(** [v.get(k)]: only dictionaries have the method. *)
Definition get (v : value) (k : string) : result value :=
  match v with
  | PDict kv => Ok (lookup_value kv k)
  | _ => Raise AttributeError
  end.

(** ** [str] methods (ASCII text) *)

(** [str.isspace] on one ASCII character: TAB..CR, FS..US and SPACE. *)
Definition is_space (c : ascii) : bool :=
  let n := nat_of_ascii c in
  ((9 <=? n)%nat && (n <=? 13)%nat) || ((28 <=? n)%nat && (n <=? 32)%nat).

Fixpoint lstrip (s : string) : string :=
  match s with
  | EmptyString => EmptyString
  | String c s' => if is_space c then lstrip s' else s
  end.

Fixpoint rstrip (s : string) : string :=
  match s with
  | EmptyString => EmptyString
  | String c s' =>
      let r := rstrip s' in
      if is_space c && (r =? "")%string then EmptyString else String c r
  end.

Definition strip (s : string) : string := rstrip (lstrip s).

(** [s.split()] with no separator: maximal runs of non-blank characters. *)
Fixpoint split_ws_from (cur : string) (s : string) : list string :=
  match s with
  | EmptyString => if (cur =? "")%string then [] else [cur]
  | String c s' =>
      if is_space c
      then (if (cur =? "")%string then split_ws_from "" s'
            else cur :: split_ws_from "" s')
      else split_ws_from (cur ++ String c "")%string s'
  end.

Definition split_ws (s : string) : list string := split_ws_from "" s.

(** [sep.join(parts)] *)
Definition join (sep : string) (parts : list string) : string :=
  String.concat sep parts.

Definition lower_ascii (c : ascii) : ascii :=
  let n := nat_of_ascii c in
  if ((65 <=? n)%nat && (n <=? 90)%nat) then ascii_of_nat (n + 32) else c.

Fixpoint lower (s : string) : string :=
  match s with
  | EmptyString => EmptyString
  | String c s' => String (lower_ascii c) (lower s')
  end.

(** [s.replace(old, new)] for a one-character [old]. *)
Fixpoint replace_char (old : ascii) (new : string) (s : string) : string :=
  match s with
  | EmptyString => EmptyString
  | String c s' =>
      if Ascii.eqb c old then (new ++ replace_char old new s')%string
      else String c (replace_char old new s')
  end.

(** Method calls on a dynamically typed receiver. *)
Definition m_strip (v : value) : result string :=
  match v with
  | PStr s => Ok (strip s)
  | _ => Raise AttributeError
  end.

Definition m_split (v : value) : result (list string) :=
  match v with
  | PStr s => Ok (split_ws s)
  | _ => Raise AttributeError
  end.

Definition is_dict (v : value) : bool :=
  match v with PDict _ => true | _ => false end.


End Py.

Import Py.

Notation "x <- m ;; k" := (Py.bind m (fun x => k))
(at level 61, m at next level, right associativity).

(* ================================================================== *)
(** * core.py: the [jobs] table and the shared upsert statement        *)
(* ================================================================== *)

(** Library calls whose results the adapters only pass along: the MD5
    digest, [datetime] parsing and printing, and SQLite's rendering of a
    number stored in a TEXT column. *)
Class Runtime : Type := {
  (** [hashlib.md5(url.encode("utf-8")).hexdigest()] *)
  md5_hexdigest : string -> string;
  datetime : Type;
  (** [datetime.fromisoformat(s)], [None] standing for [ValueError] *)
  fromisoformat : string -> option datetime;
  (** [dt.isoformat()] *)
  isoformat : datetime -> string;
  (** [datetime.fromtimestamp(ts/1000.0, tz=timezone.utc).isoformat()] *)
  utc_isoformat_of_millis : number -> result string;
  (** text stored when a number is bound to a TEXT-affinity column *)
  number_text : number -> string;
  (** [str(v)] on a value that is not already a string *)
  repr_text : value -> string;
  (** [urlsplit(u)]: scheme, netloc and path (query and fragment are
      dropped by every caller) *)
  urlsplit : string -> string * string * string;
  (** [urlunsplit((scheme, netloc, path, "", ""))] *)
  urlunsplit : string -> string -> string -> string;
  (** the status codes on which httpx's [raise_for_status()] raises *)
  status_raises : Z -> bool;
  (** whether the sqlite3 module reports an unsupported parameter type as a
      [DatabaseError] subclass ([ProgrammingError]) or as [InterfaceError] *)
  bind_failure_is_database_error : bool;
  (** the tokens that the default tokenizer of FTS5 ([unicode61]) finds in
      a text, in order *)
  fts5_tokens : string -> list string
}.

Module Core.

(** One row of
    [CREATE TABLE jobs (id INTEGER PRIMARY KEY, board_token TEXT NOT NULL,
     org_name TEXT NOT NULL, title TEXT NOT NULL, description TEXT NOT NULL,
     location TEXT, post_url TEXT NOT NULL, posted_at TEXT,
     first_seen_at TEXT NOT NULL, last_seen_at TEXT NOT NULL,
     canonical_key TEXT NOT NULL UNIQUE)]. *)
Record job : Type := mkJob {
  id : Z;
  board_token : string;
  org_name : string;
  title : string;
  description : string;
  location : option string;
  post_url : string;
  posted_at : option string;
  first_seen_at : string;
  last_seen_at : string;
  canonical_key : string
}.

Definition table : Type := list job.

(** The virtual table of FTS_DDL,
    [job_fts USING fts5(title, description, org_name, location,
     content='jobs', content_rowid='id')]: an index that keeps no copy of
    the text.  What it stores is the number of rows it has indexed, the
    number of tokens it has indexed in each column, and for each write the
    rowid and the tokens written for it. *)
Record fts_index : Type := mkIndex {
  total_rows : nat;
  total_title : nat;
  total_description : nat;
  total_org_name : nat;
  total_location : nat;
  postings : list (Z * list string)
}.

(** The database [open_db] returns: the [jobs] table and, unless the
    [OperationalError] of an SQLite without FTS5 was swallowed, the index
    with its triggers. *)
Record database : Type := mkDatabase {
  jobs : table;
  job_fts : option fts_index
}.

(** The ten [?] parameters, in the order of the VALUES list. *)
Record params : Type := mkParams {
  p_board_token : value;
  p_org_name : value;
  p_title : value;
  p_description : value;
  p_location : value;
  p_post_url : value;
  p_posted_at : value;
  p_first_seen_at : value;
  p_last_seen_at : value;
  p_canonical_key : value
}.

Inductive sql_outcome : Type :=
| Done (db : database)
| IntegrityError              (* NOT NULL constraint failed *)
| CorruptError                (* "database disk image is malformed" *)
| BindFailure.

(** What [upsert_job] did. *)
Inductive outcome : Type :=
| Skipped                     (* early [return], nothing executed *)
| Wrote (db : database)       (* the statement ran *)
| Warned                      (* [sqlite3.DatabaseError] caught and printed *)
| Raised (e : exn).           (* an exception left the function *)

Section Statement.
Context {R : Runtime}.

(** Conversion of a Python parameter for a TEXT column: [None] is NULL,
    other scalars are stored as text (integers are taken to fit SQLite's
    64 bits), containers cannot be bound. *)
Definition bind_text (v : value) : option (option string) :=
  match v with
  | PNone => Some None
  | PStr s => Some (Some s)
  | PNum n => Some (Some (number_text n))
  | PBool b => Some (Some (number_text (Int (if b then 1 else 0))))
  | PList _ => None
  | PDict _ => None
  end.

(** [COALESCE(a, b)] *)
Definition coalesce {A : Type} (a b : option A) : option A :=
  match a with
  | Some _ => a
  | None => b
  end.

(** A new rowid is one more than the largest in use. *)
Definition next_id (rows : table) : Z :=
  1 + fold_right (fun r m => Z.max (id r) m) 0 rows.

(** The bound row, once every NOT NULL column is known to be non-NULL. *)
Record excluded : Type := mkExcluded {
  e_board_token : string;
  e_org_name : string;
  e_title : string;
  e_description : string;
  e_location : option string;
  e_post_url : string;
  e_posted_at : option string;
  e_first_seen_at : string;
  e_last_seen_at : string;
  e_canonical_key : string
}.

(** [ON CONFLICT(canonical_key) DO UPDATE SET
      last_seen_at=excluded.last_seen_at, title=excluded.title,
      description=excluded.description, location=excluded.location,
      posted_at=COALESCE(excluded.posted_at, jobs.posted_at)] *)
Definition do_update (old : job) (ex : excluded) : job :=
  {| id := id old;
     board_token := board_token old;
     org_name := org_name old;
     title := e_title ex;
     description := e_description ex;
     location := e_location ex;
     post_url := post_url old;
     posted_at := coalesce (e_posted_at ex) (posted_at old);
     first_seen_at := first_seen_at old;
     last_seen_at := e_last_seen_at ex;
     canonical_key := canonical_key old |}.

Definition new_row (i : Z) (ex : excluded) : job :=
  {| id := i;
     board_token := e_board_token ex;
     org_name := e_org_name ex;
     title := e_title ex;
     description := e_description ex;
     location := e_location ex;
     post_url := e_post_url ex;
     posted_at := e_posted_at ex;
     first_seen_at := e_first_seen_at ex;
     last_seen_at := e_last_seen_at ex;
     canonical_key := e_canonical_key ex |}.

Definition has_key (k : string) (r : job) : bool :=
  (canonical_key r =? k)%string.

(** Update the conflicting row if there is one. *)
Fixpoint update_conflict (ex : excluded) (rows : table) : option table :=
  match rows with
  | [] => None
  | r :: rest =>
      if has_key (e_canonical_key ex) r then Some (do_update r ex :: rest)
      else match update_conflict ex rest with
           | Some rest' => Some (r :: rest')
           | None => None
           end
  end.

Definition insert_or_update (ex : excluded) (rows : table) : table :=
  match update_conflict ex rows with
  | Some rows' => rows'
  | None => rows ++ [new_row (next_id rows) ex]
  end.

(** Bind the ten parameters; a NULL in a NOT NULL column is an
    [IntegrityError]. *)
Definition bind_params (p : params) : option (option excluded) :=
  match bind_text (p_board_token p), bind_text (p_org_name p),
        bind_text (p_title p), bind_text (p_description p),
        bind_text (p_location p), bind_text (p_post_url p),
        bind_text (p_posted_at p), bind_text (p_first_seen_at p),
        bind_text (p_last_seen_at p), bind_text (p_canonical_key p) with
  | Some bt, Some org, Some ti, Some de, Some lo, Some url,
    Some po, Some fs, Some ls, Some ck =>
      Some
        match bt, org, ti, de, url, fs, ls, ck with
        | Some bt, Some org, Some ti, Some de, Some url,
          Some fs, Some ls, Some ck =>
            Some (mkExcluded bt org ti de lo url po fs ls ck)
        | _, _, _, _, _, _, _, _ => None
        end
  | _, _, _, _, _, _, _, _, _, _ => None
  end.

(** [COALESCE(new.location,'')] *)
Definition location_text (r : job) : string :=
  match location r with
  | Some l => l
  | None => ""
  end.

(** The tokens of the four indexed columns of a row. *)
Definition row_tokens (r : job) : list string :=
  fts5_tokens (title r) ++ fts5_tokens (description r) ++
  fts5_tokens (org_name r) ++ fts5_tokens (location_text r).

(** Trigger [jobs_ai]:
    [INSERT INTO job_fts(rowid, title, description, org_name, location)
     VALUES (new.id, new.title, new.description, new.org_name,
             COALESCE(new.location,''))]. *)
Definition jobs_ai (r : job) (ix : fts_index) : fts_index :=
  {| total_rows := S (total_rows ix);
     total_title :=
       (total_title ix + List.length (fts5_tokens (title r)))%nat;
     total_description :=
       (total_description ix + List.length (fts5_tokens (description r)))%nat;
     total_org_name :=
       (total_org_name ix + List.length (fts5_tokens (org_name r)))%nat;
     total_location :=
       (total_location ix + List.length (fts5_tokens (location_text r)))%nat;
     postings := postings ix ++ [(id r, row_tokens r)] |}.

(** Whether FTS5 can take the row [r] out of the index: it subtracts the
    token counts of [r] from the totals and reports SQLITE_CORRUPT when one
    of them would fall below zero, or when no row is counted. *)
Definition removable (r : job) (ix : fts_index) : bool :=
  (List.length (fts5_tokens (title r)) <=? total_title ix)%nat &&
  (List.length (fts5_tokens (description r)) <=? total_description ix)%nat &&
  (List.length (fts5_tokens (org_name r)) <=? total_org_name ix)%nat &&
  (List.length (fts5_tokens (location_text r)) <=? total_location ix)%nat &&
  (1 <=? total_rows ix)%nat.

(** Trigger [jobs_au], run with [r] the row as updated:
    [UPDATE job_fts SET title=new.title, description=new.description,
     org_name=new.org_name, location=COALESCE(new.location,'')
     WHERE rowid=new.id].
    FTS5 carries out an UPDATE as the removal of the old entry followed by
    an insertion.  The index has no copy of the old text: it reads the row
    to remove from the content table [jobs], which after the update holds
    the new values.  So it is the new text that is taken out and put back:
    the totals end as they were, the new tokens are indexed, the tokens of
    the overwritten text stay, and the statement fails where the new text
    cannot be taken out ([None]). *)
Definition jobs_au (r : job) (ix : fts_index) : option fts_index :=
  if removable r ix
  then Some {| total_rows := total_rows ix;
               total_title := total_title ix;
               total_description := total_description ix;
               total_org_name := total_org_name ix;
               total_location := total_location ix;
               postings := postings ix ++ [(id r, row_tokens r)] |}
  else None.

(** The statement run on the bound row, with the trigger that fires
    after it: [jobs_ai] after the INSERT, [jobs_au] after the DO UPDATE.
    A trigger that fails undoes the statement. *)
Definition statement (ex : excluded) (db : database) : sql_outcome :=
  let rows' := insert_or_update ex (jobs db) in
  match job_fts db with
  | None => Done (mkDatabase rows' None)
  | Some ix =>
      match find (has_key (e_canonical_key ex)) (jobs db) with
      | None =>
          Done (mkDatabase rows'
                  (Some (jobs_ai (new_row (next_id (jobs db)) ex) ix)))
      | Some old =>
          match jobs_au (do_update old ex) ix with
          | Some ix' => Done (mkDatabase rows' (Some ix'))
          | None => CorruptError
          end
      end
  end.

(** [conn.execute("INSERT INTO jobs (...) VALUES (?, ...)
     ON CONFLICT(canonical_key) DO UPDATE SET ...", p)] *)
Definition execute_upsert (p : params) (db : database) : sql_outcome :=
  match bind_params p with
  | None => BindFailure
  | Some None => IntegrityError
  | Some (Some ex) => statement ex db
  end.

(** The [try: conn.execute(...) except sqlite3.DatabaseError: print(...)]
    block that ends every [upsert_job]. *)
Definition try_upsert (p : params) (db : database) : outcome :=
  match execute_upsert p db with
  | Done db' => Wrote db'
  | IntegrityError => Warned
  | CorruptError => Warned
  | BindFailure =>
      if bind_failure_is_database_error then Warned else Raised InterfaceError
  end.

(** [_parse_iso]: the bare [except] also swallows the [AttributeError] of
    [s.replace] on a non-string. *)
Definition _parse_iso (s : value) : option datetime :=
  if negb (truthy s) then None
  else match s with
       | PStr t => fromisoformat (replace_char "Z"%char "+00:00" t)
       | _ => None
       end.

(** The UNIQUE constraint on [canonical_key]. *)
Definition unique_keys (rows : table) : Prop :=
  NoDup (map canonical_key rows).

Definition rows_with_key (k : string) (rows : table) : table :=
  filter (has_key k) rows.

End Statement.
End Core.

Import Core.

(** An exception that leaves the body of [upsert_job] leaves the call. *)
Definition run (m : result outcome) : outcome :=
  match m with
  | Ok o => o
  | Raise e => Raised e
  end.

(** Return early without a tuple, or run the statement on it. *)
Definition execute {R : Runtime} (p : option params) (db : database)
  : outcome :=
  match p with
  | None => Skipped
  | Some p => try_upsert p db
  end.

(** [s or None] for a string [s] *)
Definition str_or_none (s : string) : value :=
  if (s =? "")%string then PNone else PStr s.

(** [v or None] *)
Definition or_none (v : value) : value := or_ v PNone.

(* ================================================================== *)
(** * greenhouse.py                                                     *)
(* ================================================================== *)

Module Greenhouse.
Section Adapter.
Context {R : Runtime}.

(** [(j.get("absolute_url") or "").strip()] *)
Definition job_url (j : value) : result string :=
  a <- get j "absolute_url" ;;
  m_strip (or_ a (PStr "")).

(** [j.get("updated_at") or j.get("created_at")] *)
Definition source_timestamp (j : value) : result value :=
  u <- get j "updated_at" ;;
  c <- get j "created_at" ;;
  Ok (or_ u c).

(** The [posted_at] parameter:
    [_parse_iso(...).isoformat() if posted else None]; a [datetime] is
    always truthy. *)
Definition posted_param (ts : value) : value :=
  match _parse_iso ts with
  | Some dt => PStr (isoformat dt)
  | None => PNone
  end.

(** [" ".join((j.get("title") or "").split())] *)
Definition job_title (j : value) : result string :=
  t <- get j "title" ;;
  words <- m_split (or_ t (PStr "")) ;;
  Ok (join " " words).

(** [((j.get("location") or {}).get("name") or "").strip()] *)
Definition job_location (j : value) : result string :=
  l <- get j "location" ;;
  n <- get (or_ l (PDict [])) "name" ;;
  m_strip (or_ n (PStr "")).

(** [(j.get("content") or "").strip()] *)
Definition job_description (j : value) : result string :=
  c <- get j "content" ;;
  m_strip (or_ c (PStr "")).

(** The parameter tuple [upsert_job] hands to [conn.execute], [None] when
    it returns early; [now] is [datetime.now(timezone.utc).isoformat()]. *)
Definition row_params (board_token org_name : string) (j : value)
    (now : string) : result (option params) :=
  url <- job_url j ;;
  if (url =? "")%string then Ok None else
  title <- job_title j ;;
  loc <- job_location j ;;
  desc <- job_description j ;;
  ts <- source_timestamp j ;;
  let canonical_key := md5_hexdigest url in
  Ok (Some {| p_board_token := PStr board_token;
              p_org_name := PStr org_name;
              p_title := PStr title;
              p_description := PStr desc;
              p_location := str_or_none loc;
              p_post_url := PStr url;
              p_posted_at := posted_param ts;
              p_first_seen_at := PStr now;
              p_last_seen_at := PStr now;
              p_canonical_key := PStr canonical_key |}).

(** [upsert_job(conn, board_token, org_name, j)] *)
Definition upsert_job (db : database) (board_token org_name : string)
    (j : value) (now : string) : outcome :=
  run (p <- row_params board_token org_name j now ;; Ok (execute p db)).

End Adapter.
End Greenhouse.

(* ================================================================== *)
(** * lever.py                                                          *)
(* ================================================================== *)

Module Lever.
Section Adapter.
Context {R : Runtime}.

(** [d.get("name") or d.get("location")] on a dictionary's items *)
Definition name_or_location (kv : list (string * value)) : value :=
  or_ (lookup_value kv "name") (lookup_value kv "location").

(** The [for item in candidate] loop of [_first_location]. *)
Fixpoint first_location_item (items : list value) : value :=
  match items with
  | [] => PNone
  | item :: rest =>
      match item with
      | PDict kv =>
          if truthy (name_or_location kv) then name_or_location kv
          else first_location_item rest
      | PStr _ => item
      | _ => first_location_item rest
      end
  end.

Definition _first_location (candidate : value) : value :=
  if negb (truthy candidate) then PNone
  else match candidate with
       | PStr _ => candidate
       | PDict kv => or_ (name_or_location kv) PNone
       | PList items => first_location_item items
       | _ => PNone
       end.

(** [(j.get("hostedUrl") or j.get("applyUrl") or "").strip()] *)
Definition job_url (j : value) : result string :=
  h <- get j "hostedUrl" ;;
  a <- get j "applyUrl" ;;
  m_strip (or_ (or_ h a) (PStr "")).

(** [ts = j.get("createdAt") or j.get("updatedAt")] *)
Definition source_timestamp (j : value) : result value :=
  c <- get j "createdAt" ;;
  u <- get j "updatedAt" ;;
  Ok (or_ c u).

(** [isinstance(ts, (int, float))]; [bool] is a subclass of [int]. *)
Definition as_number (ts : value) : option number :=
  match ts with
  | PNum n => Some n
  | PBool b => Some (Int (if b then 1 else 0))
  | _ => None
  end.

(** [posted_at]: [None] unless [ts] is a number. *)
Definition posted_param (ts : value) : result value :=
  match as_number ts with
  | Some n => s <- utc_isoformat_of_millis n ;; Ok (PStr s)
  | None => Ok PNone
  end.

(** [str(x)] *)
Definition py_str (v : value) : string :=
  match v with
  | PStr s => s
  | _ => repr_text v
  end.

(** [[str(x.get("text", "")).strip() for x in j["lists"]
      if isinstance(x, dict)]] *)
Fixpoint list_texts (xs : list value) : list string :=
  match xs with
  | [] => []
  | PDict kv :: rest =>
      strip (py_str (match lookup kv "text" with
                     | Some x => x
                     | None => PStr ""
                     end)) :: list_texts rest
  | _ :: rest => list_texts rest
  end.

(** [org_name]: the team or department when [categories] is a
    dictionary, the company slug otherwise. *)
Definition org_of (company : string) (cats : value) : value :=
  match cats with
  | PDict kv =>
      or_ (or_ (or_ (lookup_value kv "team") (lookup_value kv "department"))
               (PStr company))
          (PStr company)
  | _ => PStr company
  end.

(** [_first_location(...) or cats.get("location") or j.get("country")
     or j.get("location")], the operands evaluated left to right and only
    as far as needed. *)
Definition location_of (j cats : value) : result value :=
  w <- get j "workplaceLocations" ;;
  let a := _first_location w in
  if truthy a then Ok a else
  b <- get cats "location" ;;
  if truthy b then Ok b else
  c <- get j "country" ;;
  if truthy c then Ok c else
  get j "location".

(** [(j.get("text") or j.get("title") or "").strip()] *)
Definition job_title (j : value) : result string :=
  tx <- get j "text" ;;
  ti <- get j "title" ;;
  m_strip (or_ (or_ tx ti) (PStr "")).

(** [cats = j.get("categories") or {}] *)
Definition job_categories (j : value) : result value :=
  cs <- get j "categories" ;;
  Ok (or_ cs (PDict [])).

(** [desc] as it stands before the tuple is built: the joined [lists]
    texts, else [descriptionPlain], else [description], else [""]. *)
Definition job_description (j : value) : result value :=
  ls <- get j "lists" ;;
  let desc0 :=
    match ls with
    | PList xs => PStr (join (String "010"%char "") (list_texts xs))
    | _ => PStr ""
    end in
  dp <- get j "descriptionPlain" ;;
  dd <- get j "description" ;;
  Ok (or_ desc0 (or_ (or_ dp dd) (PStr ""))).

(** The parameter tuple of [upsert_job], [None] when it returns early. *)
Definition row_params (company : string) (j : value) (now : string)
  : result (option params) :=
  url <- job_url j ;;
  if (url =? "")%string then Ok None else
  title <- job_title j ;;
  cats <- job_categories j ;;
  let org_name := org_of company cats in
  loc <- location_of j cats ;;
  desc <- job_description j ;;
  ts <- source_timestamp j ;;
  posted_at <- posted_param ts ;;
  let canonical_key := md5_hexdigest url in
  desc' <- m_strip (or_ desc (PStr "")) ;;
  Ok (Some {| p_board_token := PStr ("lever:" ++ company)%string;
              p_org_name := org_name;
              p_title := PStr title;
              p_description := PStr desc';
              p_location := or_none loc;
              p_post_url := PStr url;
              p_posted_at := posted_at;
              p_first_seen_at := PStr now;
              p_last_seen_at := PStr now;
              p_canonical_key := PStr canonical_key |}).

(** [upsert_job(conn, company, j)] *)
Definition upsert_job (db : database) (company : string) (j : value)
    (now : string) : outcome :=
  run (p <- row_params company j now ;; Ok (execute p db)).

End Adapter.
End Lever.

(* ================================================================== *)
(** * workday.py                                                        *)
(* ================================================================== *)

Module Workday.

Inductive http_method : Type := POST | GET.

(** A page request: the JSON body of the POST, or the same three fields
    as query parameters of the GET. *)
Record request : Type := mkRequest {
  rq_method : http_method;
  rq_limit : Z;
  rq_offset : Z;
  rq_search_text : string
}.

Record response : Type := mkResponse {
  status_code : Z;
  json : result value          (* [r.json()] *)
}.

Definition is_post (rq : request) : bool :=
  match rq_method rq with POST => true | GET => false end.

(** Number of loop iterations that reached the network: each one starts
    with exactly one POST. *)
Definition pages_requested (trace : list request) : nat :=
  List.length (filter is_post trace).

Section Adapter.
Context {R : Runtime}.

(** The remote endpoint: a state and the reply to one request (a transport
    failure is the raised exception). *)
Variable server : Type.
Variable send : server -> request -> result response * server.

(** [_extract_posts(payload)] *)
Definition _extract_posts (payload : value) : result value :=
  posts <- get payload "jobPostings" ;;
  d <- get payload "data" ;;
  let posts' :=
    match posts, d with
    | PNone, PDict kv => lookup_value kv "jobPostings"
    | _, _ => posts
    end in
  Ok (or_ posts' (PList [])).

Fixpoint chars (s : string) : list value :=
  match s with
  | EmptyString => []
  | String c s' => PStr (String c "") :: chars s'
  end.

(** The items [all_posts.extend(posts)] appends; numbers and booleans are
    not iterable. *)
Definition iterate (posts : value) : result (list value) :=
  match posts with
  | PList l => Ok l
  | PStr s => Ok (chars s)
  | PDict kv => Ok (map (fun p => PStr (fst p)) kv)
  | _ => Raise TypeError
  end.

(** One iteration up to [posts = _extract_posts(data)]: the POST, the GET
    fallback on 400/405, [raise_for_status()] and [r.json()].  Returns the
    requests issued and the server state reached. *)
Definition fetch_page (st : server) (search_text : string)
    (page_limit offset : Z) : list request * server * result value :=
  let post := mkRequest POST page_limit offset search_text in
  match send st post with
  | (Raise e, st1) => ([post], st1, Raise e)
  | (Ok r, st1) =>
      let '(trace, st2, r2) :=
        if (status_code r =? 400) || (status_code r =? 405) then
          let get_ := mkRequest GET page_limit offset search_text in
          let '(x, st') := send st1 get_ in
          ([post; get_], st', x)
        else ([post], st1, Ok r) in
      (trace, st2,
       r' <- r2 ;;
       if status_raises (status_code r') then Raise HTTPStatusError else
       data <- json r' ;;
       _extract_posts data)
  end.

(** The body of [for _ in range(max_pages)], with the loop state
    [offset], [all_posts] made explicit and the requests recorded. *)
Fixpoint fetch_loop (n : nat) (st : server) (search_text : string)
    (page_limit offset : Z) (all_posts : list value) (trace : list request)
  : list request * result (list value) :=
  match n with
  | O => (trace, Ok all_posts)
  | S n' =>
      let '(reqs, st', page) := fetch_page st search_text page_limit offset in
      let trace' := trace ++ reqs in
      match page with
      | Raise e => (trace', Raise e)
      | Ok posts =>
          if negb (truthy posts) then (trace', Ok all_posts) else
          match iterate posts with
          | Raise e => (trace', Raise e)
          | Ok items =>
              let all_posts' := all_posts ++ items in
              if Z.of_nat (List.length items) <? page_limit
              then (trace', Ok all_posts')
              else fetch_loop n' st' search_text page_limit
                     (offset + page_limit) all_posts' trace'
          end
      end
  end.

(** [fetch_jobs(client, cxs_jobs_url, search_text, page_limit, max_pages)]:
    the requests it issued and what it returned or raised. *)
Definition fetch_jobs (st : server) (search_text : string)
    (page_limit max_pages : Z) : list request * result (list value) :=
  fetch_loop (Z.to_nat max_pages) st search_text page_limit 0 [] [].

(** [path.rstrip("/")] *)
Fixpoint rstrip_slash (s : string) : string :=
  match s with
  | EmptyString => EmptyString
  | String c s' =>
      let r := rstrip_slash s' in
      if Ascii.eqb c "/"%char && (r =? "")%string then EmptyString
      else String c r
  end.

Definition _base_root (cxs_url : string) : string :=
  let '(scheme, netloc, _) := urlsplit cxs_url in
  urlunsplit scheme netloc "".

Definition _normalize_url (u : string) : string :=
  let '(scheme, netloc, path) := urlsplit u in
  urlunsplit scheme (lower netloc) (rstrip_slash path).

(** [str + v] *)
Definition str_add (s : string) (v : value) : result string :=
  match v with
  | PStr t => Ok (s ++ t)%string
  | _ => Raise TypeError
  end.

(** [subtitles[0].get("title").strip() if subtitles and
     isinstance(subtitles[0], dict) else ""] *)
Definition subtitle_org (subtitles : list value) : result string :=
  match subtitles with
  | PDict kv :: _ => m_strip (lookup_value kv "title")
  | _ => Ok ""
  end.

(** [(rec.get("title") or "").strip()] *)
Definition job_title (rec : value) : result string :=
  t <- get rec "title" ;;
  m_strip (or_ t (PStr "")).

(** [org_name]: the first subtitle's title, else the endpoint label. *)
Definition job_org (endpoint_label : string) (rec : value) : result string :=
  sb <- get rec "subtitles" ;;
  let subtitles := match sb with PList l => l | _ => [] end in
  org <- subtitle_org subtitles ;;
  Ok (if (org =? "")%string then endpoint_label else org).

(** [(rec.get("locationsText") or rec.get("location") or "").strip()] *)
Definition job_location (rec : value) : result string :=
  lt <- get rec "locationsText" ;;
  lo <- get rec "location" ;;
  m_strip (or_ (or_ lt lo) (PStr "")).

(** [rec.get("postedOn") or rec.get("postedDate") or rec.get("createdOn")] *)
Definition job_posted (rec : value) : result value :=
  p1 <- get rec "postedOn" ;;
  p2 <- get rec "postedDate" ;;
  p3 <- get rec "createdOn" ;;
  Ok (or_ (or_ p1 p2) p3).

(** [rec.get("externalPath") or rec.get("externalUrlPath") or ""] *)
Definition job_external_path (rec : value) : result value :=
  e1 <- get rec "externalPath" ;;
  e2 <- get rec "externalUrlPath" ;;
  Ok (or_ (or_ e1 e2) (PStr "")).

(** The parameter tuple of [upsert_job], [None] when it returns early. *)
Definition row_params (endpoint_label : string) (rec : value) (now : string)
  : result (option params) :=
  title <- job_title rec ;;
  if (title =? "")%string then Ok None else
  org_name <- job_org endpoint_label rec ;;
  location <- job_location rec ;;
  posted_at <- job_posted rec ;;
  external_path <- job_external_path rec ;;
  if negb (truthy external_path) then Ok None else
  url0 <- str_add (_base_root endpoint_label) external_path ;;
  let url := _normalize_url url0 in
  let canonical_key := md5_hexdigest url in
  Ok (Some {| p_board_token := PStr ("workday:" ++ endpoint_label)%string;
              p_org_name := PStr org_name;
              p_title := PStr title;
              p_description := PStr "";
              p_location := str_or_none location;
              p_post_url := PStr url;
              p_posted_at := posted_at;
              p_first_seen_at := PStr now;
              p_last_seen_at := PStr now;
              p_canonical_key := PStr canonical_key |}).

(** [upsert_job(conn, endpoint_label, rec)].  The trailing "optional
    normalization" statement is not modelled: it writes only the columns
    role_level, work_type, employment_type, city, state, country and
    remote, which the [jobs] table of core.py does not have, and any
    failure of it is swallowed by [except Exception: pass]. *)
Definition upsert_job (db : database) (endpoint_label : string)
    (rec : value) (now : string) : outcome :=
  run (p <- row_params endpoint_label rec now ;; Ok (execute p db)).

End Adapter.
End Workday.

(* ================================================================== *)
(** * core.py: request_with_backoff                                     *)
(* ================================================================== *)

Module Backoff.

(** What the retry loop looks at in a response. *)
Record reply : Type := mkReply {
  status_code : Z;
  retry_after : option string      (* [r.headers.get("Retry-After")] *)
}.

(** One pass through [client.request]: [httpx.RequestError] or a reply. *)
Inductive attempt : Type :=
| RequestError
| Reply (r : reply).

(** [r.status_code in (429, 500, 502, 503, 504)] *)
Definition retryable (status : Z) : bool :=
  (status =? 429) || (status =? 500) || (status =? 502) ||
  (status =? 503) || (status =? 504).

Definition digit_value (c : ascii) : option Z :=
  let n := nat_of_ascii c in
  if ((48 <=? n)%nat && (n <=? 57)%nat) then Some (Z.of_nat n - 48) else None.

(** The number a string of the digits 0 to 9 writes. *)
Fixpoint digits_from (acc : Z) (s : string) : option Z :=
  match s with
  | EmptyString => Some acc
  | String c s' =>
      match digit_value c with
      | Some d => digits_from (10 * acc + d) s'
      | None => None
      end
  end.

(** [ra and ra.isdigit()], for text within ASCII. *)
Definition isdigit (s : string) : bool :=
  match s, digits_from 0 s with
  | String _ _, Some _ => true
  | _, _ => false
  end.

Fixpoint is_ascii_text (s : string) : bool :=
  match s with
  | EmptyString => true
  | String c s' => (nat_of_ascii c <? 128)%nat && is_ascii_text s'
  end.

(** [float('inf')], written as the first power of two no double reaches. *)
Definition infinity : Z := 2 ^ 1024.

(** [float(n)] for a whole number [n >= 0]: [n] itself up to 53 bits,
    beyond that the nearest number with a 53-bit significand (a tie goes
    to the even significand), and [inf] past the largest double.  Such a
    float always holds a whole number. *)
Definition to_float (n : Z) : Z :=
  let k := Z.log2 n + 1 - 53 in
  if k <=? 0 then n else
  let q := Z.shiftr n k in
  let rem := n - Z.shiftl q k in
  let half := 2 ^ (k - 1) in
  let q' := if (half <? rem) || ((rem =? half) && Z.odd q) then q + 1 else q in
  Z.min infinity (Z.shiftl q' k).

(** What [if ra and ra.isdigit(): ... float(ra)] makes of the header.
    Which characters beyond ASCII [isdigit()] takes for digits, and which
    of those [float()] reads, is laid down in Unicode tables that are not
    part of this development: a header with such characters is not
    read. *)
Inductive header_reading : Type :=
| NotNumeric                  (* the [else] branch *)
| Seconds (z : Z)             (* [float(ra)] *)
| Unread.                     (* text beyond ASCII *)

Definition read_retry_after (h : option string) : header_reading :=
  match h with
  | None => NotNumeric
  | Some s =>
      if is_ascii_text s
      then if isdigit s
           then match digits_from 0 s with
                | Some n => Seconds (to_float n)
                | None => NotNumeric
                end
           else NotNumeric
      else Unread
  end.

(** The seconds the header asks for, when it gives a number. *)
Definition numeric_header (h : option string) : option Z :=
  match read_retry_after h with
  | Seconds z => Some z
  | _ => None
  end.

Definition max_backoff : Z := 16.

(** [backoff = min(max_backoff, backoff*2)] *)
Definition next_backoff (backoff : Z) : Z := Z.min max_backoff (backoff * 2).

(** The argument of [time.sleep] after a retryable reply. *)
Definition retry_delay (backoff : Z) (r : reply) : Z :=
  match numeric_header (retry_after r) with
  | Some ra => Z.max ra backoff
  | None => backoff
  end.

(** How far the loop got. *)
Inductive ending : Type :=
| Returned (r : reply)        (* [return r] *)
| Retrying                    (* still in the loop *)
| Unfollowed.                 (* stopped at a header that is not read *)

(** The [while True] loop run against the successive outcomes of
    [client.request]; durations are in seconds (every value the loop
    handles is a whole number, or [infinity]).  Returns the arguments
    handed to [time.sleep] in order, each call taken to return, and how
    the loop ended once the script is used up. *)
Fixpoint retry_loop (script : list attempt) (backoff : Z) (slept : list Z)
  : list Z * ending :=
  match script with
  | [] => (slept, Retrying)
  | RequestError :: rest =>
      retry_loop rest (next_backoff backoff) (slept ++ [backoff])
  | Reply r :: rest =>
      if retryable (status_code r)
      then match read_retry_after (retry_after r) with
           | Unread => (slept, Unfollowed)
           | _ => retry_loop rest (next_backoff backoff)
                    (slept ++ [retry_delay backoff r])
           end
      else (slept, Returned r)
  end.

(** [request_with_backoff]: [backoff = 1.0] on entry. *)
Definition request_with_backoff (script : list attempt)
  : list Z * ending :=
  retry_loop script 1 [].




End Backoff.

(* ================================================================== *)
(** * normalizer.py                                                     *)
(* ================================================================== *)

Module Normalizer.

(** The fragment of [re] syntax the pattern tables use. *)
Inductive regex : Type :=
| Lit (s : string)            (* literal text *)
| Class (cs : string)         (* [[...]] one character out of a set *)
| Cat (a b : regex)           (* concatenation *)
| Alt (a b : regex)           (* [a|b] *)
| Opt (a : regex)             (* [a?] *)
| WordBoundary.               (* [\b] *)

(** [\w] on ASCII *)
Definition is_word (c : ascii) : bool :=
  let n := nat_of_ascii c in
  ((48 <=? n)%nat && (n <=? 57)%nat) || ((65 <=? n)%nat && (n <=? 90)%nat) ||
  ((97 <=? n)%nat && (n <=? 122)%nat) || (n =? 95)%nat.

Definition opt_word (c : option ascii) : bool :=
  match c with Some x => is_word x | None => false end.

Definition head (s : string) : option ascii :=
  match s with EmptyString => None | String c _ => Some c end.

Definition at_boundary (prev : option ascii) (s : string) : bool :=
  xorb (opt_word prev) (opt_word (head s)).

Fixpoint mem_char (c : ascii) (cs : string) : bool :=
  match cs with
  | EmptyString => false
  | String d cs' => Ascii.eqb c d || mem_char c cs'
  end.

(** Consume the literal [l] at the front of [s]. *)
Fixpoint eat (l : string) (prev : option ascii) (s : string)
  : option (option ascii * string) :=
  match l with
  | EmptyString => Some (prev, s)
  | String c l' =>
      match s with
      | String d s' => if Ascii.eqb c d then eat l' (Some d) s' else None
      | EmptyString => None
      end
  end.

(** Backtracking match of [r] at the current position ([prev] is the
    character just before it), continuing with [k] on what is left. *)
Fixpoint matches (r : regex) (prev : option ascii) (s : string)
    (k : option ascii -> string -> bool) : bool :=
  match r with
  | Lit l =>
      match eat l prev s with
      | Some (prev', s') => k prev' s'
      | None => false
      end
  | Class cs =>
      match s with
      | String c s' => if mem_char c cs then k (Some c) s' else false
      | EmptyString => false
      end
  | Cat a b => matches a prev s (fun prev' s' => matches b prev' s' k)
  | Alt a b => matches a prev s k || matches b prev s k
  | Opt a => matches a prev s k || k prev s
  | WordBoundary => if at_boundary prev s then k prev s else false
  end.

Fixpoint search_from (r : regex) (prev : option ascii) (s : string) : bool :=
  matches r prev s (fun _ _ => true) ||
  match s with
  | EmptyString => false
  | String c s' => search_from r (Some c) s'
  end.

(** [re.search(pat, s)] as a truth value *)
Definition re_search (r : regex) (s : string) : bool := search_from r None s.

(** [\b(a|b|...)\b] *)
Definition word_of (alts : list regex) : regex :=
  Cat WordBoundary
      (Cat (fold_right Alt (Class "") alts) WordBoundary).

(** [x[- ]?y] *)
Definition hyphenated (x y : string) : regex :=
  Cat (Lit x) (Cat (Opt (Class "- ")) (Lit y)).

(** [x\.?] *)
Definition dotted (x : string) : regex := Cat (Lit x) (Opt (Lit ".")).

Definition LEVEL_PATTERNS : list (regex * string) :=
  [ (word_of [Lit "intern"; Lit "internship"; hyphenated "co" "op"], "intern");
    (word_of [hyphenated "entry" "level"; Lit "junior"; dotted "jr"], "junior");
    (word_of [Lit "senior"; dotted "sr"], "senior");
    (word_of [Lit "principal"; Lit "staff"; Lit "lead"], "principal");
    (word_of [Lit "manager"; Lit "managing"], "manager");
    (word_of [Lit "director"; Lit "head of"], "director") ].

Definition WORK_TYPE_PATTERNS : list (regex * string) :=
  [ (Cat WordBoundary (Cat (hyphenated "on" "site") WordBoundary), "onsite");
    (Cat WordBoundary (Cat (Lit "hybrid") WordBoundary), "hybrid");
    (Cat WordBoundary (Cat (Lit "remote") WordBoundary), "remote") ].

Definition EMPLOYMENT_PATTERNS : list (regex * string) :=
  [ (Cat WordBoundary (Cat (hyphenated "full" "time") WordBoundary),
     "full-time");
    (Cat WordBoundary (Cat (hyphenated "part" "time") WordBoundary),
     "part-time");
    (word_of [Lit "contract"; Lit "contractor"; Lit "temporary"; Lit "temp";
              hyphenated "fixed" "term"], "contract") ].

(** [for pat, val in PATTERNS: if re.search(pat, t): return val] *)
Fixpoint first_match (pats : list (regex * string)) (t : string)
  : option string :=
  match pats with
  | [] => None
  | (pat, val) :: rest =>
      if re_search pat t then Some val else first_match rest t
  end.

Definition infer_level (text : string) : option string :=
  first_match LEVEL_PATTERNS (lower text).

Definition or_empty (s : option string) : string :=
  match s with Some x => x | None => "" end.

(** [needle in s] *)
Fixpoint contains (needle s : string) : bool :=
  String.prefix needle s ||
  match s with
  | EmptyString => false
  | String _ s' => contains needle s'
  end.

Definition infer_work_type (text : string) (location_text : option string)
  : option string :=
  let blob := lower (join " " [text; or_empty location_text]) in
  match first_match WORK_TYPE_PATTERNS blob with
  | Some val => Some val
  | None =>
      match location_text with
      | Some l =>
          if negb (l =? "")%string && contains "remote" (lower l)
          then Some "remote" else None
      | None => None
      end
  end.

Definition infer_employment (text : string) : option string :=
  first_match EMPLOYMENT_PATTERNS (lower text).

(** [s.split(sep)] for a separator drawn from the characters [seps]
    (also [re.split] on a character class): empty pieces are kept. *)
Fixpoint split_on (seps : string) (cur : string) (s : string) : list string :=
  match s with
  | EmptyString => [cur]
  | String c s' =>
      if mem_char c seps then cur :: split_on seps "" s'
      else split_on seps (cur ++ String c "")%string s'
  end.

Definition none_if_empty (s : string) : option string :=
  if (s =? "")%string then None else Some s.

(** [frags[i] if len(frags) > i else None], then [x or None] *)
Definition frag (frags : list string) (i : nat) : option string :=
  match nth_error frags i with
  | Some f => none_if_empty f
  | None => None
  end.

(** [split_location(loc)]: city, state, country, remote *)
Definition split_location (loc : option string)
  : option string * option string * option string * option Z :=
  match loc with
  | None => (None, None, None, None)
  | Some EmptyString => (None, None, None, None)
  | Some l =>
      let parts := map strip (split_on ";/|-" "" l) in
      let first := match parts with p :: _ => p | [] => "" end in
      let frags := map strip (split_on "," "" first) in
      let remote :=
        if re_search (Cat WordBoundary (Cat (Lit "remote") WordBoundary))
                     (lower l)
        then Some 1 else None in
      (frag frags 0, frag frags 1, frag frags 2, remote)
  end.

Record fields : Type := mkFields {
  role_level : option string;
  work_type : option string;
  employment_type : option string;
  city : option string;
  state : option string;
  country : option string;
  remote : option Z
}.

Definition normalize_fields (title desc : string) (location : option string)
  : fields :=
  let level := infer_level (title ++ " " ++ desc)%string in
  let work_type := infer_work_type desc location in
  let employment := infer_employment (title ++ " " ++ desc)%string in
  let '(city, state, country, remote_flag) := split_location location in
  mkFields level work_type employment city state country remote_flag.

End Normalizer.

(* ================================================================== *)
(** * search.py and the single-file [search]                            *)
(* ================================================================== *)

Module Search.

(** The dictionary appended to [out] for each row. *)
Record view : Type := mkView {
  v_title : string;
  v_org : string;
  v_location : option string;
  v_url : string;
  v_posted_at : option string
}.

Definition project (r : job) : view :=
  {| v_title := title r;
     v_org := org_name r;
     v_location := location r;
     v_url := post_url r;
     v_posted_at := posted_at r |}.

(** ** SQLite's LIKE: [%] is any run of characters, [_] any single one,
    letters compare without regard to ASCII case. *)
Fixpoint like (pat : string) (s : string) : bool :=
  match pat with
  | EmptyString => (s =? "")%string
  | String p pat' =>
      if Ascii.eqb p "%"%char then
        (fix any (t : string) : bool :=
           like pat' t ||
           match t with
           | EmptyString => false
           | String _ t' => any t'
           end) s
      else
        match s with
        | EmptyString => false
        | String c s' =>
            (Ascii.eqb p "_"%char ||
             Ascii.eqb (lower_ascii p) (lower_ascii c)) && like pat' s'
        end
  end.

(** [col LIKE ?] on a nullable column: NULL is not a match. *)
Definition like_opt (pat : string) (s : option string) : bool :=
  match s with
  | Some x => like pat x
  | None => false
  end.

(** [f"%{q}%"] *)
Definition like_pattern (q : string) : string := ("%" ++ q ++ "%")%string.

(** ** MATCH on the index [job_fts] *)

(** The tokens [unicode61] finds in ASCII text: the maximal runs of
    letters and digits, case-folded. *)
Definition is_alnum (c : ascii) : bool :=
  let n := nat_of_ascii c in
  ((48 <=? n)%nat && (n <=? 57)%nat) || ((65 <=? n)%nat && (n <=? 90)%nat) ||
  ((97 <=? n)%nat && (n <=? 122)%nat).

Fixpoint tokens_from (cur : string) (s : string) : list string :=
  match s with
  | EmptyString => if (cur =? "")%string then [] else [cur]
  | String c s' =>
      if is_alnum c
      then tokens_from (cur ++ String (lower_ascii c) "")%string s'
      else if (cur =? "")%string then tokens_from "" s'
           else cur :: tokens_from "" s'
  end.

Definition tokens (s : string) : list string := tokens_from "" s.

Fixpoint all_chars (p : ascii -> bool) (s : string) : bool :=
  match s with
  | EmptyString => true
  | String c s' => p c && all_chars p s'
  end.

(** The white space of an FTS5 query: space, tab, line feed and carriage
    return. *)
Definition is_query_blank (c : ascii) : bool :=
  let n := nat_of_ascii c in
  (n =? 32)%nat || (n =? 9)%nat || (n =? 10)%nat || (n =? 13)%nat.

Definition is_keyword (w : string) : bool :=
  (w =? "AND")%string || (w =? "OR")%string || (w =? "NOT")%string ||
  (w =? "NEAR")%string.

(** The MATCH expressions this model interprets: words of ASCII letters
    and digits separated by query blanks, none of them an FTS5 operator.
    Such a query asks for the rows that the index holds every one of its
    words for.  Anything else ([None]) is outside the model: FTS5 reads
    it as an expression with operators, quotes or column filters, or
    rejects it with a syntax error. *)
Definition fts_query (q : string) : option (list string) :=
  if all_chars (fun c => is_alnum c || is_query_blank c) q &&
     negb (existsb is_keyword (split_ws q))
  then Some (tokens q) else None.

(** The index holds the token [w] for the rowid [i]. *)
Definition indexed (ix : fts_index) (i : Z) (w : string) : bool :=
  existsb (fun e => (fst e =? i) && existsb (String.eqb w) (snd e))
    (postings ix).

(** [job_fts MATCH :q] for the row that [JOIN jobs ON jobs.id=job_fts.rowid]
    pairs with the index entry. *)
Definition fts_match (ix : fts_index) (words : list string) (r : job) : bool :=
  forallb (indexed ix (id r)) words.

(** ** ORDER BY posted_at DESC NULLS LAST, first_seen_at DESC *)

Definition text_desc (a b : string) : comparison :=
  String.compare b a.

Definition posted_desc_nulls_last (a b : option string) : comparison :=
  match a, b with
  | Some x, Some y => text_desc x y
  | Some _, None => Lt
  | None, Some _ => Gt
  | None, None => Eq
  end.

(** [Lt]: [a] sorts before [b]. *)
Definition row_order (a b : job) : comparison :=
  match posted_desc_nulls_last (posted_at a) (posted_at b) with
  | Eq => text_desc (first_seen_at a) (first_seen_at b)
  | c => c
  end.

Definition not_after (a b : job) : bool :=
  match row_order a b with
  | Gt => false
  | _ => true
  end.

Fixpoint insert_row (x : job) (l : table) : table :=
  match l with
  | [] => [x]
  | y :: l' => if not_after x y then x :: l else y :: insert_row x l'
  end.

(** Rows that compare equal keep the order of the scan. *)
Definition order_rows (l : table) : table := fold_right insert_row [] l.

(** [LIMIT ?]: a negative limit means no limit. *)
Definition limit_rows (limit : Z) (l : table) : table :=
  if limit <? 0 then l else firstn (Z.to_nat limit) l.

(** [AND location = ?], added only [if loc:] *)
Definition location_filter (loc : option string) (r : job) : bool :=
  match loc with
  | None => true
  | Some EmptyString => true
  | Some l =>
      match location r with
      | Some x => (x =? l)%string
      | None => false
      end
  end.

(** [SELECT ... WHERE <where> [AND location = ?] ORDER BY ... LIMIT ?] *)
Definition select (where_ : job -> bool) (loc : option string) (limit : Z)
    (rows : table) : table :=
  limit_rows limit
    (order_rows (filter (fun r => where_ r && location_filter loc r) rows)).

(** [(title LIKE ? OR description LIKE ? OR org_name LIKE ?
      OR location LIKE ?)] of search.py *)
Definition like_where (q : string) (r : job) : bool :=
  let pat := like_pattern q in
  like pat (title r) || like pat (description r) || like pat (org_name r) ||
  like_opt pat (location r).

(** The LIKE branch of [search_jobs]. *)
Definition like_path (rows : table) (q : string) (loc : option string)
    (limit : Z) : list view :=
  map project (select (like_where q) loc limit rows).

(** The FTS branch of [search_jobs] and of [search]. *)
Definition fts_path (ix : fts_index) (rows : table) (q : string)
    (loc : option string) (limit : Z) : option (list view) :=
  match fts_query q with
  | Some words =>
      Some (map project (select (fts_match ix words) loc limit rows))
  | None => None
  end.

(** [search_jobs(conn, q, loc, limit)]; [fts_available(conn)] holds when
    the database has the table [job_fts]. *)
Definition search_jobs (db : database) (q : string) (loc : option string)
    (limit : Z) : option (list view) :=
  match job_fts db with
  | Some ix =>
      if negb (strip q =? "")%string
      then fts_path ix (jobs db) q loc limit
      else Some (like_path (jobs db) q loc limit)
  | None => Some (like_path (jobs db) q loc limit)
  end.

End Search.

Module Monolith.
Import Search.

(** [(title LIKE ? OR description LIKE ?)] of greenhouse_fetch_and_query.py *)
Definition like_where (q : string) (r : job) : bool :=
  let pat := like_pattern q in
  like pat (title r) || like pat (description r).

Definition like_path (rows : table) (q : string) (loc : option string)
    (limit : Z) : list view :=
  map project (select (like_where q) loc limit rows).

(** [search(conn, q, loc, limit)] *)
Definition search (db : database) (q : string) (loc : option string)
    (limit : Z) : option (list view) :=
  match job_fts db with
  | Some ix =>
      if negb (strip q =? "")%string
      then fts_path ix (jobs db) q loc limit
      else Some (like_path (jobs db) q loc limit)
  | None => Some (like_path (jobs db) q loc limit)
  end.

End Monolith.

(* ================================================================== *)
(** * fetch.py, with fetch_board_name and fetch_jobs of the adapters    *)
(* ================================================================== *)

Module Fetch.

(** [state.json] as [load_state] types it: source label to
    ["last_fetch"]-style entries. *)
Definition checkpoint : Type := list (string * string).
Definition state : Type := list (string * checkpoint).

Fixpoint assoc {A : Type} (l : list (string * A)) (k : string) : option A :=
  match l with
  | [] => None
  | (k', v) :: rest => if (k' =? k)%string then Some v else assoc rest k
  end.

(** [d[k] = v]: replace the entry in place, or add it at the end. *)
Fixpoint assoc_set {A : Type} (l : list (string * A)) (k : string) (v : A)
  : list (string * A) :=
  match l with
  | [] => [(k, v)]
  | (k', v') :: rest =>
      if (k' =? k)%string then (k, v) :: rest
      else (k', v') :: assoc_set rest k v
  end.

(** [state.setdefault(token, {})["last_fetch"] = now] *)
Definition set_last_fetch (st : state) (token now : string) : state :=
  let entry := match assoc st token with Some d => d | None => [] end in
  assoc_set st token (assoc_set entry "last_fetch" now).

(** The two calls of the Greenhouse adapter. *)
Inductive request : Type :=
| BoardName (token : string)
| JobList (token : string) (if_modified_since : option string).

(** How one source's batch ended. *)
Inductive batch_end : Type :=
| Committed (db : database)
| RolledBack (e : exn).

(** How the loop body left things for one source. *)
Inductive step_end (session : Type) : Type :=
| Continue (s : session)
| Crash (e : exn).
Arguments Continue {session} s.
Arguments Crash {session} e.

Section Session.
Context {R : Runtime}.

(** [greenhouse.fetch_board_name], given the response
    [request_with_backoff] came back with. *)
Definition fetch_board_name (r : Workday.response) (token : string)
  : result value :=
  if Workday.status_code r =? 404 then Raise ValueError else
  if status_raises (Workday.status_code r) then Raise HTTPStatusError else
  match (data <- Workday.json r ;; get data "name") with
  | Ok name => Ok (or_ name (PStr token))
  | Raise _ => Ok (PStr token)
  end.

(** [greenhouse.fetch_jobs], likewise: [data.get("jobs", [])]. *)
Definition fetch_jobs (r : Workday.response) : result value :=
  if Workday.status_code r =? 304 then Ok (PList []) else
  if status_raises (Workday.status_code r) then Raise HTTPStatusError else
  data <- Workday.json r ;;
  match data with
  | PDict kv =>
      Ok (match lookup kv "jobs" with Some v => v | None => PList [] end)
  | _ => Raise AttributeError
  end.

(** [lever.fetch_jobs]: [data if isinstance(data, list) else []]. *)
Definition lever_fetch_jobs (r : Workday.response) : result value :=
  if Workday.status_code r =? 404 then Raise ValueError else
  if status_raises (Workday.status_code r) then Raise HTTPStatusError else
  data <- Workday.json r ;;
  Ok (match data with PList _ => data | _ => PList [] end).

(** The tuple of [greenhouse.upsert_job] when [org_name] is whatever
    [fetch_board_name] returned: the name goes into the tuple as it is. *)
Definition with_org (org : value) (p : params) : params :=
  {| p_board_token := p_board_token p;
     p_org_name := org;
     p_title := p_title p;
     p_description := p_description p;
     p_location := p_location p;
     p_post_url := p_post_url p;
     p_posted_at := p_posted_at p;
     p_first_seen_at := p_first_seen_at p;
     p_last_seen_at := p_last_seen_at p;
     p_canonical_key := p_canonical_key p |}.

Definition gh_upsert_job (db : database) (token : string) (org : value)
    (j : value) (now : string) : outcome :=
  run (p <- Greenhouse.row_params token "" j now ;;
       Ok (execute (option_map (with_org org) p) db)).

(** The wall clock, read once for each record handled and once for each
    checkpoint written; [tick] counts the readings so far. *)
Variable clock : nat -> string.

(** [for j in jobs: upsert_job(conn, ..., j)]: the database after the
    records handled so far, or the exception that ended the loop. *)
Fixpoint upsert_each (upsert : database -> value -> string -> outcome)
    (db : database) (js : list value) (tick : nat) : result database * nat :=
  match js with
  | [] => (Ok db, tick)
  | j :: rest =>
      match upsert db j (clock tick) with
      | Skipped => upsert_each upsert db rest (S tick)
      | Warned => upsert_each upsert db rest (S tick)
      | Wrote db' => upsert_each upsert db' rest (S tick)
      | Raised e => (Raise e, S tick)
      end
  end.

(** [with conn: for j in jobs: ...]: commit at the end, or roll back and
    let the exception through. *)
Definition with_conn (upsert : database -> value -> string -> outcome)
    (db : database) (js : list value) (tick : nat) : batch_end * nat :=
  match upsert_each upsert db js tick with
  | (Ok db', tick') => (Committed db', tick')
  | (Raise e, tick') => (RolledBack e, tick')
  end.

(** The loop of the single-file [do_fetch], whose [upsert_job] commits
    each record by itself: the database as committed when the loop ended,
    and the exception if one ended it. *)
Fixpoint upsert_each_committing
    (upsert : database -> value -> string -> outcome)
    (db : database) (js : list value) (tick : nat)
  : database * option exn :=
  match js with
  | [] => (db, None)
  | j :: rest =>
      match upsert db j (clock tick) with
      | Skipped => upsert_each_committing upsert db rest (S tick)
      | Warned => upsert_each_committing upsert db rest (S tick)
      | Wrote db' => upsert_each_committing upsert db' rest (S tick)
      | Raised e => (db, Some e)
      end
  end.

(** The endpoint: its state and the response [request_with_backoff]
    returns for a request (or the exception that left it). *)
Variable server : Type.
Variable send : server -> request -> result Workday.response * server.

(** [http_date(dt)] *)
Variable http_date : datetime -> result string.

Record session : Type := mkSession {
  s_state : state;
  s_db : database;
  s_server : server;
  s_tick : nat
}.

(** The [If-Modified-Since] value for a source; any failure to read the
    checkpoint leaves it out. *)
Definition since_header (st : state) (token : string) : option string :=
  match assoc st token with
  | Some d =>
      match assoc d "last_fetch" with
      | Some text =>
          match fromisoformat text with
          | Some dt =>
              match http_date dt with
              | Ok h => Some h
              | Raise _ => None
              end
          | None => None
          end
      | None => None
      end
  | None => None
  end.

(** The body of [for token in tokens] in [fetch_greenhouse]. *)
Definition fetch_token (s : session) (token_value : value)
  : step_end session :=
  match m_strip (or_ token_value (PStr "")) with
  | Raise e => Crash e
  | Ok token =>
      if (token =? "")%string then Continue s else
      let since_hdr := since_header (s_state s) token in
      let '(rb, sv1) := send (s_server s) (BoardName token) in
      match (r <- rb ;; fetch_board_name r token) with
      | Raise _ =>
          Continue (mkSession (s_state s) (s_db s) sv1 (s_tick s))
      | Ok org_name =>
          let '(rj, sv2) := send sv1 (JobList token since_hdr) in
          match (r <- rj ;; fetch_jobs r) with
          | Raise _ =>
              Continue (mkSession (s_state s) (s_db s) sv2 (s_tick s))
          | Ok jobs =>
              match Workday.iterate jobs with
              | Raise e => Crash e
              | Ok items =>
                  match with_conn
                          (fun db j now =>
                             gh_upsert_job db token org_name j now)
                          (s_db s) items (s_tick s) with
                  | (RolledBack e, _) => Crash e
                  | (Committed db', tick') =>
                      Continue
                        (mkSession
                           (set_last_fetch (s_state s) token (clock tick'))
                           db' sv2 (S tick'))
                  end
              end
          end
      end
  end.

(** What [fetch_greenhouse] leaves behind: the committed database, the
    state file if [save_state] was reached, and the exception if one ended
    the run. *)
Record session_end : Type := mkEnd {
  end_db : database;
  saved_state : option state;
  raised : option exn
}.

Fixpoint fetch_tokens (s : session) (tokens : list value) : session_end :=
  match tokens with
  | [] => mkEnd (s_db s) (Some (s_state s)) None
  | t :: rest =>
      match fetch_token s t with
      | Continue s' => fetch_tokens s' rest
      | Crash e => mkEnd (s_db s) None (Some e)
      end
  end.

(** [fetch_greenhouse(tokens, rate)], started on the loaded state and the
    opened database; [tokens] is a list. *)
Definition fetch_greenhouse (loaded : state) (db : database) (sv : server)
    (tokens : list value) : session_end :=
  fetch_tokens (mkSession loaded db sv 0) tokens.

End Session.

Arguments mkSession {server} _ _ _ _.
Arguments s_state {server} _.
Arguments s_db {server} _.
Arguments s_server {server} _.
Arguments s_tick {server} _.

End Fetch.

(* ================================================================== *)
(** * Vocabulary of the properties                                      *)
(* ================================================================== *)



(** The row of [rows] stored under the fingerprint [k]. *)
Definition stored (rows : table) (k : string) (r : job) : Prop :=
  rows_with_key k rows = [r].

(** The database once a call of [upsert_job] is over. *)
Definition after (o : outcome) (db : database) : database :=
  match o with
  | Wrote db' => db'
  | _ => db
  end.

(** The database [open_db] creates where there was none. *)
Definition new_database : database :=
  mkDatabase [] (Some (mkIndex 0 0 0 0 0 [])).

(** The database in which the rows [rows] were inserted one after the
    other and never updated. *)
Definition inserted {R : Runtime} (rows : table) : database :=
  mkDatabase rows
    (Some (fold_left (fun ix r => jobs_ai r ix) rows (mkIndex 0 0 0 0 0 []))).

(** The same table in a database without the index. *)
Definition unindexed (rows : table) : database := mkDatabase rows None.

(* ------------------------------------------------------------------ *)
(** ** A concrete runtime for the worked examples                       *)
(* ------------------------------------------------------------------ *)

Definition decimal (z : Z) : string :=
  NilEmpty.string_of_int (Z.to_int z).

Definition demo_number_text (n : number) : string :=
  match n with
  | Int z => decimal z
  | Float q => (decimal (Qnum q) ++ "/" ++ decimal (Zpos (Qden q)))%string
  end.

(** Splits [scheme://netloc/path] at the first [:] and at the first [/]
    after the authority marker. *)
Fixpoint until_char (stop : ascii) (acc : string) (s : string)
  : string * string :=
  match s with
  | EmptyString => (acc, EmptyString)
  | String c s' =>
      if Ascii.eqb c stop then (acc, s)
      else until_char stop (acc ++ String c "")%string s'
  end.

Definition demo_urlsplit (u : string) : string * string * string :=
  let '(scheme, rest) := until_char ":"%char "" u in
  match rest with
  | String _ (String _ (String _ after)) =>
      let '(netloc, path) := until_char "/"%char "" after in
      (scheme, netloc, path)
  | _ => (scheme, "", "")
  end.

(** Stand-ins with the shape of the library functions: an injective
    fingerprint, timestamps kept as text, and the tokenizer as it works on
    ASCII text. *)
Definition demo_runtime : Runtime :=
  {| md5_hexdigest := fun s => ("md5:" ++ s)%string;
     datetime := string;
     fromisoformat := fun s => Some s;
     isoformat := fun d => d;
     utc_isoformat_of_millis :=
       fun n => Ok ("ms:" ++ demo_number_text n)%string;
     number_text := demo_number_text;
     repr_text := fun _ => "<repr>";
     urlsplit := demo_urlsplit;
     urlunsplit := fun scheme netloc path =>
       (scheme ++ "://" ++ netloc ++ path)%string;
     status_raises := fun s => 400 <=? s;
     bind_failure_is_database_error := true;
     fts5_tokens := Search.tokens |}.

(** A Greenhouse job object and the row a first fetch stored for it. *)
Definition sample_gh_job : value :=
  PDict [ ("absolute_url", PStr "https://x.co/a");
          ("title", PStr "Senior  Backend Engineer");
          ("location", PDict [("name", PStr "Remote - USA")]);
          ("content", PStr "Build things.");
          ("updated_at", PStr "2024-05-02T00:00:00Z");
          ("created_at", PStr "2024-05-01T00:00:00Z") ].

Definition sample_gh_row : job :=
  {| id := 1;
     board_token := "acme";
     org_name := "Acme";
     title := "Senior Backend Engineer";
     description := "Build things.";
     location := Some "Remote - USA";
     post_url := "https://x.co/a";
     posted_at := Some "2024-05-02T00:00:00+00:00";
     first_seen_at := "2024-06-01T10:00:00+00:00";
     last_seen_at := "2024-06-01T10:00:00+00:00";
     canonical_key := "md5:https://x.co/a" |}.

(** A URL value that [.strip()] turns into the empty string: absent,
    falsy, or blank text. *)
Definition blank (v : value) : bool :=
  negb (truthy v) ||
  match v with
  | PStr s => (strip s =? "")%string
  | _ => false
  end.

(** The row of an earlier fetch of that posting, whose text had slips of
    the pen. *)
Definition sample_gh_row_typo : job :=
  {| id := 1;
     board_token := "acme";
     org_name := "Acme";
     title := "Senior Backend Enginer";
     description := "Build thing.";
     location := Some "Remote - US";
     post_url := "https://x.co/a";
     posted_at := Some "2024-05-01T00:00:00+00:00";
     first_seen_at := "2024-06-01T10:00:00+00:00";
     last_seen_at := "2024-06-01T10:00:00+00:00";
     canonical_key := "md5:https://x.co/a" |}.

(** The row of an earlier fetch of that posting, which then had no
    location. *)
Definition sample_gh_row_unplaced : job :=
  {| id := 1;
     board_token := "acme";
     org_name := "Acme";
     title := "Senior Backend Enginer";
     description := "Build thing.";
     location := None;
     post_url := "https://x.co/a";
     posted_at := Some "2024-05-01T00:00:00+00:00";
     first_seen_at := "2024-06-01T10:00:00+00:00";
     last_seen_at := "2024-06-01T10:00:00+00:00";
     canonical_key := "md5:https://x.co/a" |}.

(** A Lever posting that carries both epoch-millisecond stamps. *)
Definition sample_lever_job : value :=
  PDict [ ("hostedUrl", PStr "https://jobs.lever.co/acme/1");
          ("text", PStr "Data Engineer");
          ("categories", PDict [("team", PStr "Platform");
                                ("location", PStr "Berlin")]);
          ("descriptionPlain", PStr "Pipelines.");
          ("createdAt", PNum (Int 1000));
          ("updatedAt", PNum (Int 2000)) ].

(** What the conflict branch leaves in the table [rows'] for the stored
    row [old] when the tuple [p] is executed: the one row under the old
    fingerprint has the incoming title, description and location, and the
    organisation name it had before. *)
Definition overwritten_from {R : Runtime} (p : params) (old : job)
    (rows' : table) : Prop :=
  exists r',
    rows_with_key (canonical_key old) rows' = [r'] /\
    bind_text (p_title p) = Some (Some (title r')) /\
    bind_text (p_description p) = Some (Some (description r')) /\
    bind_text (p_location p) = Some (location r') /\
    org_name r' = org_name old.

(** Three server errors in a row, the first one asking for a pause of
    thirty seconds, then a success. *)
Definition sample_script : list Backoff.attempt :=
  [ Backoff.Reply (Backoff.mkReply 503 (Some "30"));
    Backoff.Reply (Backoff.mkReply 503 None);
    Backoff.Reply (Backoff.mkReply 503 None);
    Backoff.Reply (Backoff.mkReply 200 None) ].

(** The records of one page: none when [posts] is falsy, else the items
    [extend] would append. *)
Definition page_items (posts : value) : result (list value) :=
  if negb (truthy posts) then Ok [] else Workday.iterate posts.

(** One page fetch, reduced to its records. *)
Definition read_page {R : Runtime} {server : Type}
    (send : server -> Workday.request -> result Workday.response * server)
    (st : server) (search_text : string) (page_limit offset : Z)
  : list Workday.request * server * result (list value) :=
  let '(reqs, st', page) :=
    Workday.fetch_page server send st search_text page_limit offset in
  (reqs, st', posts <- page ;; page_items posts).

(** An endpoint holding three postings, served two per page; its state
    counts the requests received. *)
Definition sample_postings : list value :=
  [ PDict [("title", PStr "Nurse"); ("externalPath", PStr "/job/1")];
    PDict [("title", PStr "Clerk"); ("externalPath", PStr "/job/2")];
    PDict [("title", PStr "Cook"); ("externalPath", PStr "/job/3")] ].

Definition sample_send (st : nat) (rq : Workday.request)
  : result Workday.response * nat :=
  (Ok (Workday.mkResponse 200
         (Ok (PDict [("jobPostings",
                      PList (firstn (Z.to_nat (Workday.rq_limit rq))
                               (skipn (Z.to_nat (Workday.rq_offset rq))
                                  sample_postings)))]))),
   S st).

(** Rows in the order of
    [ORDER BY posted_at DESC NULLS LAST, first_seen_at DESC]. *)
Definition sorted_rows (l : table) : Prop :=
  Sorted (fun a b => Search.not_after a b = true) l.


(** The same posting as an earlier fetch saw it: misspelt and without a
    location. *)
Definition sample_gh_job_unplaced : value :=
  PDict [ ("absolute_url", PStr "https://x.co/a");
          ("title", PStr "Senior Backend Enginer");
          ("content", PStr "Build thing.");
          ("updated_at", PStr "2024-05-01T00:00:00Z") ].

(** The same Greenhouse posting served without timestamps. *)
Definition sample_gh_job_undated : value :=
  PDict [ ("absolute_url", PStr "https://x.co/a");
          ("title", PStr "Senior Backend Engineer");
          ("location", PDict [("name", PStr "Remote - USA")]);
          ("content", PStr "Build things.") ].

Definition sample_lever_job_undated : value :=
  PDict [ ("hostedUrl", PStr "https://jobs.lever.co/acme/1");
          ("text", PStr "Data Engineer");
          ("categories", PDict [("team", PStr "Platform");
                                ("location", PStr "Berlin")]);
          ("descriptionPlain", PStr "Pipelines.") ].

Definition sample_lever_row : job :=
  {| id := 1;
     board_token := "lever:acme";
     org_name := "Data";
     title := "Data Enginer";
     description := "Pipeline.";
     location := Some "Munich";
     post_url := "https://jobs.lever.co/acme/1";
     posted_at := Some "ms:1000";
     first_seen_at := "2024-06-01T10:00:00+00:00";
     last_seen_at := "2024-06-01T10:00:00+00:00";
     canonical_key := "md5:https://jobs.lever.co/acme/1" |}.

Definition sample_endpoint : string :=
  "https://acme.wd1.myworkdayjobs.com/wday/cxs/acme/careers/jobs".

Definition sample_wd_posting : value :=
  PDict [ ("title", PStr "Nurse");
          ("subtitles", PList [PDict [("title", PStr "Acme Health")]]);
          ("locationsText", PStr "Boston, MA");
          ("postedOn", PStr "Posted Today");
          ("externalPath", PStr "/job/1") ].

Definition sample_wd_row : job :=
  {| id := 1;
     board_token := ("workday:" ++ sample_endpoint)%string;
     org_name := "Acme";
     title := "Nurse (night)";
     description := "";
     location := Some "Boston, Mass.";
     post_url := "https://acme.wd1.myworkdayjobs.com/job/1";
     posted_at := Some "Posted Yesterday";
     first_seen_at := "2024-06-01T10:00:00+00:00";
     last_seen_at := "2024-06-01T10:00:00+00:00";
     canonical_key := "md5:https://acme.wd1.myworkdayjobs.com/job/1" |}.

(** The table an upsert left behind, and the tuple a mapping produced. *)
Definition table_after (o : outcome) : table :=
  match o with
  | Wrote db => jobs db
  | _ => []
  end.

Definition tuple_of (m : result (option params)) : params :=
  match m with
  | Ok (Some p) => p
  | _ => mkParams PNone PNone PNone PNone PNone PNone PNone PNone PNone PNone
  end.

Definition sample_now : string := "2024-06-02T10:00:00+00:00".

(** Case analysis on the next reader of a mapping that is known to have
    produced a tuple. *)
Ltac step_reader H :=
  match type of H with
  | context [bind ?m _] =>
      let E := fresh "E" in
      destruct m eqn:E; cbn [bind] in H; try discriminate
  end.

(* ------------------------------------------------------------------ *)
(** ** Vocabulary of the store-wide properties                          *)
(* ------------------------------------------------------------------ *)

(** The rows that do not carry the fingerprint [k], in table order. *)
Definition others (k : string) (rows : table) : table :=
  filter (fun r => negb (has_key k r)) rows.

(** One of the three adapters, called at clock reading [now] on the
    database [db], built the tuple [p] and its statement left the database
    [db']. *)
Definition adapter_writes {R : Runtime} (db : database) (p : params)
    (now : string) (db' : database) : Prop :=
  (exists board_token org_name j,
     Greenhouse.row_params board_token org_name j now = Ok (Some p) /\
     Greenhouse.upsert_job db board_token org_name j now = Wrote db') \/
  (exists company j,
     Lever.row_params company j now = Ok (Some p) /\
     Lever.upsert_job db company j now = Wrote db') \/
  (exists endpoint_label rec,
     Workday.row_params endpoint_label rec now = Ok (Some p) /\
     Workday.upsert_job db endpoint_label rec now = Wrote db').

(* ------------------------------------------------------------------ *)
(** ** Vocabulary of the pagination properties                          *)
(* ------------------------------------------------------------------ *)

(** The requests of consecutive pages starting at [offset]: one POST per
    page, followed by a GET with the same fields where [fallbacks] says
    so. *)
Fixpoint pages_trace (page_limit : Z) (search_text : string) (offset : Z)
    (fallbacks : list bool) : list Workday.request :=
  match fallbacks with
  | [] => []
  | fb :: rest =>
      Workday.mkRequest Workday.POST page_limit offset search_text ::
      (if fb
       then [Workday.mkRequest Workday.GET page_limit offset search_text]
       else []) ++
      pages_trace page_limit search_text (offset + page_limit) rest
  end.

(** An endpoint that answers every request with a full page of two
    postings. *)
Definition endless_send (st : nat) (rq : Workday.request)
  : result Workday.response * nat :=
  (Ok (Workday.mkResponse 200
         (Ok (PDict [("jobPostings", PList (firstn 2 sample_postings))]))),
   S st).

(** An endpoint whose first page is served and whose later pages have a
    body that is not JSON. *)
Definition broken_second_page_send (st : nat) (rq : Workday.request)
  : result Workday.response * nat :=
  if Workday.rq_offset rq =? 0 then sample_send st rq
  else (Ok (Workday.mkResponse 200 (Raise JSONDecodeError)), S st).

(** [c] is none of the characters of [seps]. *)
Definition outside (seps : string) (c : ascii) : bool :=
  negb (Normalizer.mem_char c seps).

(* ------------------------------------------------------------------ *)
(** ** Vocabulary of the search properties                              *)
(* ------------------------------------------------------------------ *)



(** In a result list, an earlier view never has an older [posted_at]
    than a later one, and a view without [posted_at] is never ahead of one
    that has it. *)
Definition newest_first (views : list Search.view) : Prop :=
  forall i j vi vj,
    (i < j)%nat ->
    nth_error views i = Some vi -> nth_error views j = Some vj ->
    Search.posted_desc_nulls_last
      (Search.v_posted_at vi) (Search.v_posted_at vj) <> Gt.

(** Three stored postings: two dated, one not. *)
Definition sample_table : table :=
  [ {| id := 1; board_token := "acme"; org_name := "Acme";
       title := "Nurse"; description := "Night shifts 100% on site";
       location := Some "Boston"; post_url := "https://x.co/1";
       posted_at := None;
       first_seen_at := "2024-06-01T10:00:00+00:00";
       last_seen_at := "2024-06-01T10:00:00+00:00";
       canonical_key := "md5:https://x.co/1" |};
    {| id := 2; board_token := "acme"; org_name := "Acme";
       title := "Backend Engineer"; description := "APIs";
       location := Some "Remote"; post_url := "https://x.co/2";
       posted_at := Some "2024-05-01T00:00:00+00:00";
       first_seen_at := "2024-06-01T10:00:00+00:00";
       last_seen_at := "2024-06-01T10:00:00+00:00";
       canonical_key := "md5:https://x.co/2" |};
    {| id := 3; board_token := "lever:acme"; org_name := "Platform";
       title := "Data Engineer"; description := "Pipelines";
       location := None; post_url := "https://x.co/3";
       posted_at := Some "2024-05-20T00:00:00+00:00";
       first_seen_at := "2024-06-01T10:00:00+00:00";
       last_seen_at := "2024-06-01T10:00:00+00:00";
       canonical_key := "md5:https://x.co/3" |} ].

(* ------------------------------------------------------------------ *)
(** ** Sample runs                                                      *)
(* ------------------------------------------------------------------ *)

(** The databases in which the sample rows were inserted. *)
Definition sample_database : database :=
  inserted (R := demo_runtime) sample_table.

Definition sample_gh_database : database :=
  inserted (R := demo_runtime) [sample_gh_row].

Definition sample_gh_typo_database : database :=
  inserted (R := demo_runtime) [sample_gh_row_typo].

Definition sample_gh_unplaced_database : database :=
  inserted (R := demo_runtime) [sample_gh_row_unplaced].

Definition sample_lever_database : database :=
  inserted (R := demo_runtime) [sample_lever_row].

Definition sample_wd_database : database :=
  inserted (R := demo_runtime) [sample_wd_row].

(** The tuple of the sample Greenhouse posting, and the database after it
    was upserted where an earlier fetch had stored it, and where it was
    new. *)
Definition sample_gh_tuple : params :=
  tuple_of (Greenhouse.row_params (R := demo_runtime) "acme" "Acme"
              sample_gh_job sample_now).

Definition sample_gh_refreshed : database :=
  after (Greenhouse.upsert_job (R := demo_runtime) sample_gh_typo_database
           "acme" "Acme" sample_gh_job sample_now)
    sample_gh_typo_database.

Definition sample_gh_added : database :=
  after (Greenhouse.upsert_job (R := demo_runtime) sample_database
           "acme" "Acme" sample_gh_job sample_now)
    sample_database.

(** A Lever posting that points at the URL of the Greenhouse sample. *)
Definition sample_lever_same_url : value :=
  PDict [ ("hostedUrl", PStr " https://x.co/a ");
          ("text", PStr "Sr. Backend Engineer");
          ("createdAt", PNum (Int 3000)) ].

Definition sample_lever_same_url_tuple : params :=
  tuple_of (Lever.row_params (R := demo_runtime) "acme"
              sample_lever_same_url "t2").

Definition sample_two_sources : database :=
  after (Lever.upsert_job (R := demo_runtime) sample_gh_added
           "acme" sample_lever_same_url "t2")
    sample_gh_added.

Definition sample_wd_tuple : params :=
  tuple_of (Workday.row_params (R := demo_runtime) sample_endpoint
              sample_wd_posting sample_now).


(** A clock that reads its own tick. *)
Definition sample_clock (n : nat) : string :=
  ("t" ++ decimal (Z.of_nat n))%string.

(** A Greenhouse endpoint: the board "ghost" is unknown, any other board
    is called Acme and lists the sample posting, unless the request
    carries [If-Modified-Since]. *)
Definition sample_board_send (st : nat) (rq : Fetch.request)
  : result Workday.response * nat :=
  match rq with
  | Fetch.BoardName token =>
      if (token =? "ghost")%string
      then (Ok (Workday.mkResponse 404 (Raise JSONDecodeError)), S st)
      else (Ok (Workday.mkResponse 200 (Ok (PDict [("name", PStr "Acme")]))),
            S st)
  | Fetch.JobList token since =>
      match since with
      | Some _ => (Ok (Workday.mkResponse 304 (Raise JSONDecodeError)), S st)
      | None =>
          (Ok (Workday.mkResponse 200
                 (Ok (PDict [("jobs", PList [sample_gh_job])]))),
           S st)
      end
  end.

Definition sample_http_date (d : string) : result string := Ok d.

Definition sample_loaded : Fetch.state :=
  [ ("acme", [("last_fetch", "2024-06-01T10:00:00+00:00")]);
    ("other", [("last_fetch", "2024-05-01T10:00:00+00:00")]) ].

(* ================================================================== *)
(** * Properties                                                        *)
(* ================================================================== *)

Section StoreFacts.
Context {R : Runtime}.

Lemma has_key_true (k : string) (r : job) :
  has_key k r = true <-> canonical_key r = k.
Proof. unfold has_key. apply String.eqb_eq. Qed.

Lemma has_key_false (k : string) (r : job) :
  has_key k r = false <-> canonical_key r <> k.
Proof. unfold has_key. apply String.eqb_neq. Qed.

Lemma rows_with_key_absent (k : string) (rows : table) :
  (forall x, In x rows -> canonical_key x <> k) ->
  rows_with_key k rows = [].
Proof.
  unfold rows_with_key.
  induction rows as [|r rows IH]; intros Hno; simpl; [reflexivity|].
  assert (Hr : has_key k r = false)
    by (apply has_key_false, Hno; left; reflexivity).
  rewrite Hr. apply IH. intros x Hx. apply Hno. right; exact Hx.
Qed.

Lemma rows_with_key_nil_absent (k : string) (rows : table) :
  rows_with_key k rows = [] ->
  forall x, In x rows -> canonical_key x <> k.
Proof.
  unfold rows_with_key. intros Hnil x Hx Hk.
  assert (Hin : In x (filter (has_key k) rows))
    by (apply filter_In; split; [exact Hx | apply has_key_true, Hk]).
  rewrite Hnil in Hin. exact Hin.
Qed.

Lemma rows_with_key_app (k : string) (a b : table) :
  rows_with_key k (a ++ b) = rows_with_key k a ++ rows_with_key k b.
Proof. unfold rows_with_key. apply filter_app. Qed.

(** Under the UNIQUE constraint a row splits the table into two parts
    that do not carry its key. *)
Lemma unique_split (rows : table) (r : job) :
  unique_keys rows -> In r rows ->
  exists pre post,
    rows = pre ++ r :: post /\
    (forall x, In x pre -> canonical_key x <> canonical_key r) /\
    (forall x, In x post -> canonical_key x <> canonical_key r).
Proof.
  unfold unique_keys. intros Hu Hin.
  destruct (in_split _ _ Hin) as (pre & post & ->).
  exists pre, post. split; [reflexivity|].
  rewrite map_app in Hu. simpl in Hu.
  pose proof (NoDup_remove_2 _ _ _ Hu) as Hnot.
  split; intros x Hx Hk; apply Hnot, in_or_app;
    [left | right]; rewrite <- Hk; apply in_map; exact Hx.
Qed.

Lemma update_conflict_miss (ex : excluded) (rows : table) :
  (forall x, In x rows -> canonical_key x <> e_canonical_key ex) ->
  update_conflict ex rows = None.
Proof.
  induction rows as [|r rows IH]; intros Hno; simpl; [reflexivity|].
  assert (Hr : has_key (e_canonical_key ex) r = false)
    by (apply has_key_false, Hno; left; reflexivity).
  rewrite Hr, IH; [reflexivity|].
  intros x Hx. apply Hno. right; exact Hx.
Qed.

Lemma update_conflict_hit (ex : excluded) (pre post : table) (r : job) :
  (forall x, In x pre -> canonical_key x <> e_canonical_key ex) ->
  canonical_key r = e_canonical_key ex ->
  update_conflict ex (pre ++ r :: post) = Some (pre ++ do_update r ex :: post).
Proof.
  intros Hpre Hk.
  induction pre as [|p pre IH]; simpl.
  - assert (Hr : has_key (e_canonical_key ex) r = true)
      by (apply has_key_true; exact Hk).
    rewrite Hr. reflexivity.
  - assert (Hp : has_key (e_canonical_key ex) p = false)
      by (apply has_key_false, Hpre; left; reflexivity).
    rewrite Hp, IH; [reflexivity|].
    intros x Hx. apply Hpre. right; exact Hx.
Qed.

(** The statement on a fingerprint that is not stored yet appends one
    row. *)
Lemma insert_fresh (ex : excluded) (rows : table) :
  unique_keys rows ->
  rows_with_key (e_canonical_key ex) rows = [] ->
  let rows' := insert_or_update ex rows in
  rows' = rows ++ [new_row (next_id rows) ex] /\
  unique_keys rows' /\
  stored rows' (e_canonical_key ex) (new_row (next_id rows) ex).
Proof.
  intros Hu Hnil rows'.
  pose proof (rows_with_key_nil_absent _ _ Hnil) as Hno.
  assert (Heq : rows' = rows ++ [new_row (next_id rows) ex]).
  { unfold rows', insert_or_update.
    rewrite (update_conflict_miss ex rows Hno). reflexivity. }
  split; [exact Heq|]. rewrite Heq. split.
  - unfold unique_keys in *. rewrite map_app. simpl.
    apply NoDup_app; [exact Hu | repeat constructor; intros [] | ].
    intros k Hk [<- | []].
    apply in_map_iff in Hk. destruct Hk as (x & Hx & Hin).
    exact (Hno x Hin Hx).
  - unfold stored. rewrite rows_with_key_app, Hnil. simpl.
    unfold rows_with_key. simpl.
    assert (Hn : has_key (e_canonical_key ex)
                   (new_row (next_id rows) ex) = true)
      by (apply has_key_true; reflexivity).
    rewrite Hn. reflexivity.
Qed.

(** The statement on a stored fingerprint rewrites that row in place. *)
Lemma insert_conflict (ex : excluded) (rows : table) (r : job) :
  unique_keys rows -> In r rows ->
  canonical_key r = e_canonical_key ex ->
  let rows' := insert_or_update ex rows in
  List.length rows' = List.length rows /\
  unique_keys rows' /\
  stored rows' (e_canonical_key ex) (do_update r ex).
Proof.
  intros Hu Hin Hk rows'.
  destruct (unique_split rows r Hu Hin) as (pre & post & Hrows & Hpre & Hpost).
  rewrite Hk in Hpre, Hpost.
  assert (Heq : rows' = pre ++ do_update r ex :: post).
  { unfold rows', insert_or_update. rewrite Hrows.
    rewrite (update_conflict_hit ex pre post r Hpre Hk). reflexivity. }
  rewrite Heq. split; [|split].
  - rewrite Hrows, !length_app. reflexivity.
  - unfold unique_keys in *. rewrite Hrows in Hu.
    rewrite map_app in *. exact Hu.
  - unfold stored.
    rewrite rows_with_key_app, (rows_with_key_absent _ pre Hpre).
    unfold rows_with_key. simpl.
    assert (Hn : has_key (e_canonical_key ex) (do_update r ex) = true)
      by (apply has_key_true; exact Hk).
    rewrite Hn. fold (rows_with_key (e_canonical_key ex) post).
    rewrite (rows_with_key_absent _ post Hpost). reflexivity.
Qed.

Lemma stored_in (rows : table) (k : string) (r : job) :
  stored rows k r -> In r rows /\ canonical_key r = k.
Proof.
  unfold stored, rows_with_key. intros Hs.
  assert (Hin : In r (filter (has_key k) rows))
    by (rewrite Hs; left; reflexivity).
  apply filter_In in Hin. destruct Hin as [Hin Hk].
  split; [exact Hin | apply has_key_true, Hk].
Qed.

(** Under the UNIQUE constraint a row is the only one under its key. *)
Lemma unique_stored (rows : table) (r : job) :
  unique_keys rows -> In r rows -> stored rows (canonical_key r) r.
Proof.
  intros Hu Hin.
  destruct (unique_split rows r Hu Hin) as (pre & post & -> & Hpre & Hpost).
  unfold stored. rewrite rows_with_key_app, (rows_with_key_absent _ pre Hpre).
  unfold rows_with_key. simpl.
  assert (Hr : has_key (canonical_key r) r = true)
    by (apply has_key_true; reflexivity).
  rewrite Hr. fold (rows_with_key (canonical_key r) post).
  rewrite (rows_with_key_absent _ post Hpost). reflexivity.
Qed.


Lemma find_key_some (k : string) (rows : table) (r : job) :
  find (has_key k) rows = Some r -> In r rows /\ canonical_key r = k.
Proof.
  intros H. apply find_some in H. destruct H as [Hin Hk].
  split; [exact Hin | apply has_key_true, Hk].
Qed.

Lemma find_key_stored (k : string) (rows : table) (r : job) :
  stored rows k r -> find (has_key k) rows = Some r.
Proof.
  unfold stored, rows_with_key.
  induction rows as [|x rows IH]; simpl; [discriminate|].
  destruct (has_key k x).
  - intros H. injection H as -> _. reflexivity.
  - exact IH.
Qed.



(** What the statement does to the table, when it goes through. *)
Lemma statement_done (ex : excluded) (db db' : database) :
  statement ex db = Done db' ->
  jobs db' = insert_or_update ex (jobs db).
Proof.
  unfold statement.
  destruct (job_fts db) as [ix|].
  - destruct (find (has_key (e_canonical_key ex)) (jobs db)) as [old|].
    + destruct (jobs_au (do_update old ex) ix); [|discriminate].
      intros H. injection H as <-. reflexivity.
    + intros H. injection H as <-. reflexivity.
  - intros H. injection H as <-. reflexivity.
Qed.





End StoreFacts.

Section GreenhouseFacts.
Context {R : Runtime}.




Lemma bind_text_gh_posted (ts : value) :
  bind_text (Greenhouse.posted_param ts) =
  Some (option_map isoformat (_parse_iso ts)).
Proof.
  unfold Greenhouse.posted_param. destruct (_parse_iso ts); reflexivity.
Qed.



End GreenhouseFacts.

Section StatementFacts.
Context {R : Runtime}.

Lemma bind_params_fields (p : params) (ex : excluded) :
  bind_params p = Some (Some ex) ->
  bind_text (p_board_token p) = Some (Some (e_board_token ex)) /\
  bind_text (p_org_name p) = Some (Some (e_org_name ex)) /\
  bind_text (p_title p) = Some (Some (e_title ex)) /\
  bind_text (p_description p) = Some (Some (e_description ex)) /\
  bind_text (p_location p) = Some (e_location ex) /\
  bind_text (p_post_url p) = Some (Some (e_post_url ex)) /\
  bind_text (p_posted_at p) = Some (e_posted_at ex) /\
  bind_text (p_first_seen_at p) = Some (Some (e_first_seen_at ex)) /\
  bind_text (p_last_seen_at p) = Some (Some (e_last_seen_at ex)) /\
  bind_text (p_canonical_key p) = Some (Some (e_canonical_key ex)).
Proof.
  unfold bind_params.
  destruct (bind_text (p_board_token p)) as [[bt|]|]; try discriminate;
  destruct (bind_text (p_org_name p)) as [[org|]|]; try discriminate;
  destruct (bind_text (p_title p)) as [[ti|]|]; try discriminate;
  destruct (bind_text (p_description p)) as [[de|]|]; try discriminate;
  destruct (bind_text (p_location p)) as [lo|]; try discriminate;
  destruct (bind_text (p_post_url p)) as [[url|]|]; try discriminate;
  destruct (bind_text (p_posted_at p)) as [po|]; try discriminate;
  destruct (bind_text (p_first_seen_at p)) as [[fs|]|]; try discriminate;
  destruct (bind_text (p_last_seen_at p)) as [[ls|]|]; try discriminate;
  destruct (bind_text (p_canonical_key p)) as [[ck|]|]; try discriminate.
  intros H. injection H as <-. repeat split.
Qed.

Lemma try_upsert_wrote (p : params) (db db' : database) :
  try_upsert p db = Wrote db' ->
  exists ex,
    bind_params p = Some (Some ex) /\
    statement ex db = Done db' /\
    jobs db' = insert_or_update ex (jobs db).
Proof.
  unfold try_upsert, execute_upsert.
  destruct (bind_params p) as [[ex|]|]; try discriminate.
  - destruct (statement ex db) as [db''| | |] eqn:Es; try discriminate.
    + intros H. injection H as <-. exists ex.
      split; [reflexivity|]. split; [exact Es|].
      apply statement_done. exact Es.
    + destruct bind_failure_is_database_error; discriminate.
  - destruct bind_failure_is_database_error; discriminate.
Qed.


(** [upsert_job] writes only by running the statement on the tuple its
    mapping produced. *)
Lemma run_wrote (m : result (option params)) (db db' : database) :
  run (p <- m ;; Ok (execute p db)) = Wrote db' ->
  exists p, m = Ok (Some p) /\ try_upsert p db = Wrote db'.
Proof.
  destruct m as [[p|]|e]; cbn [bind run execute]; try discriminate.
  intros H. exists p. split; [reflexivity | exact H].
Qed.

(** The statement run on the fingerprint of a stored row rewrites that
    row and no other. *)
Lemma upsert_existing_row (db db' : database) (p : params) (r : job) :
  unique_keys (jobs db) -> In r (jobs db) ->
  bind_text (p_canonical_key p) = Some (Some (canonical_key r)) ->
  try_upsert p db = Wrote db' ->
  exists ex,
    bind_params p = Some (Some ex) /\
    stored (jobs db') (canonical_key r) (do_update r ex) /\
    List.length (jobs db') = List.length (jobs db) /\
    unique_keys (jobs db').
Proof.
  intros Hu Hin Hkey Hw.
  destruct (try_upsert_wrote _ _ _ Hw) as (ex & Hb & _ & ->).
  pose proof (bind_params_fields _ _ Hb) as Hf.
  assert (Hk : canonical_key r = e_canonical_key ex).
  { destruct Hf as (_ & _ & _ & _ & _ & _ & _ & _ & _ & Hck).
    rewrite Hkey in Hck. injection Hck as Hck. exact Hck. }
  destruct (insert_conflict ex (jobs db) r Hu Hin Hk) as (Hlen & Hu' & Hs).
  exists ex. rewrite Hk. repeat split; assumption.
Qed.

(** A call that did not write left the database as it was. *)
Lemma after_not_wrote (o : outcome) (db : database) :
  (forall db', o <> Wrote db') -> after o db = db.
Proof.
  destruct o as [|db'| |e]; intros H; try reflexivity.
  exfalso. apply (H db'). reflexivity.
Qed.

End StatementFacts.

Section AdapterFacts.
Context {R : Runtime}.

Lemma gh_row_params_inv (board_token org_name : string) (j : value)
    (now : string) (p : params) :
  Greenhouse.row_params board_token org_name j now = Ok (Some p) ->
  exists url ts,
    Greenhouse.job_url j = Ok url /\ url <> "" /\
    Greenhouse.source_timestamp j = Ok ts /\
    p_canonical_key p = PStr (md5_hexdigest url) /\
    p_posted_at p = Greenhouse.posted_param ts /\
    p_org_name p = PStr org_name /\
    p_first_seen_at p = PStr now /\ p_last_seen_at p = PStr now.
Proof.
  unfold Greenhouse.row_params. intros H.
  step_reader H.
  destruct (a =? "")%string eqn:Ea; [discriminate|].
  do 4 step_reader H.
  injection H as <-.
  exists a, a3. apply String.eqb_neq in Ea. repeat split; assumption.
Qed.

Lemma lever_row_params_inv (company : string) (j : value) (now : string)
    (p : params) :
  Lever.row_params company j now = Ok (Some p) ->
  exists url ts,
    Lever.job_url j = Ok url /\ url <> "" /\
    Lever.source_timestamp j = Ok ts /\
    p_canonical_key p = PStr (md5_hexdigest url) /\
    Lever.posted_param ts = Ok (p_posted_at p) /\
    p_first_seen_at p = PStr now /\ p_last_seen_at p = PStr now.
Proof.
  unfold Lever.row_params. intros H.
  step_reader H.
  destruct (a =? "")%string eqn:Ea; [discriminate|].
  do 7 step_reader H.
  injection H as <-.
  exists a, a4. apply String.eqb_neq in Ea. repeat split; assumption.
Qed.

End AdapterFacts.

Section RefusedUpdates.

(** C1.  The claim fails on the code for a posting that was stored before
    with less text.  A first fetch stores the posting, which then has no
    location; when it is fetched again with its location filled in, the
    upsert is refused by the trigger [jobs_au], the [DatabaseError] is
    caught, and nothing is written: neither the first nor the second
    upsert of the new record sets [last_seen_at], which stays at the time
    of the first fetch. *)
Theorem refetched_posting_is_not_refreshed :
  Greenhouse.upsert_job (R := demo_runtime) new_database "acme" "Acme"
    sample_gh_job_unplaced "2024-06-01T10:00:00+00:00" =
    Wrote sample_gh_unplaced_database /\
  Greenhouse.upsert_job (R := demo_runtime) sample_gh_unplaced_database
    "acme" "Acme" sample_gh_job "2024-06-02T10:00:00+00:00" = Warned /\
  Greenhouse.upsert_job (R := demo_runtime) sample_gh_unplaced_database
    "acme" "Acme" sample_gh_job "2024-06-03T10:00:00+00:00" = Warned /\
  Greenhouse.job_url sample_gh_job = Ok "https://x.co/a" /\
  rows_with_key "md5:https://x.co/a" (jobs sample_gh_unplaced_database) =
    [sample_gh_row_unplaced] /\
  last_seen_at sample_gh_row_unplaced = "2024-06-01T10:00:00+00:00".
Proof. repeat split; vm_compute; reflexivity. Qed.


End RefusedUpdates.

Section UpsertProperties.
Context {R : Runtime}.

Lemma bind_text_lever_posted (ts v : value) :
  Lever.posted_param ts = Ok v ->
  match Lever.as_number ts with
  | None => bind_text v = Some None
  | Some n => exists s, utc_isoformat_of_millis n = Ok s /\
                        bind_text v = Some (Some s)
  end.
Proof.
  unfold Lever.posted_param.
  destruct (Lever.as_number ts) as [n|].
  - destruct (utc_isoformat_of_millis n) as [s|e]; cbn [bind];
      [|discriminate].
    intros H. injection H as <-. exists s. split; reflexivity.
  - intros H. injection H as <-. reflexivity.
Qed.

(** X28.  In the Greenhouse and the Lever adapter alike, for a stored row
    and an incoming record whose URL has the row's fingerprint: once the
    call is over, whatever it did, the row is still the only one under
    that fingerprint, and if the timestamp derived from the record is null
    its [posted_at] is what it was.  When the upsert is carried out with a
    non-null derived timestamp, the row's [posted_at] becomes that
    value. *)
Theorem null_posted_at_keeps_stored
    (db : database) (r : job) (j : value) (url now : string) (ts : value) :
  unique_keys (jobs db) -> In r (jobs db) ->
  canonical_key r = md5_hexdigest url ->
  (forall board_token org_name,
     Greenhouse.job_url j = Ok url ->
     Greenhouse.source_timestamp j = Ok ts ->
     exists r',
       rows_with_key (md5_hexdigest url)
         (jobs (after (Greenhouse.upsert_job db board_token org_name j now)
                  db)) = [r'] /\
       (_parse_iso ts = None -> posted_at r' = posted_at r) /\
       (forall db' dt,
          Greenhouse.upsert_job db board_token org_name j now = Wrote db' ->
          _parse_iso ts = Some dt ->
          posted_at r' = Some (isoformat dt))) /\
  (forall company,
     Lever.job_url j = Ok url ->
     Lever.source_timestamp j = Ok ts ->
     exists r',
       rows_with_key (md5_hexdigest url)
         (jobs (after (Lever.upsert_job db company j now) db)) = [r'] /\
       (Lever.as_number ts = None -> posted_at r' = posted_at r) /\
       (forall db' n s,
          Lever.upsert_job db company j now = Wrote db' ->
          Lever.as_number ts = Some n ->
          utc_isoformat_of_millis n = Ok s ->
          posted_at r' = Some s)).
Proof.
  intros Hu Hin Hkey.
  assert (Hsame : rows_with_key (md5_hexdigest url) (jobs db) = [r])
    by (rewrite <- Hkey; apply unique_stored; assumption).
  split.
  - intros board_token org_name Hurl Hts.
    destruct (Greenhouse.upsert_job db board_token org_name j now)
      as [|db'| |e] eqn:Hw; cbn [after];
      try (exists r; split; [exact Hsame|];
           split; [reflexivity | intros; discriminate]).
    destruct (run_wrote _ _ _ Hw) as (p & Hp & Hexec).
    destruct (gh_row_params_inv _ _ _ _ _ Hp)
      as (url' & ts' & Hurl' & _ & Hts' & Hck & Hpo & _).
    rewrite Hurl in Hurl'. injection Hurl' as <-.
    rewrite Hts in Hts'. injection Hts' as <-.
    assert (Hb : bind_text (p_canonical_key p) = Some (Some (canonical_key r)))
      by (rewrite Hck, Hkey; reflexivity).
    destruct (upsert_existing_row _ _ _ _ Hu Hin Hb Hexec)
      as (ex & Hbp & Hs & _).
    destruct (bind_params_fields _ _ Hbp)
      as (_ & _ & _ & _ & _ & _ & Hposted & _).
    rewrite Hpo, bind_text_gh_posted in Hposted. injection Hposted as Hposted.
    exists (do_update r ex). rewrite <- Hkey.
    split; [exact Hs|]. simpl. rewrite <- Hposted. split.
    + intros ->. reflexivity.
    + intros _ dt _ ->. reflexivity.
  - intros company Hurl Hts.
    destruct (Lever.upsert_job db company j now)
      as [|db'| |e] eqn:Hw; cbn [after];
      try (exists r; split; [exact Hsame|];
           split; [reflexivity | intros; discriminate]).
    destruct (run_wrote _ _ _ Hw) as (p & Hp & Hexec).
    destruct (lever_row_params_inv _ _ _ _ Hp)
      as (url' & ts' & Hurl' & _ & Hts' & Hck & Hpo & _).
    rewrite Hurl in Hurl'. injection Hurl' as <-.
    rewrite Hts in Hts'. injection Hts' as <-.
    assert (Hb : bind_text (p_canonical_key p) = Some (Some (canonical_key r)))
      by (rewrite Hck, Hkey; reflexivity).
    destruct (upsert_existing_row _ _ _ _ Hu Hin Hb Hexec)
      as (ex & Hbp & Hs & _).
    destruct (bind_params_fields _ _ Hbp)
      as (_ & _ & _ & _ & _ & _ & Hposted & _).
    pose proof (bind_text_lever_posted _ _ Hpo) as Hcase.
    exists (do_update r ex). rewrite <- Hkey.
    split; [exact Hs|]. simpl. split.
    + intros Hnone. rewrite Hnone in Hcase. rewrite Hcase in Hposted.
      injection Hposted as <-. reflexivity.
    + intros _ n s _ Hn Hiso. rewrite Hn in Hcase.
      destruct Hcase as (s' & Hs' & Hbs).
      rewrite Hiso in Hs'. injection Hs' as <-.
      rewrite Hbs in Hposted. injection Hposted as <-. reflexivity.
Qed.

Lemma conflict_update_fields (db db' : database) (r : job) (p : params) :
  unique_keys (jobs db) -> In r (jobs db) ->
  bind_text (p_canonical_key p) = Some (Some (canonical_key r)) ->
  try_upsert p db = Wrote db' ->
  overwritten_from p r (jobs db').
Proof.
  intros Hu Hin Hb Hw.
  destruct (upsert_existing_row _ _ _ _ Hu Hin Hb Hw) as (ex & Hbp & Hs & _).
  destruct (bind_params_fields _ _ Hbp)
    as (_ & _ & Hti & Hde & Hlo & _).
  exists (do_update r ex). repeat split; assumption.
Qed.

(** C3 (as amended).  In each of the three adapters, when the tuple the
    adapter builds carries the fingerprint of a stored row and the upsert
    is carried out, the stored title, description and location become the
    incoming ones, while the stored organisation name stays as it was. *)
Theorem conflict_overwrites_text_keeps_org
    (db db' : database) (r : job) (p : params) (rec : value) (now : string) :
  unique_keys (jobs db) -> In r (jobs db) ->
  bind_text (p_canonical_key p) = Some (Some (canonical_key r)) ->
  (forall board_token org_name,
     Greenhouse.row_params board_token org_name rec now = Ok (Some p) ->
     Greenhouse.upsert_job db board_token org_name rec now = Wrote db' ->
     overwritten_from p r (jobs db')) /\
  (forall company,
     Lever.row_params company rec now = Ok (Some p) ->
     Lever.upsert_job db company rec now = Wrote db' ->
     overwritten_from p r (jobs db')) /\
  (forall endpoint_label,
     Workday.row_params endpoint_label rec now = Ok (Some p) ->
     Workday.upsert_job db endpoint_label rec now = Wrote db' ->
     overwritten_from p r (jobs db')).
Proof.
  intros Hu Hin Hb.
  split; [|split]; intros;
    match goal with
    | Hp : _ = Ok (Some p), Hw : _ = Wrote db' |- _ =>
        apply run_wrote in Hw; destruct Hw as (p' & Hp' & Hw);
        rewrite Hp in Hp'; injection Hp' as <-;
        exact (conflict_update_fields _ _ _ _ Hu Hin Hb Hw)
    end.
Qed.

(** C3, the claim as written fails: a row stored under the organisation
    name "Acme" keeps it when the same posting is upserted again under the
    name "Acme Corporation", although the upsert is carried out and
    replaces its title, description and location. *)
Lemma org_name_survives_upsert :
  exists db' r',
    jobs sample_gh_typo_database = [sample_gh_row_typo] /\
    Greenhouse.upsert_job (R := demo_runtime) sample_gh_typo_database
      "acme" "Acme Corporation" sample_gh_job "2024-06-02T10:00:00+00:00"
    = Wrote db' /\
    jobs db' = [r'] /\
    title r' = "Senior Backend Engineer" /\
    description r' = "Build things." /\
    location r' = Some "Remote - USA" /\
    org_name r' = "Acme" /\
    org_name r' <> "Acme Corporation".
Proof.
  eexists. eexists. split; [reflexivity|].
  split; [vm_compute; reflexivity|].
  split; [reflexivity|].
  repeat split. discriminate.
Qed.

(** C4 (as amended).  Greenhouse takes [updated_at] whenever it is
    present (truthy), whatever [created_at] holds, and hands the statement
    the timestamp parsed from it.  Lever takes [createdAt] whenever it is
    present and falls back to [updatedAt] only when [createdAt] is absent
    or falsy; the statement gets the timestamp derived from that choice. *)
Theorem timestamp_precedence (kv : list (string * value)) (now : string) :
  (truthy (lookup_value kv "updated_at") = true ->
   Greenhouse.source_timestamp (PDict kv) = Ok (lookup_value kv "updated_at") /\
   forall board_token org_name p,
     Greenhouse.row_params board_token org_name (PDict kv) now = Ok (Some p) ->
     p_posted_at p = Greenhouse.posted_param (lookup_value kv "updated_at")) /\
  (truthy (lookup_value kv "createdAt") = true ->
   Lever.source_timestamp (PDict kv) = Ok (lookup_value kv "createdAt") /\
   forall company p,
     Lever.row_params company (PDict kv) now = Ok (Some p) ->
     Lever.posted_param (lookup_value kv "createdAt") = Ok (p_posted_at p)) /\
  (truthy (lookup_value kv "createdAt") = false ->
   Lever.source_timestamp (PDict kv) = Ok (lookup_value kv "updatedAt")).
Proof.
  split; [|split].
  - intros Ht.
    assert (Hts : Greenhouse.source_timestamp (PDict kv) =
                  Ok (lookup_value kv "updated_at")).
    { unfold Greenhouse.source_timestamp, get. cbn [bind].
      fold (lookup_value kv "updated_at"). unfold or_. rewrite Ht.
      reflexivity. }
    split; [exact Hts|].
    intros board_token org_name p Hp.
    destruct (gh_row_params_inv _ _ _ _ _ Hp)
      as (url & ts & _ & _ & Hts' & _ & Hpo & _).
    rewrite Hts in Hts'. injection Hts' as <-. exact Hpo.
  - intros Ht.
    assert (Hts : Lever.source_timestamp (PDict kv) =
                  Ok (lookup_value kv "createdAt")).
    { unfold Lever.source_timestamp, get. cbn [bind].
      fold (lookup_value kv "createdAt"). unfold or_. rewrite Ht.
      reflexivity. }
    split; [exact Hts|].
    intros company p Hp.
    destruct (lever_row_params_inv _ _ _ _ Hp)
      as (url & ts & _ & _ & Hts' & _ & Hpo & _).
    rewrite Hts in Hts'. injection Hts' as <-. exact Hpo.
  - intros Hf.
    unfold Lever.source_timestamp, get. cbn [bind].
    fold (lookup_value kv "createdAt"). unfold or_. rewrite Hf.
    reflexivity.
Qed.

(** C4, the claim as written fails for Lever: a posting created at
    1000 ms and updated at 2000 ms gets the timestamp of its creation. *)
Lemma lever_prefers_created_at :
  Lever.source_timestamp sample_lever_job = Ok (PNum (Int 1000)) /\
  Py.get sample_lever_job "updatedAt" = Ok (PNum (Int 2000)) /\
  exists p,
    Lever.row_params (R := demo_runtime) "acme" sample_lever_job
      "2024-06-02T10:00:00+00:00" = Ok (Some p) /\
    p_posted_at p = PStr "ms:1000" /\
    utc_isoformat_of_millis (Runtime := demo_runtime) (Int 2000)
      = Ok "ms:2000".
Proof.
  split; [reflexivity|]. split; [reflexivity|].
  eexists. split; [vm_compute; reflexivity|].
  split; reflexivity.
Qed.

(** C8.  A record whose URL field is absent, falsy or blank text is
    skipped by the Greenhouse and by the Lever adapter: the call returns
    normally without running any statement, whatever else the record
    holds.  (Lever reads [hostedUrl], and [applyUrl] when that is
    falsy.) *)
Theorem blank_url_is_skipped
    (db : database) (kv : list (string * value)) (now : string) :
  (forall board_token org_name,
     blank (lookup_value kv "absolute_url") = true ->
     Greenhouse.upsert_job db board_token org_name (PDict kv) now = Skipped) /\
  (forall company,
     blank (or_ (lookup_value kv "hostedUrl") (lookup_value kv "applyUrl"))
       = true ->
     Lever.upsert_job db company (PDict kv) now = Skipped).
Proof.
  assert (Hblank : forall v, blank v = true ->
                     m_strip (or_ v (PStr "")) = Ok "").
  { intros v Hv. unfold blank in Hv. unfold or_.
    destruct (truthy v) eqn:Ht; simpl in Hv.
    - destruct v; try discriminate. simpl.
      apply String.eqb_eq in Hv. rewrite Hv. reflexivity.
    - reflexivity. }
  split.
  - intros board_token org_name Hb.
    unfold Greenhouse.upsert_job, Greenhouse.row_params, Greenhouse.job_url, get.
    fold (lookup_value kv "absolute_url"). cbn [bind].
    rewrite (Hblank _ Hb). reflexivity.
  - intros company Hb.
    unfold Lever.upsert_job, Lever.row_params, Lever.job_url, get.
    fold (lookup_value kv "hostedUrl"). fold (lookup_value kv "applyUrl").
    cbn [bind].
    rewrite (Hblank _ Hb). reflexivity.
Qed.

(** C10.  The Workday adapter skips a record whose title is absent,
    falsy or blank text.  A record without a usable [externalPath] or
    [externalUrlPath] never reaches the statement, and is skipped as soon
    as its title, subtitle and location can be read. *)
Theorem workday_skips_without_title_or_path
    (db : database) (endpoint_label : string) (kv : list (string * value))
    (now : string) :
  (blank (lookup_value kv "title") = true ->
   Workday.upsert_job db endpoint_label (PDict kv) now = Skipped) /\
  (truthy (lookup_value kv "externalPath") = false ->
   truthy (lookup_value kv "externalUrlPath") = false ->
   (forall db',
      Workday.upsert_job db endpoint_label (PDict kv) now <> Wrote db') /\
   (forall t org loc,
      Workday.job_title (PDict kv) = Ok t -> t <> "" ->
      Workday.job_org endpoint_label (PDict kv) = Ok org ->
      Workday.job_location (PDict kv) = Ok loc ->
      Workday.upsert_job db endpoint_label (PDict kv) now = Skipped)).
Proof.
  split.
  - intros Hb.
    unfold Workday.upsert_job, Workday.row_params, Workday.job_title, get.
    fold (lookup_value kv "title"). cbn [bind].
    unfold blank in Hb. unfold or_.
    destruct (truthy (lookup_value kv "title")) eqn:Ht; simpl in Hb.
    + destruct (lookup_value kv "title"); try discriminate. simpl.
      apply String.eqb_eq in Hb. rewrite Hb. reflexivity.
    + reflexivity.
  - intros He1 He2.
    assert (Hpath : Workday.job_external_path (PDict kv) = Ok (PStr "")).
    { unfold Workday.job_external_path, get. cbn [bind].
      fold (lookup_value kv "externalPath").
      fold (lookup_value kv "externalUrlPath").
      unfold or_. rewrite He1, He2. reflexivity. }
    assert (Hposted : exists v, Workday.job_posted (PDict kv) = Ok v)
      by (eexists; reflexivity).
    destruct Hposted as (v & Hv).
    split.
    + intros db' Hw.
      apply run_wrote in Hw. destruct Hw as (p & Hp & _).
      unfold Workday.row_params in Hp.
      step_reader Hp.
      destruct (a =? "")%string; [discriminate|].
      do 2 step_reader Hp.
      rewrite Hv, Hpath in Hp. cbn [bind] in Hp. discriminate.
    + intros t org loc Ht Hne Horg Hloc.
      unfold Workday.upsert_job, Workday.row_params.
      rewrite Ht. cbn [bind].
      apply String.eqb_neq in Hne. rewrite Hne.
      rewrite Horg, Hloc, Hv, Hpath. reflexivity.
Qed.

End UpsertProperties.

(* ------------------------------------------------------------------ *)
(** ** request_with_backoff                                             *)
(* ------------------------------------------------------------------ *)

Section BackoffProperties.
Import Backoff.









End BackoffProperties.

(* ------------------------------------------------------------------ *)
(** ** normalize_fields                                                 *)
(* ------------------------------------------------------------------ *)

(** C9.  The posting titled "Senior Backend Engineer", with an empty
    description and location "Remote - USA", is classified as role level
    senior and work type remote. *)
Theorem senior_remote_example :
  Normalizer.role_level
    (Normalizer.normalize_fields "Senior Backend Engineer" ""
       (Some "Remote - USA")) = Some "senior" /\
  Normalizer.work_type
    (Normalizer.normalize_fields "Senior Backend Engineer" ""
       (Some "Remote - USA")) = Some "remote".
Proof. split; vm_compute; reflexivity. Qed.

(* ------------------------------------------------------------------ *)
(** ** workday.fetch_jobs                                               *)
(* ------------------------------------------------------------------ *)

Section PaginationProperties.
Context {R : Runtime}.
Variable server : Type.
Variable send : server -> Workday.request -> result Workday.response * server.

Lemma pages_requested_app (a b : list Workday.request) :
  Workday.pages_requested (a ++ b) =
  (Workday.pages_requested a + Workday.pages_requested b)%nat.
Proof.
  unfold Workday.pages_requested. rewrite filter_app, length_app. reflexivity.
Qed.

(** Every iteration issues exactly one POST. *)
Lemma fetch_page_one_post (st : server) (text : string) (pl off : Z) :
  Workday.pages_requested
    (fst (fst (Workday.fetch_page server send st text pl off))) = 1%nat.
Proof.
  unfold Workday.fetch_page.
  destruct (send st _) as [[r|e] st1]; [|reflexivity].
  destruct ((Workday.status_code r =? 400) || (Workday.status_code r =? 405)).
  - destruct (send st1 _) as [x st']. reflexivity.
  - reflexivity.
Qed.


Lemma page_items_nil (posts : value) :
  page_items posts = Ok [] -> truthy posts = false.
Proof.
  unfold page_items. destruct (truthy posts) eqn:Ht; simpl; [|reflexivity].
  destruct posts as [| b | n | s | l | kv]; simpl in *; try discriminate.
  - destruct s; [discriminate|]. discriminate.
  - destruct l; [discriminate|]. discriminate.
  - destruct kv; [discriminate|]. discriminate.
Qed.

(** The loop body in terms of the page's records: a short or empty page
    ends the loop, a full page moves the offset on. *)
Lemma fetch_loop_step (n : nat) (st st' : server) (text : string)
    (pl off : Z) (acc : list value) (tr reqs : list Workday.request)
    (items : list value) :
  read_page send st text pl off = (reqs, st', Ok items) ->
  Workday.fetch_loop server send (S n) st text pl off acc tr =
  if (Z.of_nat (List.length items) <? pl) ||
     match items with [] => true | _ => false end
  then (tr ++ reqs, Ok (acc ++ items))
  else Workday.fetch_loop server send n st' text pl (off + pl)
         (acc ++ items) (tr ++ reqs).
Proof.
  unfold read_page. simpl.
  destruct (Workday.fetch_page server send st text pl off) as [[reqs0 st0] page].
  intros H. injection H as -> -> Hitems.
  destruct page as [posts|e]; cbn [bind] in Hitems; [|discriminate].
  unfold page_items in Hitems.
  destruct (truthy posts) eqn:Ht; simpl in Hitems |- *.
  - rewrite Hitems.
    assert (Hne : items <> []).
    { intros ->. pose proof (page_items_nil posts) as Hnil.
      unfold page_items in Hnil. rewrite Ht in Hnil. simpl in Hnil.
      specialize (Hnil Hitems). discriminate. }
    destruct items as [|x items']; [contradiction|].
    rewrite orb_false_r. reflexivity.
  - injection Hitems as <-. rewrite orb_true_r, app_nil_r. reflexivity.
Qed.


End PaginationProperties.

(* ------------------------------------------------------------------ *)
(** ** search_jobs and search                                           *)
(* ------------------------------------------------------------------ *)

Section SearchProperties.
Import Search.

Lemma text_desc_flip (a b : string) :
  text_desc a b = Gt -> text_desc b a = Lt.
Proof.
  unfold text_desc. rewrite (String.compare_antisym a b).
  destruct (b ?= a)%string; simpl; congruence.
Qed.

Lemma text_desc_eq_flip (a b : string) :
  text_desc a b = Eq -> text_desc b a = Eq.
Proof.
  unfold text_desc. rewrite (String.compare_antisym a b).
  destruct (b ?= a)%string; simpl; congruence.
Qed.

Lemma row_order_flip (a b : job) :
  row_order a b = Gt -> row_order b a = Lt.
Proof.
  unfold row_order, posted_desc_nulls_last.
  destruct (posted_at a) as [x|], (posted_at b) as [y|]; try discriminate.
  - destruct (text_desc x y) eqn:E; try discriminate.
    + rewrite (text_desc_eq_flip _ _ E). apply text_desc_flip.
    + intros _. rewrite (text_desc_flip _ _ E). reflexivity.
  - reflexivity.
  - apply text_desc_flip.
Qed.

Lemma not_after_total (a b : job) :
  not_after a b = false -> not_after b a = true.
Proof.
  unfold not_after. destruct (row_order a b) eqn:E; try discriminate.
  intros _. rewrite (row_order_flip _ _ E). reflexivity.
Qed.

Lemma insert_row_in (x a : job) (l : table) :
  In x (insert_row a l) <-> x = a \/ In x l.
Proof.
  induction l as [|y l IH]; simpl.
  - intuition.
  - destruct (not_after a y); simpl; [intuition|].
    rewrite IH. intuition.
Qed.

Lemma order_rows_in (x : job) (l : table) :
  In x (order_rows l) <-> In x l.
Proof.
  induction l as [|a l IH]; simpl; [reflexivity|].
  unfold order_rows in *. simpl. rewrite insert_row_in, IH. intuition.
Qed.

Lemma insert_row_sorted (a : job) (l : table) :
  sorted_rows l -> sorted_rows (insert_row a l).
Proof.
  unfold sorted_rows. induction l as [|y l IH]; intros Hs; simpl.
  - repeat constructor.
  - destruct (not_after a y) eqn:E.
    + constructor; [exact Hs | constructor; exact E].
    + inversion Hs as [|? ? Hs' Hhd]; subst.
      constructor; [apply IH; exact Hs'|].
      destruct l as [|z l']; simpl.
      * constructor. apply not_after_total. exact E.
      * destruct (not_after a z); constructor.
        -- apply not_after_total. exact E.
        -- inversion Hhd; subst. assumption.
Qed.

Lemma order_rows_sorted (l : table) : sorted_rows (order_rows l).
Proof.
  induction l as [|a l IH]; [constructor|].
  unfold order_rows in *. simpl. apply insert_row_sorted. exact IH.
Qed.

Lemma firstn_sorted (n : nat) (l : table) :
  sorted_rows l -> sorted_rows (firstn n l).
Proof.
  unfold sorted_rows. revert l.
  induction n as [|n IH]; intros l Hs; simpl; [constructor|].
  destruct l as [|a l]; [constructor|].
  inversion Hs as [|? ? Hs' Hhd]; subst.
  constructor; [apply IH; exact Hs'|].
  destruct n; simpl; [constructor|].
  destruct l; [constructor|]. inversion Hhd; subst. constructor. assumption.
Qed.

Lemma limit_rows_sorted (limit : Z) (l : table) :
  sorted_rows l -> sorted_rows (limit_rows limit l).
Proof.
  unfold limit_rows. destruct (limit <? 0); [trivial|apply firstn_sorted].
Qed.

Lemma firstn_subset (n : nat) (l : table) (x : job) :
  In x (firstn n l) -> In x l.
Proof.
  revert l. induction n as [|n IH]; intros l; simpl; [intros []|].
  destruct l as [|a l]; simpl; [intros []|].
  intros [-> | H]; [left; reflexivity | right; apply IH; exact H].
Qed.

Lemma limit_rows_in (limit : Z) (l : table) (x : job) :
  In x (limit_rows limit l) -> In x l.
Proof.
  unfold limit_rows. destruct (limit <? 0); [trivial|apply firstn_subset].
Qed.

Lemma limit_rows_length (limit : Z) (l : table) :
  0 <= limit -> (List.length (limit_rows limit l) <= Z.to_nat limit)%nat.
Proof.
  intros H. unfold limit_rows.
  assert (Hl : (limit <? 0) = false) by (apply Z.ltb_ge; lia).
  rewrite Hl. rewrite length_firstn. lia.
Qed.

(** What any of the SELECT statements returns. *)
Lemma select_spec (w : job -> bool) (loc : option string) (limit : Z)
    (rows : table) :
  sorted_rows (select w loc limit rows) /\
  (0 <= limit ->
   (List.length (select w loc limit rows) <= Z.to_nat limit)%nat) /\
  (forall r, In r (select w loc limit rows) ->
     In r rows /\ w r = true /\ location_filter loc r = true).
Proof.
  unfold select. split; [|split].
  - apply limit_rows_sorted, order_rows_sorted.
  - apply limit_rows_length.
  - intros r Hr. apply limit_rows_in, order_rows_in, filter_In in Hr.
    destruct Hr as [Hin Hw]. apply andb_prop in Hw. tauto.
Qed.





End SearchProperties.

(* ------------------------------------------------------------------ *)
(** ** Worked instances                                                 *)
(* ------------------------------------------------------------------ *)

(** An undated re-fetch of a stored, dated posting, in Greenhouse and in
    Lever. *)
Lemma null_posted_at_keeps_stored_witness :
  (exists r',
     rows_with_key "md5:https://x.co/a"
       (jobs (after (Greenhouse.upsert_job (R := demo_runtime)
                       sample_gh_database "acme" "Acme"
                       sample_gh_job_undated sample_now)
                sample_gh_database)) = [r'] /\
     posted_at r' = Some "2024-05-02T00:00:00+00:00") /\
  (exists r',
     rows_with_key "md5:https://jobs.lever.co/acme/1"
       (jobs (after (Lever.upsert_job (R := demo_runtime)
                       sample_lever_database "acme"
                       sample_lever_job_undated sample_now)
                sample_lever_database)) = [r'] /\
     posted_at r' = Some "ms:1000").
Proof.
  split.
  - assert (Hu : unique_keys (jobs sample_gh_database))
      by (repeat constructor; simpl; intros []).
    assert (Hin : In sample_gh_row (jobs sample_gh_database))
      by (left; reflexivity).
    assert (Hk : canonical_key sample_gh_row =
                 md5_hexdigest (Runtime := demo_runtime) "https://x.co/a")
      by (vm_compute; reflexivity).
    assert (Hurl : Greenhouse.job_url sample_gh_job_undated =
                   Ok "https://x.co/a") by (vm_compute; reflexivity).
    assert (Hts : Greenhouse.source_timestamp sample_gh_job_undated = Ok PNone)
      by (vm_compute; reflexivity).
    destruct (null_posted_at_keeps_stored (R := demo_runtime)
                sample_gh_database sample_gh_row sample_gh_job_undated
                "https://x.co/a" sample_now PNone Hu Hin Hk) as [G _].
    destruct (G "acme" "Acme" Hurl Hts) as (r' & Hs & Hnull & _).
    exists r'. split; [exact Hs | exact (Hnull eq_refl)].
  - assert (Hu : unique_keys (jobs sample_lever_database))
      by (repeat constructor; simpl; intros []).
    assert (Hin : In sample_lever_row (jobs sample_lever_database))
      by (left; reflexivity).
    assert (Hk : canonical_key sample_lever_row =
                 md5_hexdigest (Runtime := demo_runtime)
                   "https://jobs.lever.co/acme/1")
      by (vm_compute; reflexivity).
    assert (Hurl : Lever.job_url sample_lever_job_undated =
                   Ok "https://jobs.lever.co/acme/1")
      by (vm_compute; reflexivity).
    assert (Hts : Lever.source_timestamp sample_lever_job_undated = Ok PNone)
      by (vm_compute; reflexivity).
    destruct (null_posted_at_keeps_stored (R := demo_runtime)
                sample_lever_database sample_lever_row
                sample_lever_job_undated "https://jobs.lever.co/acme/1"
                sample_now PNone Hu Hin Hk) as [_ L].
    destruct (L "acme" Hurl Hts) as (r' & Hs & Hnull & _).
    exists r'. split; [exact Hs | exact (Hnull eq_refl)].
Defined.

(** One stored posting per adapter, fetched again with corrected text. *)
Lemma conflict_overwrites_text_keeps_org_witness :
  overwritten_from (R := demo_runtime)
    (tuple_of (Greenhouse.row_params (R := demo_runtime) "acme"
                 "Acme Corporation" sample_gh_job sample_now))
    sample_gh_row_typo
    (table_after (Greenhouse.upsert_job (R := demo_runtime)
                    sample_gh_typo_database "acme" "Acme Corporation"
                    sample_gh_job sample_now)) /\
  overwritten_from (R := demo_runtime)
    (tuple_of (Lever.row_params (R := demo_runtime) "acme"
                 sample_lever_job sample_now))
    sample_lever_row
    (table_after (Lever.upsert_job (R := demo_runtime)
                    sample_lever_database "acme" sample_lever_job
                    sample_now)) /\
  overwritten_from (R := demo_runtime)
    (tuple_of (Workday.row_params (R := demo_runtime) sample_endpoint
                 sample_wd_posting sample_now))
    sample_wd_row
    (table_after (Workday.upsert_job (R := demo_runtime)
                    sample_wd_database sample_endpoint sample_wd_posting
                    sample_now)).
Proof.
  assert (Hone : forall r : job, unique_keys [r])
    by (intros r; repeat constructor; simpl; intros []).
  assert (Hin : forall r : job, In r [r]) by (intros r; left; reflexivity).
  split; [|split].
  - assert (Hk : bind_text (R := demo_runtime)
                   (p_canonical_key
                      (tuple_of (Greenhouse.row_params (R := demo_runtime)
                                   "acme" "Acme Corporation" sample_gh_job
                                   sample_now))) =
                 Some (Some (canonical_key sample_gh_row_typo)))
      by (vm_compute; reflexivity).
    destruct (conflict_overwrites_text_keeps_org (R := demo_runtime)
                sample_gh_typo_database
                (after (Greenhouse.upsert_job (R := demo_runtime)
                          sample_gh_typo_database "acme" "Acme Corporation"
                          sample_gh_job sample_now)
                   sample_gh_typo_database)
                sample_gh_row_typo _ sample_gh_job sample_now
                (Hone _) (Hin _) Hk) as (G & _ & _).
    apply (G "acme" "Acme Corporation"); vm_compute; reflexivity.
  - assert (Hk : bind_text (R := demo_runtime)
                   (p_canonical_key
                      (tuple_of (Lever.row_params (R := demo_runtime)
                                   "acme" sample_lever_job sample_now))) =
                 Some (Some (canonical_key sample_lever_row)))
      by (vm_compute; reflexivity).
    destruct (conflict_overwrites_text_keeps_org (R := demo_runtime)
                sample_lever_database
                (after (Lever.upsert_job (R := demo_runtime)
                          sample_lever_database "acme" sample_lever_job
                          sample_now)
                   sample_lever_database)
                sample_lever_row _ sample_lever_job sample_now
                (Hone _) (Hin _) Hk) as (_ & L & _).
    apply (L "acme"); vm_compute; reflexivity.
  - assert (Hk : bind_text (R := demo_runtime)
                   (p_canonical_key
                      (tuple_of (Workday.row_params (R := demo_runtime)
                                   sample_endpoint sample_wd_posting
                                   sample_now))) =
                 Some (Some (canonical_key sample_wd_row)))
      by (vm_compute; reflexivity).
    destruct (conflict_overwrites_text_keeps_org (R := demo_runtime)
                sample_wd_database
                (after (Workday.upsert_job (R := demo_runtime)
                          sample_wd_database sample_endpoint
                          sample_wd_posting sample_now)
                   sample_wd_database)
                sample_wd_row _ sample_wd_posting sample_now
                (Hone _) (Hin _) Hk) as (_ & _ & W).
    apply (W sample_endpoint); vm_compute; reflexivity.
Defined.

(** The timestamps picked from the sample postings. *)
Lemma timestamp_precedence_witness :
  Greenhouse.source_timestamp sample_gh_job =
    Ok (PStr "2024-05-02T00:00:00Z") /\
  Lever.source_timestamp sample_lever_job = Ok (PNum (Int 1000)) /\
  Lever.source_timestamp (PDict [("updatedAt", PNum (Int 2000))]) =
    Ok (PNum (Int 2000)).
Proof.
  split; [|split].
  - destruct (timestamp_precedence (R := demo_runtime)
                [ ("absolute_url", PStr "https://x.co/a");
                  ("title", PStr "Senior  Backend Engineer");
                  ("location", PDict [("name", PStr "Remote - USA")]);
                  ("content", PStr "Build things.");
                  ("updated_at", PStr "2024-05-02T00:00:00Z");
                  ("created_at", PStr "2024-05-01T00:00:00Z") ]
                sample_now) as (G & _ & _).
    assert (Ht : truthy (PStr "2024-05-02T00:00:00Z") = true)
      by (vm_compute; reflexivity).
    exact (proj1 (G Ht)).
  - destruct (timestamp_precedence (R := demo_runtime)
                [ ("hostedUrl", PStr "https://jobs.lever.co/acme/1");
                  ("text", PStr "Data Engineer");
                  ("categories", PDict [("team", PStr "Platform");
                                        ("location", PStr "Berlin")]);
                  ("descriptionPlain", PStr "Pipelines.");
                  ("createdAt", PNum (Int 1000));
                  ("updatedAt", PNum (Int 2000)) ]
                sample_now) as (_ & L & _).
    assert (Ht : truthy (PNum (Int 1000)) = true) by (vm_compute; reflexivity).
    exact (proj1 (L Ht)).
  - destruct (timestamp_precedence (R := demo_runtime)
                [("updatedAt", PNum (Int 2000))] sample_now) as (_ & _ & L).
    assert (Hf : truthy PNone = false) by reflexivity.
    exact (L Hf).
Defined.

(** A blank [absolute_url], and a Lever posting without any URL. *)
Lemma blank_url_is_skipped_witness :
  blank (PStr "   ") = true /\
  Greenhouse.upsert_job (R := demo_runtime) sample_gh_database "acme" "Acme"
    (PDict [("absolute_url", PStr "   "); ("title", PStr "Nurse")])
    sample_now = Skipped /\
  Lever.upsert_job (R := demo_runtime) sample_lever_database "acme"
    (PDict [("text", PStr "Nurse")]) sample_now = Skipped.
Proof.
  assert (Hb : blank (PStr "   ") = true) by (vm_compute; reflexivity).
  split; [exact Hb|]. split.
  - destruct (blank_url_is_skipped (R := demo_runtime) sample_gh_database
                [("absolute_url", PStr "   "); ("title", PStr "Nurse")]
                sample_now) as [G _].
    exact (G "acme" "Acme" Hb).
  - destruct (blank_url_is_skipped (R := demo_runtime) sample_lever_database
                [("text", PStr "Nurse")] sample_now) as [_ L].
    assert (Hn : blank PNone = true) by reflexivity.
    exact (L "acme" Hn).
Defined.

(** A blank title, and a posting without [externalPath]. *)
Lemma workday_skips_without_title_or_path_witness :
  Workday.upsert_job (R := demo_runtime) new_database sample_endpoint
    (PDict [("title", PStr "  "); ("externalPath", PStr "/job/9")])
    sample_now = Skipped /\
  Workday.upsert_job (R := demo_runtime) new_database sample_endpoint
    (PDict [ ("title", PStr "Nurse");
             ("locationsText", PStr "Boston, MA");
             ("postedOn", PStr "Posted Today") ])
    sample_now = Skipped.
Proof.
  split.
  - destruct (workday_skips_without_title_or_path (R := demo_runtime)
                new_database sample_endpoint
                [("title", PStr "  "); ("externalPath", PStr "/job/9")]
                sample_now) as [T _].
    assert (Hb : blank (PStr "  ") = true) by (vm_compute; reflexivity).
    exact (T Hb).
  - destruct (workday_skips_without_title_or_path (R := demo_runtime)
                new_database sample_endpoint
                [ ("title", PStr "Nurse");
                  ("locationsText", PStr "Boston, MA");
                  ("postedOn", PStr "Posted Today") ]
                sample_now) as [_ P].
    assert (Hf : truthy PNone = false) by reflexivity.
    destruct (P Hf Hf) as [_ S].
    apply (S "Nurse" sample_endpoint "Boston, MA").
    + vm_compute; reflexivity.
    + discriminate.
    + vm_compute; reflexivity.
    + vm_compute; reflexivity.
Defined.




(* ------------------------------------------------------------------ *)
(** ** The table across upserts of any adapter                          *)
(* ------------------------------------------------------------------ *)

Section TableInvariants.
Context {R : Runtime}.

Lemma others_cons (k : string) (r : job) (rows : table) :
  others k (r :: rows) =
  if has_key k r then others k rows else r :: others k rows.
Proof.
  unfold others. cbn [filter]. destruct (has_key k r); reflexivity.
Qed.

Lemma update_conflict_frame (ex : excluded) (rows rows' : table) :
  update_conflict ex rows = Some rows' ->
  others (e_canonical_key ex) rows' = others (e_canonical_key ex) rows /\
  map canonical_key rows' = map canonical_key rows /\
  List.length rows' = List.length rows.
Proof.
  revert rows'. induction rows as [|r rows IH]; intros rows';
    cbn [update_conflict]; [discriminate|].
  destruct (has_key (e_canonical_key ex) r) eqn:Hk.
  - intros H. injection H as <-.
    assert (Hk' : has_key (e_canonical_key ex) (do_update r ex) = true)
      by exact Hk.
    rewrite !others_cons, Hk, Hk'. repeat split.
  - destruct (update_conflict ex rows) as [rest|]; [|discriminate].
    intros H. injection H as <-.
    destruct (IH rest eq_refl) as (Ho & Hm & Hl).
    rewrite !others_cons, Hk, Ho. cbn [map List.length].
    rewrite Hm, Hl. repeat split.
Qed.

Lemma update_conflict_none_absent (ex : excluded) (rows : table) :
  update_conflict ex rows = None ->
  rows_with_key (e_canonical_key ex) rows = [].
Proof.
  unfold rows_with_key.
  induction rows as [|r rows IH]; simpl; [reflexivity|].
  destruct (has_key (e_canonical_key ex) r); [discriminate|].
  destruct (update_conflict ex rows); [discriminate|].
  intros _. apply IH. reflexivity.
Qed.

Lemma others_all (k : string) (rows : table) :
  rows_with_key k rows = [] -> others k rows = rows.
Proof.
  unfold rows_with_key, others.
  induction rows as [|r rows IH]; simpl; [reflexivity|].
  destruct (has_key k r); simpl; [discriminate|].
  intros H. rewrite (IH H). reflexivity.
Qed.

(** The statement touches one fingerprint only and never removes a row. *)
Lemma insert_or_update_frame (ex : excluded) (rows : table) :
  others (e_canonical_key ex) (insert_or_update ex rows) =
    others (e_canonical_key ex) rows /\
  (List.length rows <= List.length (insert_or_update ex rows)
   <= S (List.length rows))%nat.
Proof.
  unfold insert_or_update.
  destruct (update_conflict ex rows) as [rows'|] eqn:E.
  - destruct (update_conflict_frame _ _ _ E) as (Ho & _ & Hl).
    split; [exact Ho | lia].
  - split.
    + unfold others. rewrite filter_app. simpl.
      assert (Hk : has_key (e_canonical_key ex)
                     (new_row (next_id rows) ex) = true)
        by (apply has_key_true; reflexivity).
      rewrite Hk. simpl. apply app_nil_r.
    + rewrite length_app. simpl. lia.
Qed.

Lemma insert_or_update_unique (ex : excluded) (rows : table) :
  unique_keys rows -> unique_keys (insert_or_update ex rows).
Proof.
  intros Hu. unfold insert_or_update.
  destruct (update_conflict ex rows) as [rows'|] eqn:E.
  - destruct (update_conflict_frame _ _ _ E) as (_ & Hm & _).
    unfold unique_keys. rewrite Hm. exact Hu.
  - destruct (insert_fresh ex rows Hu (update_conflict_none_absent _ _ E))
      as (Heq & Hu' & _).
    rewrite <- Heq. exact Hu'.
Qed.

Lemma wd_row_params_inv (endpoint_label : string) (rec : value)
    (now : string) (p : params) :
  Workday.row_params endpoint_label rec now = Ok (Some p) ->
  exists title org location posted url,
    title <> "" /\
    Workday.job_title rec = Ok title /\
    Workday.job_org endpoint_label rec = Ok org /\
    Workday.job_location rec = Ok location /\
    Workday.job_posted rec = Ok posted /\
    p = {| p_board_token := PStr ("workday:" ++ endpoint_label)%string;
           p_org_name := PStr org;
           p_title := PStr title;
           p_description := PStr "";
           p_location := str_or_none location;
           p_post_url := PStr url;
           p_posted_at := posted;
           p_first_seen_at := PStr now;
           p_last_seen_at := PStr now;
           p_canonical_key := PStr (md5_hexdigest url) |}.
Proof.
  unfold Workday.row_params. intros H.
  step_reader H.
  destruct (a =? "")%string eqn:Ea; [discriminate|].
  do 4 step_reader H.
  destruct (negb (truthy a3)); [discriminate|].
  step_reader H. injection H as <-.
  apply String.eqb_neq in Ea.
  exists a, a0, a1, a2, (Workday._normalize_url a4).
  repeat split; assumption.
Qed.

Lemma gh_row_params_shape (board_token org_name : string) (j : value)
    (now : string) (p : params) :
  Greenhouse.row_params board_token org_name j now = Ok (Some p) ->
  exists url title loc desc ts,
    url <> "" /\
    Greenhouse.job_url j = Ok url /\
    Greenhouse.job_title j = Ok title /\
    Greenhouse.job_location j = Ok loc /\
    Greenhouse.job_description j = Ok desc /\
    Greenhouse.source_timestamp j = Ok ts /\
    p = {| p_board_token := PStr board_token;
           p_org_name := PStr org_name;
           p_title := PStr title;
           p_description := PStr desc;
           p_location := str_or_none loc;
           p_post_url := PStr url;
           p_posted_at := Greenhouse.posted_param ts;
           p_first_seen_at := PStr now;
           p_last_seen_at := PStr now;
           p_canonical_key := PStr (md5_hexdigest url) |}.
Proof.
  unfold Greenhouse.row_params. intros H.
  step_reader H.
  destruct (a =? "")%string eqn:Ea; [discriminate|].
  do 4 step_reader H. injection H as <-.
  apply String.eqb_neq in Ea.
  exists a, a0, a1, a2, a3. repeat split; assumption.
Qed.

Lemma lever_row_params_shape (company : string) (j : value) (now : string)
    (p : params) :
  Lever.row_params company j now = Ok (Some p) ->
  exists url title cats loc desc posted,
    url <> "" /\
    Lever.job_url j = Ok url /\
    Lever.job_title j = Ok title /\
    Lever.job_categories j = Ok cats /\
    Lever.location_of j cats = Ok loc /\
    (posted = PNone \/ exists s, posted = PStr s) /\
    p = {| p_board_token := PStr ("lever:" ++ company)%string;
           p_org_name := Lever.org_of company cats;
           p_title := PStr title;
           p_description := PStr desc;
           p_location := or_none loc;
           p_post_url := PStr url;
           p_posted_at := posted;
           p_first_seen_at := PStr now;
           p_last_seen_at := PStr now;
           p_canonical_key := PStr (md5_hexdigest url) |}.
Proof.
  unfold Lever.row_params. intros H.
  step_reader H.
  destruct (a =? "")%string eqn:Ea; [discriminate|].
  do 7 step_reader H. injection H as <-.
  apply String.eqb_neq in Ea.
  exists a, a0, a1, a2, a6, a5. repeat split; try assumption.
  unfold Lever.posted_param in E5.
  destruct (Lever.as_number a4) as [n|].
  - destruct (utc_isoformat_of_millis n) as [t|e]; cbn [bind] in E5;
      [|discriminate].
    injection E5 as <-. right. exists t. reflexivity.
  - injection E5 as <-. left. reflexivity.
Qed.

(** What every adapter's write comes down to. *)
Lemma adapter_writes_inv (db db' : database) (p : params) (now : string) :
  adapter_writes db p now db' ->
  exists ex k,
    bind_params p = Some (Some ex) /\
    jobs db' = insert_or_update ex (jobs db) /\
    p_canonical_key p = PStr k /\
    e_canonical_key ex = k /\
    e_first_seen_at ex = now /\
    e_last_seen_at ex = now.
Proof.
  intros H.
  assert (Hcore : try_upsert p db = Wrote db' /\
                  exists k, p_canonical_key p = PStr k /\
                            p_first_seen_at p = PStr now /\
                            p_last_seen_at p = PStr now).
  { destruct H as [(bt & org & j & Hp & Hw)
                  | [(company & j & Hp & Hw) | (label & rec & Hp & Hw)]];
      apply run_wrote in Hw; destruct Hw as (p' & Hp' & Hw);
      rewrite Hp in Hp'; injection Hp' as <-; (split; [exact Hw|]).
    - destruct (gh_row_params_shape _ _ _ _ _ Hp)
        as (url & ? & ? & ? & ? & _ & _ & _ & _ & _ & _ & ->).
      exists (md5_hexdigest url). repeat split.
    - destruct (lever_row_params_shape _ _ _ _ Hp)
        as (url & ? & ? & ? & ? & ? & _ & _ & _ & _ & _ & _ & ->).
      exists (md5_hexdigest url). repeat split.
    - destruct (wd_row_params_inv _ _ _ _ Hp)
        as (? & ? & ? & ? & url & _ & _ & _ & _ & _ & ->).
      exists (md5_hexdigest url). repeat split. }
  destruct Hcore as (Hw & k & Hk & Hf & Hl).
  destruct (try_upsert_wrote _ _ _ Hw) as (ex & Hb & _ & Heq).
  destruct (bind_params_fields _ _ Hb)
    as (_ & _ & _ & _ & _ & _ & _ & Hfs & Hls & Hck).
  rewrite Hk in Hck. rewrite Hf in Hfs. rewrite Hl in Hls.
  simpl in Hck, Hfs, Hls.
  injection Hck as Hck. injection Hfs as Hfs. injection Hls as Hls.
  exists ex, k. repeat split; auto.
Qed.

(** X1.  Whichever adapter writes, the rows stored under other
    fingerprints are left exactly as they were and where they were, and
    the table grows by at most one row: ingestion never deletes. *)
Theorem upsert_leaves_other_rows
    (db db' : database) (p : params) (now : string) :
  adapter_writes db p now db' ->
  exists k,
    p_canonical_key p = PStr k /\
    others k (jobs db') = others k (jobs db) /\
    (List.length (jobs db) <= List.length (jobs db')
     <= S (List.length (jobs db)))%nat.
Proof.
  intros H.
  destruct (adapter_writes_inv _ _ _ _ H) as (ex & k & _ & -> & Hk & <- & _).
  exists (e_canonical_key ex). split; [exact Hk|].
  apply insert_or_update_frame.
Qed.

Lemma adapter_unique (db db' : database) (p : params) (now : string) :
  unique_keys (jobs db) -> adapter_writes db p now db' ->
  unique_keys (jobs db').
Proof.
  intros Hu H.
  destruct (adapter_writes_inv _ _ _ _ H) as (ex & k & _ & -> & _).
  apply insert_or_update_unique. exact Hu.
Qed.

(** X2.  The UNIQUE constraint on [canonical_key] survives every write of
    every adapter. *)
Theorem upsert_keeps_unique_keys
    (db db' : database) (p : params) (now : string) :
  unique_keys (jobs db) -> adapter_writes db p now db' ->
  unique_keys (jobs db').
Proof. exact (adapter_unique db db' p now). Qed.

Lemma next_id_above (rows : table) (r : job) :
  In r rows -> id r < next_id rows.
Proof.
  unfold next_id. induction rows as [|x rows IH]; [intros []|].
  cbn [fold_right]. intros [-> | Hin]; [lia|]. specialize (IH Hin). lia.
Qed.

Lemma adapter_conflict_row
    (db db' : database) (p : params) (now : string) (r : job) :
  unique_keys (jobs db) -> In r (jobs db) ->
  p_canonical_key p = PStr (canonical_key r) ->
  adapter_writes db p now db' ->
  exists r',
    rows_with_key (canonical_key r) (jobs db') = [r'] /\
    id r' = id r /\
    board_token r' = board_token r /\
    post_url r' = post_url r /\
    first_seen_at r' = first_seen_at r /\
    last_seen_at r' = now /\
    List.length (jobs db') = List.length (jobs db).
Proof.
  intros Hu Hin Hkey H.
  destruct (adapter_writes_inv _ _ _ _ H)
    as (ex & k & _ & -> & Hk & Hek & _ & Hls).
  rewrite Hkey in Hk. injection Hk as <-.
  destruct (insert_conflict ex (jobs db) r Hu Hin (eq_sym Hek))
    as (Hlen & _ & Hs).
  rewrite Hek in Hs.
  exists (do_update r ex). repeat split; assumption.
Qed.

(** X3.  When the fingerprint of the tuple is already stored, a write by
    any adapter keeps the row's id, source label, URL and [first_seen_at],
    sets [last_seen_at] to the clock reading of the call, and adds no
    row. *)
Theorem conflict_keeps_identity_columns
    (db db' : database) (p : params) (now : string) (r : job) :
  unique_keys (jobs db) -> In r (jobs db) ->
  p_canonical_key p = PStr (canonical_key r) ->
  adapter_writes db p now db' ->
  exists r',
    rows_with_key (canonical_key r) (jobs db') = [r'] /\
    id r' = id r /\
    board_token r' = board_token r /\
    post_url r' = post_url r /\
    first_seen_at r' = first_seen_at r /\
    last_seen_at r' = now /\
    List.length (jobs db') = List.length (jobs db).
Proof. exact (adapter_conflict_row db db' p now r). Qed.

(** After the statement one row carries the tuple's fingerprint. *)
Lemma statement_stores_row (ex : excluded) (rows : table) :
  unique_keys rows ->
  exists r', stored (insert_or_update ex rows) (e_canonical_key ex) r'.
Proof.
  intros Hu.
  destruct (rows_with_key (e_canonical_key ex) rows) as [|old rest] eqn:Eold.
  - destruct (insert_fresh ex rows Hu Eold) as (_ & _ & Hs).
    eexists. exact Hs.
  - assert (Hin : In old (rows_with_key (e_canonical_key ex) rows))
      by (rewrite Eold; left; reflexivity).
    apply filter_In in Hin. destruct Hin as [Hin Hkey].
    apply has_key_true in Hkey.
    destruct (insert_conflict ex rows old Hu Hin Hkey) as (_ & _ & Hs).
    eexists. exact Hs.
Qed.

(** X4.  When the fingerprint of the tuple is not stored yet, a write by
    any adapter appends exactly one row, after all the others: it carries
    the fingerprint, the clock reading of the call in both seen-at
    columns, and an id above every id in use. *)
Theorem first_upsert_appends_row
    (db db' : database) (p : params) (now k : string) :
  p_canonical_key p = PStr k ->
  rows_with_key k (jobs db) = [] ->
  adapter_writes db p now db' ->
  exists r',
    jobs db' = jobs db ++ [r'] /\
    canonical_key r' = k /\
    first_seen_at r' = now /\
    last_seen_at r' = now /\
    forall r, In r (jobs db) -> id r < id r'.
Proof.
  intros Hkey Hnil H.
  destruct (adapter_writes_inv _ _ _ _ H)
    as (ex & k' & _ & -> & Hk & Hek & Hfs & Hls).
  rewrite Hkey in Hk. injection Hk as <-.
  rewrite <- Hek in Hnil.
  pose proof (rows_with_key_nil_absent _ _ Hnil) as Hno.
  exists (new_row (next_id (jobs db)) ex).
  unfold insert_or_update. rewrite (update_conflict_miss ex (jobs db) Hno).
  repeat split; try assumption.
  intros r Hr. simpl. apply next_id_above. exact Hr.
Qed.

(** X5.  Two writes under the same fingerprint, by whichever adapters and
    with whatever other content, end in one row for it: the second write
    adds no row and the row keeps the id, the source label and the
    [first_seen_at] the first write left.  In Greenhouse and Lever the
    fingerprint is the md5 of the record's trimmed URL, so the same URL
    seen through both is one row. *)
Theorem same_fingerprint_is_one_row
    (db db1 db2 : database) (p1 p2 : params) (t1 t2 k : string) :
  (unique_keys (jobs db) ->
   adapter_writes db p1 t1 db1 -> adapter_writes db1 p2 t2 db2 ->
   p_canonical_key p1 = PStr k -> p_canonical_key p2 = PStr k ->
   exists r1 r2,
     rows_with_key k (jobs db1) = [r1] /\
     rows_with_key k (jobs db2) = [r2] /\
     List.length (jobs db2) = List.length (jobs db1) /\
     id r2 = id r1 /\
     board_token r2 = board_token r1 /\
     first_seen_at r2 = first_seen_at r1 /\
     last_seen_at r2 = t2) /\
  (forall board_token org_name j url,
     Greenhouse.row_params board_token org_name j t1 = Ok (Some p1) ->
     Greenhouse.job_url j = Ok url ->
     p_canonical_key p1 = PStr (md5_hexdigest url)) /\
  (forall company j url,
     Lever.row_params company j t2 = Ok (Some p2) ->
     Lever.job_url j = Ok url ->
     p_canonical_key p2 = PStr (md5_hexdigest url)).
Proof.
  split; [|split].
  - intros Hu H1 H2 Hk1 Hk2.
    pose proof (adapter_unique db db1 p1 t1 Hu H1) as Hu1.
    destruct (adapter_writes_inv _ _ _ _ H1)
      as (ex1 & k1 & _ & Heq1 & Hk1' & Hek1 & _).
    rewrite Hk1 in Hk1'. injection Hk1' as <-.
    destruct (statement_stores_row ex1 (jobs db) Hu) as (r1 & Hs1).
    rewrite <- Heq1, Hek1 in Hs1.
    destruct (stored_in _ _ _ Hs1) as [Hin1 Hkey1].
    rewrite <- Hkey1 in Hk2.
    destruct (adapter_conflict_row db1 db2 p2 t2 r1 Hu1 Hin1 Hk2 H2)
      as (r2 & Hs2 & Hid & Hbt & _ & Hfs & Hls & Hlen).
    rewrite Hkey1 in Hs2.
    exists r1, r2. repeat split; assumption.
  - intros board_token org_name j url Hp Hurl.
    destruct (gh_row_params_shape _ _ _ _ _ Hp)
      as (url' & ? & ? & ? & ? & _ & Hurl' & _ & _ & _ & _ & ->).
    rewrite Hurl in Hurl'. injection Hurl' as <-. reflexivity.
  - intros company j url Hp Hurl.
    destruct (lever_row_params_shape _ _ _ _ Hp)
      as (url' & ? & ? & ? & ? & ? & _ & Hurl' & _ & _ & _ & _ & ->).
    rewrite Hurl in Hurl'. injection Hurl' as <-. reflexivity.
Qed.




Lemma location_text_not_empty (s : string) :
  bind_text (str_or_none s) <> Some (Some "").
Proof.
  unfold str_or_none. destruct (s =? "")%string eqn:E; simpl; [discriminate|].
  apply String.eqb_neq in E. intros H. injection H as H. contradiction.
Qed.



(** The row a write leaves under the tuple's fingerprint holds the
    tuple's location. *)
Lemma written_row_location (db db' : database) (p : params) (k : string) :
  unique_keys (jobs db) -> try_upsert p db = Wrote db' ->
  p_canonical_key p = PStr k ->
  exists r',
    stored (jobs db') k r' /\
    bind_text (p_location p) = Some (location r').
Proof.
  intros Hu Hw Hk.
  destruct (try_upsert_wrote _ _ _ Hw) as (ex & Hb & _ & ->).
  destruct (bind_params_fields _ _ Hb)
    as (_ & _ & _ & _ & Hlo & _ & _ & _ & _ & Hck).
  rewrite Hk in Hck. injection Hck as ->.
  destruct (rows_with_key (e_canonical_key ex) (jobs db)) as [|old rest]
    eqn:Eold.
  - destruct (insert_fresh ex (jobs db) Hu Eold) as (_ & _ & Hs).
    exists (new_row (next_id (jobs db)) ex). split; assumption.
  - assert (Hin : In old (rows_with_key (e_canonical_key ex) (jobs db)))
      by (rewrite Eold; left; reflexivity).
    apply filter_In in Hin. destruct Hin as [Hin Hkey].
    apply has_key_true in Hkey.
    destruct (insert_conflict ex (jobs db) old Hu Hin Hkey) as (_ & _ & Hs).
    exists (do_update old ex). split; assumption.
Qed.

(** X7.  A blank location never reaches the table as empty text: the
    Greenhouse and Workday adapters turn it into NULL, so the row they
    write, new or updated, has a location that is NULL or non-empty; the
    Lever tuple likewise never carries the empty string as location. *)
Theorem blank_location_is_stored_as_null
    (db db' : database) (now : string) :
  unique_keys (jobs db) ->
  (forall board_token org_name j,
     Greenhouse.upsert_job db board_token org_name j now = Wrote db' ->
     exists p k r',
       Greenhouse.row_params board_token org_name j now = Ok (Some p) /\
       p_canonical_key p = PStr k /\
       rows_with_key k (jobs db') = [r'] /\
       location r' <> Some "") /\
  (forall endpoint_label rec,
     Workday.upsert_job db endpoint_label rec now = Wrote db' ->
     exists p k r',
       Workday.row_params endpoint_label rec now = Ok (Some p) /\
       p_canonical_key p = PStr k /\
       rows_with_key k (jobs db') = [r'] /\
       location r' <> Some "") /\
  (forall company j p,
     Lever.row_params company j now = Ok (Some p) ->
     p_location p <> PStr "").
Proof.
  intros Hu. split; [|split].
  - intros board_token org_name j Hw.
    apply run_wrote in Hw. destruct Hw as (p & Hp & Hw).
    destruct (gh_row_params_shape _ _ _ _ _ Hp)
      as (url & title & loc & desc & ts & _ & _ & _ & _ & _ & _ & Hshape).
    assert (Hk : p_canonical_key p = PStr (md5_hexdigest url))
      by (rewrite Hshape; reflexivity).
    destruct (written_row_location _ _ _ _ Hu Hw Hk) as (r' & Hs & Hlo).
    exists p, (md5_hexdigest url), r'.
    repeat split; try assumption.
    intros Hempty. rewrite Hempty, Hshape in Hlo.
    exact (location_text_not_empty loc Hlo).
  - intros endpoint_label rec Hw.
    apply run_wrote in Hw. destruct Hw as (p & Hp & Hw).
    destruct (wd_row_params_inv _ _ _ _ Hp)
      as (title & org & location & posted & url & _ & _ & _ & _ & _ & Hshape).
    assert (Hk : p_canonical_key p = PStr (md5_hexdigest url))
      by (rewrite Hshape; reflexivity).
    destruct (written_row_location _ _ _ _ Hu Hw Hk) as (r' & Hs & Hlo).
    exists p, (md5_hexdigest url), r'.
    repeat split; try assumption.
    intros Hempty. rewrite Hempty, Hshape in Hlo.
    exact (location_text_not_empty location Hlo).
  - intros company j p Hp.
    destruct (lever_row_params_shape _ _ _ _ Hp)
      as (url & title & cats & loc & desc & posted & _ & _ & _ & _ & _ & _ & ->).
    cbn [p_location]. unfold or_none, or_.
    destruct (truthy loc) eqn:Ht; [|discriminate].
    intros ->. discriminate.
Qed.


Lemma adapter_writes_try (db db' : database) (p : params) (now : string) :
  adapter_writes db p now db' -> try_upsert p db = Wrote db'.
Proof.
  intros [(bt & org & j & Hp & Hw)
         | [(company & j & Hp & Hw) | (label & rec & Hp & Hw)]];
    apply run_wrote in Hw; destruct Hw as (p' & Hp' & Hw);
    rewrite Hp in Hp'; injection Hp' as <-; exact Hw.
Qed.

(** Both triggers add to the index and take nothing away. *)
Lemma statement_index_grows (ex : excluded) (db db' : database)
    (ix : fts_index) :
  statement ex db = Done db' -> job_fts db = Some ix ->
  exists ix' more,
    job_fts db' = Some ix' /\ postings ix' = postings ix ++ more.
Proof.
  unfold statement. intros H Hix. rewrite Hix in H.
  destruct (find (has_key (e_canonical_key ex)) (jobs db)) as [old|].
  - unfold jobs_au in H.
    destruct (removable (do_update old ex) ix); [|discriminate].
    injection H as <-. eexists. eexists. split; reflexivity.
  - injection H as <-. eexists. eexists. split; reflexivity.
Qed.

Lemma indexed_app (ix ix' : fts_index) (more : list (Z * list string))
    (i : Z) (w : string) :
  postings ix' = postings ix ++ more ->
  Search.indexed ix i w = true -> Search.indexed ix' i w = true.
Proof.
  unfold Search.indexed. intros -> H.
  rewrite existsb_app, H. reflexivity.
Qed.

(** X29.  The index never forgets a word.  After a write by any adapter
    to a database with an index, every word the index held for a row it
    still holds for it: a posting that a query found through the index
    before the write is found by that query afterwards, also when the
    write replaced the text in which the words occurred. *)
Theorem index_keeps_overwritten_words
    (db db' : database) (p : params) (now : string) (ix : fts_index) :
  adapter_writes db p now db' -> job_fts db = Some ix ->
  exists ix',
    job_fts db' = Some ix' /\
    forall words r r',
      id r' = id r ->
      Search.fts_match ix words r = true ->
      Search.fts_match ix' words r' = true.
Proof.
  intros H Hix. apply adapter_writes_try in H.
  destruct (try_upsert_wrote _ _ _ H) as (ex & _ & Hst & _).
  destruct (statement_index_grows ex db db' ix Hst Hix)
    as (ix' & more & Hix' & Hpost).
  exists ix'. split; [exact Hix'|].
  intros words r r' Hid. unfold Search.fts_match. rewrite Hid.
  rewrite !forallb_forall. intros Hall w Hw.
  exact (indexed_app ix ix' more (id r) w Hpost (Hall w Hw)).
Qed.

End TableInvariants.

(* ------------------------------------------------------------------ *)
(** ** request_with_backoff: what is returned, what is slept            *)
(* ------------------------------------------------------------------ *)

Section BackoffReturns.
Import Backoff.



Lemma retry_loop_returned (script : list attempt) :
  forall b slept delays r,
    retry_loop script b slept = (delays, Returned r) ->
    retryable (status_code r) = false /\ In (Reply r) script.
Proof.
  induction script as [|a script IH]; intros b slept delays r; simpl.
  - discriminate.
  - destruct a as [|r0].
    + intros H. destruct (IH _ _ _ _ H) as [Hr Hin]. split; [exact Hr|].
      right; exact Hin.
    + destruct (retryable (status_code r0)) eqn:E.
      * destruct (read_retry_after (retry_after r0));
          try discriminate;
          intros H; destruct (IH _ _ _ _ H) as [Hr Hin];
          (split; [exact Hr | right; exact Hin]).
      * intros H. injection H as _ <-. split; [exact E | left; reflexivity].
Qed.







(** X9.  A reply handed back to the caller never has one of the retried
    statuses, and it is one the transport really gave. *)
Theorem returned_reply_is_not_retryable
    (script : list attempt) (delays : list Z) (r : reply) :
  request_with_backoff script = (delays, Returned r) ->
  retryable (status_code r) = false /\ In (Reply r) script.
Proof. apply retry_loop_returned. Qed.


End BackoffReturns.

(* ------------------------------------------------------------------ *)
(** ** workday.fetch_jobs: the requests and the failures                *)
(* ------------------------------------------------------------------ *)

Section PaginationShape.
Context {R : Runtime}.
Variable server : Type.
Variable send : server -> Workday.request -> result Workday.response * server.

(** One iteration asks for one page: a POST, and possibly the GET with
    the same limit, offset and search text. *)
Lemma fetch_page_requests (st : server) (text : string) (pl off : Z) :
  exists fb,
    fst (fst (Workday.fetch_page server send st text pl off)) =
    pages_trace pl text off [fb].
Proof.
  unfold Workday.fetch_page.
  destruct (send st _) as [[r|e] st1].
  - destruct ((Workday.status_code r =? 400) || (Workday.status_code r =? 405)).
    + destruct (send st1 _) as [x st']. exists true. reflexivity.
    + exists false. reflexivity.
  - exists false. reflexivity.
Qed.

Lemma pages_trace_app (pl : Z) (text : string) (a b : list bool) :
  forall off,
    pages_trace pl text off (a ++ b) =
    pages_trace pl text off a ++
    pages_trace pl text (off + Z.of_nat (List.length a) * pl) b.
Proof.
  induction a as [|fb a IH]; intros off.
  - simpl. rewrite Z.add_0_r. reflexivity.
  - cbn [app pages_trace List.length]. rewrite IH.
    rewrite <- !app_assoc. cbn [app].
    replace (off + pl + Z.of_nat (List.length a) * pl)
      with (off + Z.of_nat (S (List.length a)) * pl) by lia.
    reflexivity.
Qed.

Lemma fetch_loop_trace (n : nat) :
  forall st text pl off acc done,
    exists more,
      fst (Workday.fetch_loop server send n st text pl
             (off + Z.of_nat (List.length done) * pl) acc
             (pages_trace pl text off done)) =
      pages_trace pl text off (done ++ more) /\
      (List.length more <= n)%nat.
Proof.
  induction n as [|n IH]; intros st text pl off acc done.
  - exists []. rewrite app_nil_r. split; [reflexivity | simpl; lia].
  - cbn [Workday.fetch_loop].
    destruct (fetch_page_requests st text pl
                (off + Z.of_nat (List.length done) * pl)) as (fb & Hreqs).
    destruct (Workday.fetch_page server send st text pl
                (off + Z.of_nat (List.length done) * pl))
      as [[reqs st'] page].
    cbn [fst] in Hreqs. subst reqs.
    assert (Htr : pages_trace pl text off done ++
                  pages_trace pl text
                    (off + Z.of_nat (List.length done) * pl) [fb] =
                  pages_trace pl text off (done ++ [fb]))
      by (rewrite pages_trace_app; reflexivity).
    rewrite Htr.
    assert (Hstop : exists more,
               pages_trace pl text off (done ++ [fb]) =
               pages_trace pl text off (done ++ more) /\
               (List.length more <= S n)%nat)
      by (exists [fb]; split; [reflexivity | simpl; lia]).
    destruct page as [posts|e]; [|exact Hstop].
    destruct (negb (truthy posts)); [exact Hstop|].
    destruct (Workday.iterate posts) as [items|e]; [|exact Hstop].
    destruct (Z.of_nat (List.length items) <? pl); [exact Hstop|].
    specialize (IH st' text pl off (acc ++ items) (done ++ [fb])).
    rewrite length_app in IH. cbn [List.length] in IH.
    replace (off + Z.of_nat (List.length done + 1) * pl)
      with (off + Z.of_nat (List.length done) * pl + pl) in IH by lia.
    destruct IH as (more & Heq & Hlen).
    exists (fb :: more). rewrite Heq, <- app_assoc. cbn [app].
    split; [reflexivity | simpl; lia].
Qed.

(** X11.  The requests of [fetch_jobs] are those of consecutive pages:
    the i-th page is asked for with a POST at offset [i * page_limit],
    every request carries the same limit and search text, a GET only ever
    follows the POST of its page and repeats its fields, and there are at
    most [max_pages] pages.  With [max_pages] zero or negative nothing is
    requested and the result is empty. *)
Theorem requests_walk_the_offsets
    (st0 : server) (text : string) (page_limit max_pages : Z) :
  (exists fallbacks,
     fst (Workday.fetch_jobs server send st0 text page_limit max_pages) =
     pages_trace page_limit text 0 fallbacks /\
     (List.length fallbacks <= Z.to_nat max_pages)%nat) /\
  (max_pages <= 0 ->
   Workday.fetch_jobs server send st0 text page_limit max_pages = ([], Ok [])).
Proof.
  split.
  - unfold Workday.fetch_jobs.
    destruct (fetch_loop_trace (Z.to_nat max_pages) st0 text page_limit 0
                [] []) as (more & Heq & Hlen).
    exists more. split; [exact Heq | exact Hlen].
  - intros Hle. unfold Workday.fetch_jobs.
    replace (Z.to_nat max_pages) with 0%nat by lia. reflexivity.
Qed.

Lemma fetch_loop_raise (n : nat) (st st' : server) (text : string)
    (pl off : Z) (acc : list value) (tr reqs : list Workday.request)
    (e : exn) :
  read_page send st text pl off = (reqs, st', Raise e) ->
  Workday.fetch_loop server send (S n) st text pl off acc tr =
  (tr ++ reqs, Raise e).
Proof.
  unfold read_page. cbn [Workday.fetch_loop].
  destruct (Workday.fetch_page server send st text pl off)
    as [[reqs0 st0] page].
  intros H. injection H as -> -> Hitems.
  destruct page as [posts|e0]; cbn [bind] in Hitems.
  - unfold page_items in Hitems.
    destruct (negb (truthy posts)); [discriminate|].
    rewrite Hitems. reflexivity.
  - injection Hitems as ->. reflexivity.
Qed.

(** X12.  A page that fails makes the whole fetch fail with that page's
    exception: the records of the pages before it are not returned.  This
    holds at any iteration of the loop, and in particular when a full
    first page is followed by a failing second one. *)
Theorem failing_page_discards_fetched_records
    (st0 : server) (text : string) (page_limit max_pages : Z) :
  (forall n st st' off acc tr reqs e,
     read_page send st text page_limit off = (reqs, st', Raise e) ->
     Workday.fetch_loop server send (S n) st text page_limit off acc tr =
     (tr ++ reqs, Raise e)) /\
  (forall st1 st2 reqs1 reqs2 items1 e,
     2 <= max_pages ->
     read_page send st0 text page_limit 0 = (reqs1, st1, Ok items1) ->
     items1 <> [] ->
     page_limit <= Z.of_nat (List.length items1) ->
     read_page send st1 text page_limit page_limit = (reqs2, st2, Raise e) ->
     Workday.fetch_jobs server send st0 text page_limit max_pages =
     (reqs1 ++ reqs2, Raise e)).
Proof.
  split.
  - intros n st st' off acc tr reqs e H. apply (fetch_loop_raise _ _ _ _ _ _ _ _ _ _ H).
  - intros st1 st2 reqs1 reqs2 items1 e Hmax H1 Hne Hfull H2.
    assert (Hn : exists n, Z.to_nat max_pages = S (S n))
      by (exists (Z.to_nat max_pages - 2)%nat; lia).
    destruct Hn as (n & Hn).
    unfold Workday.fetch_jobs. rewrite Hn.
    rewrite (fetch_loop_step _ _ _ _ _ _ _ _ _ _ _ _ H1).
    apply Z.ltb_ge in Hfull. rewrite Hfull.
    destruct items1 as [|x items1']; [contradiction|].
    cbn [orb app]. rewrite Z.add_0_l.
    apply (fetch_loop_raise _ _ _ _ _ _ _ _ _ _ H2).
Qed.

(** As long as every page comes back full the loop runs to the cap. *)
Lemma fetch_loop_full_pages (text : string) (pl : Z) :
  (forall st off, exists reqs st' items,
      read_page send st text pl off = (reqs, st', Ok items) /\
      Z.of_nat (List.length items) = pl) ->
  0 < pl ->
  forall n st off acc tr,
    exists tr' all,
      Workday.fetch_loop server send n st text pl off acc tr =
        (tr', Ok all) /\
      List.length all = (List.length acc + n * Z.to_nat pl)%nat /\
      Workday.pages_requested tr' = (Workday.pages_requested tr + n)%nat /\
      firstn (List.length acc) all = acc.
Proof.
  intros Hfull Hpos.
  induction n as [|n IH]; intros st off acc tr.
  - exists tr, acc. cbn [Workday.fetch_loop]. repeat split; try lia.
    apply firstn_all.
  - destruct (Hfull st off) as (reqs & st' & items & Hpage & Hlen).
    rewrite (fetch_loop_step _ _ _ _ _ _ _ _ _ _ _ _ Hpage).
    assert (Hf : (Z.of_nat (List.length items) <? pl) = false)
      by (apply Z.ltb_ge; lia).
    rewrite Hf.
    destruct items as [|x items']; [simpl in Hlen; lia|].
    cbn [orb].
    destruct (IH st' (off + pl) (acc ++ x :: items') (tr ++ reqs))
      as (tr' & all & Heq & Hall & Hpages & Hprefix).
    exists tr', all. split; [exact Heq|].
    assert (Hone : Workday.pages_requested reqs = 1%nat).
    { pose proof (fetch_page_one_post server send st text pl off) as P.
      unfold read_page in Hpage.
      destruct (Workday.fetch_page server send st text pl off)
        as [[ra sa] pa].
      injection Hpage as <- _ _. exact P. }
    rewrite pages_requested_app, Hone in Hpages.
    rewrite length_app in Hall, Hprefix.
    split; [|split].
    + rewrite Hall. lia.
    + lia.
    + assert (Hcut : firstn (List.length acc) all =
                     firstn (List.length acc)
                       (firstn (List.length acc + List.length (x :: items'))
                          all))
        by (rewrite firstn_firstn; f_equal; lia).
      rewrite Hcut, Hprefix.
      rewrite firstn_app, Nat.sub_diag, firstn_all. cbn [firstn].
      apply app_nil_r.
Qed.

End PaginationShape.

(* ------------------------------------------------------------------ *)
(** ** normalizer.py: classification and location splitting             *)
(* ------------------------------------------------------------------ *)

Section NormalizerProperties.
Import Normalizer.

Lemma first_match_label (pats : list (regex * string)) (t v : string) :
  first_match pats t = Some v -> In v (map snd pats).
Proof.
  induction pats as [|[pat val] pats IH]; simpl; [discriminate|].
  destruct (re_search pat t).
  - intros H. injection H as <-. left; reflexivity.
  - intros H. right. apply IH. exact H.
Qed.

(** X13.  The classifiers only ever answer with the labels of their
    tables: a role level is one of intern, junior, senior, principal,
    manager, director; a work type one of onsite, hybrid, remote; an
    employment type one of full-time, part-time, contract. *)
Theorem classifiers_answer_with_table_labels
    (text : string) (location_text : option string) :
  (forall l, infer_level text = Some l ->
     In l ["intern"; "junior"; "senior"; "principal"; "manager"; "director"]) /\
  (forall w, infer_work_type text location_text = Some w ->
     In w ["onsite"; "hybrid"; "remote"]) /\
  (forall e, infer_employment text = Some e ->
     In e ["full-time"; "part-time"; "contract"]).
Proof.
  split; [|split].
  - intros l H. apply first_match_label in H. exact H.
  - intros w. unfold infer_work_type.
    destruct (first_match WORK_TYPE_PATTERNS _) as [val|] eqn:E.
    + intros H. injection H as <-. apply first_match_label in E. exact E.
    + destruct location_text as [l|]; [|discriminate].
      destruct (negb (l =? "")%string && contains "remote" (lower l));
        [|discriminate].
      intros H. injection H as <-. right; right; left; reflexivity.
  - intros e H. apply first_match_label in H. exact H.
Qed.

Lemma eat_prefix (l : string) :
  forall prev s x, eat l prev s = Some x -> String.prefix l s = true.
Proof.
  induction l as [|c l IH]; intros prev s x; simpl.
  - intros _. destruct s; reflexivity.
  - destruct s as [|d s']; [discriminate|].
    destruct (Ascii.eqb c d) eqn:E; [|discriminate].
    apply Ascii.eqb_eq in E. subst d.
    intros H. cbn [String.prefix].
    destruct (ascii_dec c c) as [_|Hne]; [|contradiction].
    exact (IH _ _ _ H).
Qed.

Lemma word_search_contains (w s : string) :
  forall prev,
    search_from (Cat WordBoundary (Cat (Lit w) WordBoundary)) prev s = true ->
    contains w s = true.
Proof.
  induction s as [|c s IH]; intros prev; cbn [search_from contains].
  - rewrite orb_false_r. cbn [matches].
    destruct (at_boundary prev ""); [|discriminate].
    destruct (eat w prev "") as [[p' s']|] eqn:E; [|discriminate].
    intros _. rewrite (eat_prefix _ _ _ _ E). reflexivity.
  - intros H. apply orb_prop in H. destruct H as [H | H].
    + cbn [matches] in H.
      destruct (at_boundary prev (String c s)); [|discriminate].
      destruct (eat w prev (String c s)) as [[p' s']|] eqn:E; [|discriminate].
      rewrite (eat_prefix _ _ _ _ E). reflexivity.
    + rewrite (IH _ H). apply orb_true_r.
Qed.

(** X14.  The two readings of the location agree: whenever
    [split_location] raises the remote flag, [infer_work_type] on the same
    location gives a work type, whatever the description says. *)
Theorem remote_flag_comes_with_work_type
    (title desc : string) (location : option string) :
  remote (normalize_fields title desc location) <> None ->
  work_type (normalize_fields title desc location) <> None.
Proof.
  unfold normalize_fields.
  destruct (split_location location) as [[[c s] k] r] eqn:E.
  cbn [remote work_type]. intros Hr.
  unfold split_location in E.
  destruct location as [l|]; [|injection E as _ _ _ <-; contradiction].
  destruct l as [|a l']; [injection E as _ _ _ <-; contradiction|].
  injection E as _ _ _ Er.
  match type of Er with
  | (if ?b then _ else _) = _ => destruct b eqn:Es
  end; [|subst r; contradiction].
  unfold infer_work_type.
  destruct (first_match WORK_TYPE_PATTERNS _); [discriminate|].
  unfold re_search in Es. apply word_search_contains in Es.
  cbn [lower]. rewrite Es. cbn [String.eqb negb andb]. discriminate.
Qed.

End NormalizerProperties.

Section StripFacts.

Lemma rstrip_idempotent (s : string) : rstrip (rstrip s) = rstrip s.
Proof.
  induction s as [|c s IH]; [reflexivity|].
  cbn [rstrip].
  destruct (is_space c && (rstrip s =? "")%string) eqn:E; [reflexivity|].
  cbn [rstrip]. rewrite IH, E. reflexivity.
Qed.

Lemma lstrip_head (s : string) :
  lstrip s = "" \/
  exists c t, lstrip s = String c t /\ is_space c = false.
Proof.
  induction s as [|c s IH]; [left; reflexivity|].
  cbn [lstrip]. destruct (is_space c) eqn:E; [exact IH|].
  right. exists c, s. split; [reflexivity | exact E].
Qed.

(** [strip] leaves a stripped string alone. *)
Lemma strip_idempotent (s : string) : strip (strip s) = strip s.
Proof.
  unfold strip.
  destruct (lstrip_head s) as [-> | (c & t & -> & Hc)]; [reflexivity|].
  cbn [rstrip]. rewrite Hc. cbn [andb lstrip]. rewrite Hc.
  cbn [rstrip]. rewrite Hc. cbn [andb]. rewrite rstrip_idempotent.
  reflexivity.
Qed.

Lemma all_chars_app (P : ascii -> bool) (a b : string) :
  Search.all_chars P (a ++ b)%string =
  Search.all_chars P a && Search.all_chars P b.
Proof.
  induction a as [|c a IH]; [reflexivity|].
  simpl. rewrite IH. apply andb_assoc.
Qed.

Lemma lstrip_all (P : ascii -> bool) (s : string) :
  Search.all_chars P s = true -> Search.all_chars P (lstrip s) = true.
Proof.
  induction s as [|c s IH]; [trivial|].
  cbn [lstrip]. destruct (is_space c); [|trivial].
  simpl. intros H. apply andb_prop in H. apply IH, H.
Qed.

Lemma rstrip_all (P : ascii -> bool) (s : string) :
  Search.all_chars P s = true -> Search.all_chars P (rstrip s) = true.
Proof.
  induction s as [|c s IH]; [trivial|].
  cbn [rstrip]. intros H. simpl in H. apply andb_prop in H.
  destruct H as [Hc Hs].
  destruct (is_space c && (rstrip s =? "")%string); [reflexivity|].
  simpl. rewrite Hc, (IH Hs). reflexivity.
Qed.

Lemma strip_all (P : ascii -> bool) (s : string) :
  Search.all_chars P s = true -> Search.all_chars P (strip s) = true.
Proof. intros H. unfold strip. apply rstrip_all, lstrip_all, H. Qed.

End StripFacts.

Section LocationParts.
Import Normalizer.

Lemma split_on_keeps (P : ascii -> bool) (seps : string) (s : string) :
  forall cur,
    Search.all_chars P cur = true -> Search.all_chars P s = true ->
    Forall (fun x => Search.all_chars P x = true) (split_on seps cur s).
Proof.
  induction s as [|c s IH]; intros cur Hcur Hs; cbn [split_on].
  - constructor; [exact Hcur | constructor].
  - simpl in Hs. apply andb_prop in Hs. destruct Hs as [Hc Hs].
    destruct (mem_char c seps).
    + constructor; [exact Hcur|]. apply IH; [reflexivity | exact Hs].
    + apply IH; [|exact Hs].
      rewrite all_chars_app, Hcur. simpl. rewrite Hc. reflexivity.
Qed.

Lemma split_on_free (seps : string) (s : string) :
  forall cur,
    Search.all_chars (outside seps) cur = true ->
    Forall (fun x => Search.all_chars (outside seps) x = true)
      (split_on seps cur s).
Proof.
  induction s as [|c s IH]; intros cur Hcur; cbn [split_on].
  - constructor; [exact Hcur | constructor].
  - destruct (mem_char c seps) eqn:E.
    + constructor; [exact Hcur|]. apply IH. reflexivity.
    + apply IH. rewrite all_chars_app, Hcur. simpl.
      unfold outside. rewrite E. reflexivity.
Qed.

Lemma mem_char_app (c : ascii) (a b : string) :
  mem_char c (a ++ b)%string = mem_char c a || mem_char c b.
Proof.
  induction a as [|d a IH]; [reflexivity|].
  simpl. rewrite IH. apply orb_assoc.
Qed.

Lemma all_chars_both (a b : string) (s : string) :
  Search.all_chars (outside a) s = true ->
  Search.all_chars (outside b) s = true ->
  Search.all_chars (outside (a ++ b)) s = true.
Proof.
  induction s as [|c s IH]; [trivial|].
  simpl. intros Ha Hb.
  apply andb_prop in Ha. apply andb_prop in Hb.
  destruct Ha as [Ha Hsa], Hb as [Hb Hsb].
  rewrite (IH Hsa Hsb). unfold outside in *. rewrite mem_char_app.
  apply negb_true_iff in Ha. apply negb_true_iff in Hb.
  rewrite Ha, Hb. reflexivity.
Qed.

Lemma split_on_nonempty (seps cur s : string) :
  exists p ps, split_on seps cur s = p :: ps.
Proof.
  revert cur. induction s as [|c s IH]; intros cur; cbn [split_on].
  - eexists _, _. reflexivity.
  - destruct (mem_char c seps); [eexists _, _; reflexivity | apply IH].
Qed.

(** Every fragment the splitter can hand out. *)
Lemma location_fragments (l : string) (f : string) :
  let parts := map strip (split_on ";/|-" "" l) in
  let first := match parts with p :: _ => p | [] => "" end in
  In f (map strip (split_on "," "" first)) ->
  strip f = f /\
  Search.all_chars (outside ";/|-,") f = true.
Proof.
  intros parts first Hin.
  assert (Hfirst : Search.all_chars (outside ";/|-") first = true).
  { unfold first, parts.
    destruct (split_on_nonempty ";/|-" "" l) as (p & ps & E).
    pose proof (split_on_free ";/|-" l "" eq_refl) as Hall.
    rewrite E in Hall |- *. cbn [map].
    inversion Hall; subst. apply strip_all. assumption. }
  apply in_map_iff in Hin. destruct Hin as (x & <- & Hx).
  split; [apply strip_idempotent|].
  change ";/|-," with (";/|-" ++ ",")%string.
  apply all_chars_both; apply strip_all.
  - pose proof (split_on_keeps (outside ";/|-") "," first "" eq_refl Hfirst)
      as Hall.
    rewrite Forall_forall in Hall. apply Hall, Hx.
  - pose proof (split_on_free "," first "" eq_refl) as Hall.
    rewrite Forall_forall in Hall. apply Hall, Hx.
Qed.

(** X15.  Whatever the location text, the city, state and country that
    [split_location] returns are never empty strings, carry no leading or
    trailing blank, and contain none of the separators [;], [/], [|], [-]
    and [,]. *)
Theorem location_parts_are_clean (loc : option string) (part : string) :
  let '(city, state, country, _) := split_location loc in
  In (Some part) [city; state; country] ->
  part <> "" /\ strip part = part /\
  Search.all_chars (outside ";/|-,") part = true.
Proof.
  unfold split_location.
  destruct loc as [l|]; [|intros [H|[H|[H|[]]]]; discriminate].
  destruct l as [|a l']; [intros [H|[H|[H|[]]]]; discriminate|].
  set (l := String a l').
  assert (Hfrag : forall i,
             frag (map strip
                     (split_on "," ""
                        match map strip (split_on ";/|-" "" l) with
                        | p :: _ => p
                        | [] => ""
                        end)) i = Some part ->
             part <> "" /\ strip part = part /\
             Search.all_chars (outside ";/|-,") part = true).
  { intros i. unfold frag.
    destruct (nth_error _ i) as [f|] eqn:E; [|discriminate].
    unfold none_if_empty. destruct (f =? "")%string eqn:Ef; [discriminate|].
    intros H. injection H as <-.
    apply String.eqb_neq in Ef. split; [exact Ef|].
    apply nth_error_In in E. exact (location_fragments l f E). }
  intros [H|[H|[H|[]]]]; eapply Hfrag; exact H.
Qed.

End LocationParts.

(* ------------------------------------------------------------------ *)
(** ** The text the adapters bind                                       *)
(* ------------------------------------------------------------------ *)

Section BoundText.
Context {R : Runtime}.

Lemma m_strip_trimmed (v : value) (x : string) :
  m_strip v = Ok x -> strip x = x.
Proof.
  destruct v; simpl; try discriminate.
  intros H. injection H as <-. apply strip_idempotent.
Qed.

Lemma split_ws_from_words (s : string) :
  forall cur,
    Search.all_chars (fun c => negb (is_space c)) cur = true ->
    Forall (fun w => w <> "" /\
                     Search.all_chars (fun c => negb (is_space c)) w = true)
      (split_ws_from cur s).
Proof.
  induction s as [|c s IH]; intros cur Hcur; cbn [split_ws_from].
  - destruct (cur =? "")%string eqn:E; [constructor|].
    apply String.eqb_neq in E. repeat constructor; assumption.
  - destruct (is_space c) eqn:Ec.
    + destruct (cur =? "")%string eqn:E; [apply IH; reflexivity|].
      apply String.eqb_neq in E.
      constructor; [split; assumption | apply IH; reflexivity].
    + apply IH. rewrite all_chars_app, Hcur. simpl. rewrite Ec. reflexivity.
Qed.

Lemma split_ws_from_word (w : string) :
  forall cur rest,
    Search.all_chars (fun c => negb (is_space c)) w = true ->
    split_ws_from cur (w ++ rest)%string =
    split_ws_from (cur ++ w)%string rest.
Proof.
  induction w as [|c w IH]; intros cur rest Hw.
  - simpl. replace (cur ++ "")%string with cur; [reflexivity|].
    clear. induction cur as [|d cur IHc]; [reflexivity|].
    simpl. rewrite <- IHc. reflexivity.
  - simpl in Hw. apply andb_prop in Hw. destruct Hw as [Hc Hw].
    apply negb_true_iff in Hc.
    cbn [String.append split_ws_from]. rewrite Hc.
    rewrite (IH _ _ Hw).
    replace ((cur ++ String c "") ++ w)%string with (cur ++ String c w)%string;
      [reflexivity|].
    clear. induction cur as [|d cur IHc]; [reflexivity|].
    simpl. rewrite IHc. reflexivity.
Qed.

(** Joining words with single blanks and splitting again gives the words
    back. *)
Lemma split_ws_join (ws : list string) :
  Forall (fun w => w <> "" /\
                   Search.all_chars (fun c => negb (is_space c)) w = true) ws ->
  split_ws (join " " ws) = ws.
Proof.
  unfold split_ws, join.
  induction ws as [|w ws IH]; intros Hall; [reflexivity|].
  inversion Hall as [|? ? [Hne Hw] Hrest]; subst.
  destruct ws as [|w' ws'].
  - cbn [String.concat].
    replace w with (w ++ "")%string at 1
      by (clear; induction w as [|c w IHw]; [reflexivity|];
          simpl; rewrite IHw; reflexivity).
    rewrite (split_ws_from_word w "" "" Hw). cbn [String.append split_ws_from].
    apply String.eqb_neq in Hne. rewrite Hne. reflexivity.
  - assert (Hc : String.concat " " (w :: w' :: ws') =
                 (w ++ " " ++ String.concat " " (w' :: ws'))%string)
      by reflexivity.
    rewrite Hc, (split_ws_from_word w "" _ Hw).
    cbn [String.append]. cbn [split_ws_from].
    change (is_space " "%char) with true. cbv iota.
    apply String.eqb_neq in Hne. rewrite Hne.
    rewrite (IH Hrest). reflexivity.
Qed.

(** X16.  The title Greenhouse binds is in normal form: its words are
    separated by single blanks with nothing before or after, so collapsing
    it again changes nothing, and it contains no whitespace other than
    those blanks. *)
Theorem greenhouse_title_is_collapsed (j : value) (title : string) :
  Greenhouse.job_title j = Ok title ->
  join " " (split_ws title) = title /\
  Greenhouse.job_title (PDict [("title", PStr title)]) = Ok title /\
  Forall (fun w => w <> "" /\
                   Search.all_chars (fun c => negb (is_space c)) w = true)
    (split_ws title).
Proof.
  unfold Greenhouse.job_title. intros H.
  step_reader H. step_reader H. injection H as <-.
  destruct (or_ a (PStr "")) as [| | |s| |]; try discriminate.
  simpl in E0. injection E0 as <-.
  pose proof (split_ws_from_words s "" eq_refl) as Hwords.
  fold (split_ws s) in Hwords.
  assert (Hnf : split_ws (join " " (split_ws s)) = split_ws s)
    by (apply split_ws_join; exact Hwords).
  split; [rewrite Hnf; reflexivity|]. split.
  - unfold get, lookup_value, lookup. cbn [String.eqb Ascii.eqb Bool.eqb].
    cbn [bind]. unfold or_.
    destruct (truthy (PStr (join " " (split_ws s)))) eqn:Ht.
    + cbn [m_split bind]. rewrite Hnf. reflexivity.
    + simpl in Ht. apply negb_false_iff, String.eqb_eq in Ht.
      rewrite Ht. reflexivity.
  - rewrite Hnf. exact Hwords.
Qed.

(** X17.  The other texts the adapters bind are trimmed: the URL, the
    description and the location of Greenhouse, the URL, the title and the
    description of Lever, the title and the location of Workday have no
    leading or trailing whitespace; the URL of Greenhouse and Lever and
    the title of Workday are moreover never empty. *)
Theorem bound_text_is_trimmed (now : string) (p : params) :
  (forall board_token org_name j,
     Greenhouse.row_params board_token org_name j now = Ok (Some p) ->
     exists url desc loc,
       p_post_url p = PStr url /\ p_description p = PStr desc /\
       p_location p = str_or_none loc /\
       url <> "" /\ strip url = url /\ strip desc = desc /\
       strip loc = loc) /\
  (forall company j,
     Lever.row_params company j now = Ok (Some p) ->
     exists url title desc,
       p_post_url p = PStr url /\ p_title p = PStr title /\
       p_description p = PStr desc /\
       url <> "" /\ strip url = url /\ strip title = title /\
       strip desc = desc) /\
  (forall endpoint_label rec,
     Workday.row_params endpoint_label rec now = Ok (Some p) ->
     exists title loc,
       p_title p = PStr title /\ p_location p = str_or_none loc /\
       title <> "" /\ strip title = title /\ strip loc = loc).
Proof.
  split; [|split].
  - intros board_token org_name j Hp.
    destruct (gh_row_params_shape _ _ _ _ _ Hp)
      as (url & title & loc & desc & ts & Hne & Hurl & _ & Hloc & Hdesc & _ & ->).
    exists url, desc, loc. repeat split; try assumption.
    + unfold Greenhouse.job_url in Hurl. step_reader Hurl.
      exact (m_strip_trimmed _ _ Hurl).
    + unfold Greenhouse.job_description in Hdesc. step_reader Hdesc.
      exact (m_strip_trimmed _ _ Hdesc).
    + unfold Greenhouse.job_location in Hloc. do 2 step_reader Hloc.
      exact (m_strip_trimmed _ _ Hloc).
  - intros company j Hp.
    unfold Lever.row_params in Hp.
    step_reader Hp.
    destruct (a =? "")%string eqn:Ea; [discriminate|].
    do 7 step_reader Hp. injection Hp as <-.
    apply String.eqb_neq in Ea.
    exists a, a0, a6. repeat split; try assumption.
    + unfold Lever.job_url in E. do 2 step_reader E.
      exact (m_strip_trimmed _ _ E).
    + unfold Lever.job_title in E0. do 2 step_reader E0.
      exact (m_strip_trimmed _ _ E0).
    + exact (m_strip_trimmed _ _ E6).
  - intros endpoint_label rec Hp.
    destruct (wd_row_params_inv _ _ _ _ Hp)
      as (title & org & location & posted & url & Hne & Ht & _ & Hl & _ & ->).
    exists title, location. repeat split; try assumption.
    + unfold Workday.job_title in Ht. step_reader Ht.
      exact (m_strip_trimmed _ _ Ht).
    + unfold Workday.job_location in Hl. do 2 step_reader Hl.
      exact (m_strip_trimmed _ _ Hl).
Qed.

End BoundText.

(* ------------------------------------------------------------------ *)
(** ** search: order of the results, blank and literal queries          *)
(* ------------------------------------------------------------------ *)

Section SearchOrder.
Import Search.

Lemma compare_not_gt_trans (a b c : string) :
  (a ?= b)%string <> Gt -> (b ?= c)%string <> Gt -> (a ?= c)%string <> Gt.
Proof.
  intros Hab Hbc.
  destruct (a ?= b)%string eqn:Eab; [| |contradiction].
  - apply String_as_OT.cmp_eq in Eab. subst b. exact Hbc.
  - destruct (b ?= c)%string eqn:Ebc; [| |contradiction].
    + apply String_as_OT.cmp_eq in Ebc. subst c. rewrite Eab. discriminate.
    + apply String_as_OT.cmp_lt in Eab. apply String_as_OT.cmp_lt in Ebc.
      pose proof (String_as_OT.lt_trans _ _ _ Eab Ebc) as Hac.
      apply String_as_OT.cmp_lt in Hac. unfold String_as_OT.cmp in Hac.
      rewrite Hac. discriminate.
Qed.

Lemma posted_order_trans (a b c : option string) :
  posted_desc_nulls_last a b <> Gt -> posted_desc_nulls_last b c <> Gt ->
  posted_desc_nulls_last a c <> Gt.
Proof.
  unfold posted_desc_nulls_last, text_desc.
  destruct a as [x|], b as [y|], c as [z|]; try congruence.
  intros Hxy Hyz. exact (compare_not_gt_trans z y x Hyz Hxy).
Qed.

Lemma not_after_posted (a b : job) :
  not_after a b = true ->
  posted_desc_nulls_last (posted_at a) (posted_at b) <> Gt.
Proof.
  unfold not_after, row_order.
  destruct (posted_desc_nulls_last (posted_at a) (posted_at b));
    [discriminate | discriminate | intros H; discriminate H].
Qed.

Lemma sorted_rows_posted (l : table) :
  sorted_rows l ->
  forall i j a b,
    (i < j)%nat -> nth_error l i = Some a -> nth_error l j = Some b ->
    posted_desc_nulls_last (posted_at a) (posted_at b) <> Gt.
Proof.
  unfold sorted_rows.
  induction l as [|x l IH]; intros Hs i j a b Hij Hi Hj.
  - destruct i; discriminate.
  - inversion Hs as [|? ? Hs' Hhd]; subst.
    assert (Hfirst : forall k c, nth_error l k = Some c ->
               posted_desc_nulls_last (posted_at x) (posted_at c) <> Gt).
    { clear Hi Hj Hij i j a b. intros k.
      induction k as [|k IHk]; intros c Hk.
      - destruct l as [|y l']; [discriminate|]. injection Hk as <-.
        inversion Hhd; subst. apply not_after_posted. assumption.
      - destruct l as [|y l']; [discriminate|].
        assert (Hy : posted_desc_nulls_last (posted_at x) (posted_at y) <> Gt)
          by (inversion Hhd; subst; apply not_after_posted; assumption).
        apply (posted_order_trans _ (posted_at y) _ Hy).
        destruct k as [|k'].
        + simpl in Hk. destruct l' as [|z l'']; [discriminate|].
          injection Hk as <-. inversion Hs' as [|? ? _ Hhd']; subst.
          inversion Hhd'; subst. apply not_after_posted. assumption.
        + apply (IH Hs' 0%nat (S (S k')) y c); [lia | reflexivity | exact Hk]. }
    destruct i as [|i]; destruct j as [|j]; try lia.
    + simpl in Hi. injection Hi as <-. simpl in Hj. exact (Hfirst j b Hj).
    + simpl in Hi, Hj. apply (IH Hs' i j a b); [lia | exact Hi | exact Hj].
Qed.

Lemma projected_newest_first (l : table) :
  sorted_rows l -> newest_first (map project l).
Proof.
  intros Hs i j vi vj Hij Hi Hj.
  rewrite nth_error_map in Hi, Hj.
  destruct (nth_error l i) as [a|] eqn:Ea; [|discriminate].
  destruct (nth_error l j) as [b|] eqn:Eb; [|discriminate].
  simpl in Hi, Hj. injection Hi as <-. injection Hj as <-.
  exact (sorted_rows_posted l Hs i j a b Hij Ea Eb).
Qed.

(** X18.  Whatever the query, the path and the filter, the results of
    [search_jobs] and of the single-file [search] come newest first: no
    view is ahead of one with a later [posted_at], and views without
    [posted_at] come after all the dated ones. *)
Theorem results_come_newest_first
    (db : database) (q : string) (loc : option string)
    (limit : Z) (views : list view) :
  (search_jobs db q loc limit = Some views -> newest_first views) /\
  (Monolith.search db q loc limit = Some views -> newest_first views).
Proof.
  assert (Hsel : forall w,
             newest_first (map project (select w loc limit (jobs db)))).
  { intros w. apply projected_newest_first.
    apply (select_spec w loc limit (jobs db)). }
  split; unfold search_jobs, Monolith.search, fts_path, like_path,
    Monolith.like_path;
    destruct (job_fts db) as [ix|];
    try destruct (negb (strip q =? "")%string);
    try destruct (fts_query q);
    intros H; try discriminate; injection H as <-; apply Hsel.
Qed.

Lemma like_percent_step (pat s : string) :
  like (String "%"%char pat) s =
  like pat s ||
  match s with
  | EmptyString => false
  | String _ s' => like (String "%"%char pat) s'
  end.
Proof. destruct s; reflexivity. Qed.

Lemma like_percent_anything (s : string) : like "%" s = true.
Proof.
  induction s as [|c s IH]; [reflexivity|].
  rewrite like_percent_step, IH. apply orb_true_r.
Qed.

Lemma like_anything (q s : string) :
  q = "" \/ q = "%" -> like (like_pattern q) s = true.
Proof.
  intros [-> | ->]; unfold like_pattern; cbn [String.append].
  - rewrite like_percent_step, like_percent_anything. reflexivity.
  - rewrite like_percent_step, like_percent_step, like_percent_anything.
    reflexivity.
Qed.

Lemma select_everything (w : job -> bool) (loc : option string) (limit : Z)
    (rows : table) :
  (forall r, w r = true) ->
  select w loc limit rows =
  limit_rows limit (order_rows (filter (location_filter loc) rows)).
Proof.
  intros Hw. unfold select. do 2 f_equal.
  apply filter_ext. intros r. rewrite Hw. reflexivity.
Qed.

(** X19.  An empty query lists every posting that passes the location
    filter, in order and up to the limit, whether or not the index is
    available.  LIKE wildcards in the query are not escaped: on the LIKE
    path, taken when the database has no index, the query [%] does the
    same. *)
Theorem empty_query_lists_everything
    (db : database) (loc : option string) (limit : Z) :
  let everything :=
    Some (map project
            (limit_rows limit
               (order_rows (filter (location_filter loc) (jobs db))))) in
  search_jobs db "" loc limit = everything /\
  Monolith.search db "" loc limit = everything /\
  search_jobs (unindexed (jobs db)) "%" loc limit = everything /\
  Monolith.search (unindexed (jobs db)) "%" loc limit = everything.
Proof.
  assert (H1 : forall q, q = "" \/ q = "%" ->
                 forall r, like_where q r = true).
  { intros q Hq r. unfold like_where. rewrite (like_anything q _ Hq).
    reflexivity. }
  assert (H2 : forall q, q = "" \/ q = "%" ->
                 forall r, Monolith.like_where q r = true).
  { intros q Hq r. unfold Monolith.like_where. rewrite (like_anything q _ Hq).
    reflexivity. }
  cbv zeta.
  unfold search_jobs, Monolith.search, like_path, Monolith.like_path,
    unindexed.
  change (strip "") with "". cbn [String.eqb negb jobs job_fts].
  rewrite !(select_everything _ loc limit (jobs db) (H1 "" (or_introl eq_refl))).
  rewrite !(select_everything _ loc limit (jobs db) (H2 "" (or_introl eq_refl))).
  rewrite !(select_everything _ loc limit (jobs db) (H1 "%" (or_intror eq_refl))).
  rewrite !(select_everything _ loc limit (jobs db) (H2 "%" (or_intror eq_refl))).
  destruct (job_fts db); repeat split.
Qed.





End SearchOrder.

Section PaginationCap.
Context {R : Runtime}.
Variable server : Type.
Variable send : server -> Workday.request -> result Workday.response * server.

(** X21.  Against a source that answers every request with a full page,
    [fetch_jobs] stops at the cap without any error: it requests exactly
    [max_pages] pages and returns [max_pages * page_limit] records, so a
    longer listing is silently cut there. *)
Theorem endless_source_is_cut_at_the_cap
    (st0 : server) (text : string) (page_limit max_pages : Z) :
  (forall st off, exists reqs st' items,
      read_page send st text page_limit off = (reqs, st', Ok items) /\
      Z.of_nat (List.length items) = page_limit) ->
  0 < page_limit -> 0 <= max_pages ->
  exists trace all,
    Workday.fetch_jobs server send st0 text page_limit max_pages =
      (trace, Ok all) /\
    Workday.pages_requested trace = Z.to_nat max_pages /\
    Z.of_nat (List.length all) = max_pages * page_limit.
Proof.
  intros Hfull Hpos Hmax. unfold Workday.fetch_jobs.
  destruct (fetch_loop_full_pages server send text page_limit Hfull Hpos
              (Z.to_nat max_pages) st0 0 [] [])
    as (trace & all & Heq & Hlen & Hpages & _).
  exists trace, all. split; [exact Heq|]. split; [exact Hpages|].
  rewrite Hlen. cbn [List.length]. rewrite Nat.add_0_l, Nat2Z.inj_mul.
  rewrite !Z2Nat.id by lia. reflexivity.
Qed.

End PaginationCap.

(* ------------------------------------------------------------------ *)
(** ** fetch.py: one source after the other                             *)
(* ------------------------------------------------------------------ *)

Section FetchFacts.
Context {R : Runtime}.
Variable clock : nat -> string.

Lemma assoc_set_same {A : Type} (l : list (string * A)) (k : string) (v : A) :
  Fetch.assoc (Fetch.assoc_set l k v) k = Some v.
Proof.
  induction l as [|[k' v'] l IH]; simpl.
  - rewrite String.eqb_refl. reflexivity.
  - destruct (k' =? k)%string eqn:E; simpl.
    + rewrite String.eqb_refl. reflexivity.
    + rewrite E. exact IH.
Qed.

Lemma assoc_set_other {A : Type} (l : list (string * A)) (k k' : string)
    (v : A) :
  k' <> k -> Fetch.assoc (Fetch.assoc_set l k v) k' = Fetch.assoc l k'.
Proof.
  intros Hne. induction l as [|[k0 v0] l IH]; simpl.
  - assert (E : (k =? k')%string = false)
      by (apply String.eqb_neq; congruence).
    rewrite E. reflexivity.
  - destruct (k0 =? k)%string eqn:E; simpl.
    + apply String.eqb_eq in E. subst k0.
      assert (E' : (k =? k')%string = false)
        by (apply String.eqb_neq; congruence).
      rewrite E'. reflexivity.
    + destruct (k0 =? k')%string; [reflexivity | exact IH].
Qed.

Lemma assoc_set_keeps {A : Type} (l : list (string * A)) (k k' : string)
    (v d : A) :
  Fetch.assoc l k' = Some d ->
  exists d', Fetch.assoc (Fetch.assoc_set l k v) k' = Some d'.
Proof.
  intros H. destruct (String.eqb_spec k' k) as [-> | Hne].
  - exists v. apply assoc_set_same.
  - exists d. rewrite assoc_set_other by exact Hne. exact H.
Qed.

Lemma upsert_each_app (upsert : database -> value -> string -> outcome)
    (a b : list value) :
  forall rows tick,
    Fetch.upsert_each clock upsert rows (a ++ b) tick =
    match Fetch.upsert_each clock upsert rows a tick with
    | (Ok rows', tick') => Fetch.upsert_each clock upsert rows' b tick'
    | (Raise e, tick') => (Raise e, tick')
    end.
Proof.
  induction a as [|j a IH]; intros rows tick; [reflexivity|].
  cbn [app Fetch.upsert_each].
  destruct (upsert rows j (clock tick)); try apply IH. reflexivity.
Qed.

Lemma committing_app (upsert : database -> value -> string -> outcome)
    (a b : list value) :
  forall rows rows' tick tick',
    Fetch.upsert_each clock upsert rows a tick = (Ok rows', tick') ->
    Fetch.upsert_each_committing clock upsert rows (a ++ b) tick =
    Fetch.upsert_each_committing clock upsert rows' b tick'.
Proof.
  induction a as [|j a IH]; intros rows rows' tick tick';
    cbn [app Fetch.upsert_each Fetch.upsert_each_committing].
  - intros H. injection H as <- <-. reflexivity.
  - destruct (upsert rows j (clock tick)); try apply IH. discriminate.
Qed.

(** X22.  One record that raises undoes its whole batch in fetch.py: the
    records handled before it under the same [with conn] are rolled back
    with it.  The loop of the single-file variant, which commits record by
    record, keeps them.  Any record that is not a JSON object is such a
    record, for every adapter. *)
Theorem raising_record_rolls_back_the_batch
    (upsert : database -> value -> string -> outcome)
    (db db_before : database) (before after : list value) (bad : value)
    (e : exn) (tick tick' : nat) :
  (Fetch.upsert_each clock upsert db before tick = (Ok db_before, tick') ->
   upsert db_before bad (clock tick') = Raised e ->
   Fetch.with_conn clock upsert db (before ++ bad :: after) tick =
     (Fetch.RolledBack e, S tick') /\
   Fetch.upsert_each_committing clock upsert db (before ++ bad :: after) tick
     = (db_before, Some e)) /\
  (is_dict bad = false ->
   forall t label org now,
     Greenhouse.upsert_job t label org bad now = Raised AttributeError /\
     Fetch.gh_upsert_job t label (PStr org) bad now = Raised AttributeError /\
     Lever.upsert_job t label bad now = Raised AttributeError /\
     Workday.upsert_job t label bad now = Raised AttributeError).
Proof.
  split.
  - intros Hbefore Hbad. split.
    + unfold Fetch.with_conn. rewrite upsert_each_app, Hbefore.
      cbn [Fetch.upsert_each]. rewrite Hbad. reflexivity.
    + rewrite (committing_app _ _ _ _ _ _ _ Hbefore).
      cbn [Fetch.upsert_each_committing]. rewrite Hbad. reflexivity.
  - intros Hd t label org now.
    destruct bad; try discriminate; repeat split; reflexivity.
Qed.

End FetchFacts.

Section SessionProperties.
Context {R : Runtime}.
Variable clock : nat -> string.
Variable server : Type.
Variable send : server -> Fetch.request -> result Workday.response * server.
Variable http_date : datetime -> result string.

(** With a textual name the session's upsert is the adapter's. *)
Lemma gh_upsert_job_text (db : database) (token org : string) (j : value)
    (now : string) :
  Fetch.gh_upsert_job db token (PStr org) j now =
  Greenhouse.upsert_job db token org j now.
Proof.
  unfold Fetch.gh_upsert_job, Greenhouse.upsert_job, Greenhouse.row_params.
  destruct (Greenhouse.job_url j) as [url|e]; [|reflexivity]. cbn [bind].
  destruct (url =? "")%string; [reflexivity|].
  destruct (Greenhouse.job_title j) as [t|e]; [|reflexivity]. cbn [bind].
  destruct (Greenhouse.job_location j) as [l|e]; [|reflexivity]. cbn [bind].
  destruct (Greenhouse.job_description j) as [d|e]; [|reflexivity].
  cbn [bind].
  destruct (Greenhouse.source_timestamp j) as [ts|e]; reflexivity.
Qed.

(** X23.  How the two Greenhouse calls read a response.  A 404 on the
    board is a [ValueError]; otherwise, unless the status is one
    [raise_for_status] rejects, [fetch_board_name] always answers, falling
    back to the token when the body is not a JSON object or has no usable
    name, so the name is never empty for a non-empty token.  A 304 on the
    job list is an empty list, even where [raise_for_status] would reject
    a 304.  [lever.fetch_jobs] hands back a list whatever JSON it got. *)
Theorem fetchers_read_responses (r : Workday.response) (token : string) :
  (Workday.status_code r = 404 ->
   Fetch.fetch_board_name r token = Raise ValueError /\
   Fetch.lever_fetch_jobs r = Raise ValueError) /\
  (Workday.status_code r <> 404 ->
   status_raises (Workday.status_code r) = false ->
   exists name,
     Fetch.fetch_board_name r token = Ok name /\
     (token <> "" -> truthy name = true) /\
     ((forall kv, Workday.json r <> Ok (PDict kv)) -> name = PStr token)) /\
  (Workday.status_code r = 304 -> Fetch.fetch_jobs r = Ok (PList [])) /\
  (forall v, Fetch.lever_fetch_jobs r = Ok v -> exists l, v = PList l).
Proof.
  split; [|split; [|split]].
  - intros H. unfold Fetch.fetch_board_name, Fetch.lever_fetch_jobs.
    rewrite H. split; reflexivity.
  - intros H404 Hok. unfold Fetch.fetch_board_name.
    apply Z.eqb_neq in H404. rewrite H404, Hok.
    assert (Hfallback : exists name,
               Ok (PStr token) = Ok name /\
               (token <> "" -> truthy name = true) /\
               ((forall kv, Workday.json r <> Ok (PDict kv)) ->
                name = PStr token)).
    { exists (PStr token). split; [reflexivity|]. split; [|reflexivity].
      intros Hne. simpl. apply String.eqb_neq in Hne. rewrite Hne.
      reflexivity. }
    destruct (Workday.json r) as [data|e]; cbn [bind]; [|exact Hfallback].
    destruct data as [| | | | |kv]; try exact Hfallback.
    cbn [get]. exists (or_ (lookup_value kv "name") (PStr token)).
    split; [reflexivity|]. split.
    + intros Hne. unfold or_.
      destruct (truthy (lookup_value kv "name")) eqn:Ht; [exact Ht|].
      simpl. apply String.eqb_neq in Hne. rewrite Hne. reflexivity.
    + intros Hnot. destruct (Hnot kv eq_refl).
  - intros H. unfold Fetch.fetch_jobs. rewrite H. reflexivity.
  - intros v. unfold Fetch.lever_fetch_jobs.
    destruct (Workday.status_code r =? 404); [discriminate|].
    destruct (status_raises _); [discriminate|].
    destruct (Workday.json r) as [data|e]; cbn [bind]; [|discriminate].
    intros H. injection H as <-.
    destruct data; eexists; reflexivity.
Qed.

Lemma set_last_fetch_read (st : Fetch.state) (token now : string) :
  exists d,
    Fetch.assoc (Fetch.set_last_fetch st token now) token = Some d /\
    Fetch.assoc d "last_fetch" = Some now.
Proof.
  unfold Fetch.set_last_fetch. eexists. split; apply assoc_set_same.
Qed.

(** X24.  A source that answers "not modified" costs nothing and still
    moves its checkpoint: when the board name is read and the job list
    comes back 304, the loop body leaves the database as it was, and records
    the clock reading as the source's [last_fetch], which is what the next
    run will read back; the checkpoints of the other sources are not
    touched. *)
Theorem not_modified_keeps_table_moves_checkpoint
    (s : Fetch.session server) (token_value : value) (token : string)
    (rb rj : Workday.response) (sv1 sv2 : server) (org : value) :
  m_strip (or_ token_value (PStr "")) = Ok token -> token <> "" ->
  send (Fetch.s_server s) (Fetch.BoardName token) = (Ok rb, sv1) ->
  Fetch.fetch_board_name rb token = Ok org ->
  send sv1 (Fetch.JobList token
              (Fetch.since_header http_date (Fetch.s_state s) token))
    = (Ok rj, sv2) ->
  Workday.status_code rj = 304 ->
  exists s',
    Fetch.fetch_token clock server send http_date s token_value =
      Fetch.Continue s' /\
    Fetch.s_db s' = Fetch.s_db s /\
    (exists d,
       Fetch.assoc (Fetch.s_state s') token = Some d /\
       Fetch.assoc d "last_fetch" = Some (clock (Fetch.s_tick s))) /\
    (forall other, other <> token ->
       Fetch.assoc (Fetch.s_state s') other =
       Fetch.assoc (Fetch.s_state s) other).
Proof.
  intros Htok Hne Hb Hname Hj H304.
  unfold Fetch.fetch_token. rewrite Htok.
  apply String.eqb_neq in Hne. rewrite Hne.
  rewrite Hb. cbn [bind]. rewrite Hname. rewrite Hj. cbn [bind].
  unfold Fetch.fetch_jobs. rewrite H304. cbn [Z.eqb Pos.eqb].
  cbn [Workday.iterate Fetch.with_conn Fetch.upsert_each].
  eexists. split; [reflexivity|]. cbn [Fetch.s_db Fetch.s_state].
  split; [reflexivity|]. split.
  - apply set_last_fetch_read.
  - intros other Ho. unfold Fetch.set_last_fetch.
    apply assoc_set_other. exact Ho.
Qed.

(** X25.  A source that cannot be fetched is passed over: when reading
    the board name or the job list raises (an unknown board, an error
    status, a body that is not JSON), the loop body goes on to the next
    source with the database and every checkpoint as they were. *)
Theorem failed_source_is_passed_over
    (s : Fetch.session server) (token_value : value) (token : string) :
  m_strip (or_ token_value (PStr "")) = Ok token -> token <> "" ->
  (forall e sv1,
     (let '(rb, sv) := send (Fetch.s_server s) (Fetch.BoardName token) in
      (r <- rb ;; Fetch.fetch_board_name r token, sv)) = (Raise e, sv1) ->
     Fetch.fetch_token clock server send http_date s token_value =
     Fetch.Continue
       (Fetch.mkSession (Fetch.s_state s) (Fetch.s_db s) sv1
          (Fetch.s_tick s))) /\
  (forall rb org sv1 e sv2,
     send (Fetch.s_server s) (Fetch.BoardName token) = (Ok rb, sv1) ->
     Fetch.fetch_board_name rb token = Ok org ->
     (let '(rj, sv) :=
        send sv1 (Fetch.JobList token
                    (Fetch.since_header http_date (Fetch.s_state s) token)) in
      (r <- rj ;; Fetch.fetch_jobs r, sv)) = (Raise e, sv2) ->
     Fetch.fetch_token clock server send http_date s token_value =
     Fetch.Continue
       (Fetch.mkSession (Fetch.s_state s) (Fetch.s_db s) sv2
          (Fetch.s_tick s))).
Proof.
  intros Htok Hne. apply String.eqb_neq in Hne. split.
  - intros e sv1 H. unfold Fetch.fetch_token. rewrite Htok, Hne.
    destruct (send (Fetch.s_server s) (Fetch.BoardName token)) as [rb sv].
    injection H as H <-. rewrite H. reflexivity.
  - intros rb org sv1 e sv2 Hb Hname H.
    unfold Fetch.fetch_token. rewrite Htok, Hne, Hb. cbn [bind].
    rewrite Hname.
    destruct (send sv1 _) as [rj sv].
    injection H as H <-. rewrite H. reflexivity.
Qed.

End SessionProperties.

Section SessionInvariants.
Context {R : Runtime}.
Variable clock : nat -> string.
Variable server : Type.
Variable send : server -> Fetch.request -> result Workday.response * server.
Variable http_date : datetime -> result string.

Lemma gh_upsert_job_wrote (db db' : database) (token : string)
    (org j : value) (now : string) :
  Fetch.gh_upsert_job db token org j now = Wrote db' ->
  exists ex, jobs db' = insert_or_update ex (jobs db).
Proof.
  unfold Fetch.gh_upsert_job.
  destruct (Greenhouse.row_params token "" j now) as [[p|]|e];
    cbn [bind run execute option_map]; try discriminate.
  intros H. destruct (try_upsert_wrote _ _ _ H) as (ex & _ & _ & Heq).
  exists ex. exact Heq.
Qed.

Lemma upsert_each_invariant (I : database -> Prop)
    (upsert : database -> value -> string -> outcome) :
  (forall db j now db',
     upsert db j now = Wrote db' -> I db -> I db') ->
  forall js db tick db' tick',
    I db ->
    Fetch.upsert_each clock upsert db js tick = (Ok db', tick') ->
    I db'.
Proof.
  intros Hstep. induction js as [|j js IH]; intros db tick db' tick' HI;
    cbn [Fetch.upsert_each].
  - intros H. injection H as <- _. exact HI.
  - destruct (upsert db j (clock tick)) as [| db1 | | e] eqn:E.
    + apply IH. exact HI.
    + apply IH. exact (Hstep _ _ _ _ E HI).
    + apply IH. exact HI.
    + discriminate.
Qed.

(** What one pass of the loop body keeps. *)
Lemma fetch_token_keeps (s s' : Fetch.session server) (token_value : value) :
  Fetch.fetch_token clock server send http_date s token_value =
    Fetch.Continue s' ->
  (unique_keys (jobs (Fetch.s_db s)) -> unique_keys (jobs (Fetch.s_db s'))) /\
  (List.length (jobs (Fetch.s_db s)) <=
   List.length (jobs (Fetch.s_db s')))%nat /\
  (forall k d, Fetch.assoc (Fetch.s_state s) k = Some d ->
     exists d', Fetch.assoc (Fetch.s_state s') k = Some d').
Proof.
  assert (Hsame : forall st db (sv : server) tick,
             st = Fetch.s_state s -> db = Fetch.s_db s ->
             (unique_keys (jobs (Fetch.s_db s)) ->
              unique_keys
                (jobs (Fetch.s_db (Fetch.mkSession st db sv tick)))) /\
             (List.length (jobs (Fetch.s_db s)) <=
              List.length
                (jobs (Fetch.s_db (Fetch.mkSession st db sv tick))))%nat /\
             (forall k d, Fetch.assoc (Fetch.s_state s) k = Some d ->
                exists d',
                  Fetch.assoc
                    (Fetch.s_state (Fetch.mkSession st db sv tick)) k
                  = Some d')).
  { intros st db sv tick -> ->. cbn [Fetch.s_db Fetch.s_state].
    split; [trivial|]. split; [lia|]. intros k d H. exists d. exact H. }
  unfold Fetch.fetch_token.
  destruct (m_strip (or_ token_value (PStr ""))) as [token|e]; [|discriminate].
  destruct (token =? "")%string.
  { intros H. injection H as <-. destruct s. apply Hsame; reflexivity. }
  destruct (send (Fetch.s_server s) (Fetch.BoardName token)) as [rb sv1].
  destruct (r <- rb ;; Fetch.fetch_board_name r token) as [org|e].
  2: { intros H. injection H as <-. apply Hsame; reflexivity. }
  destruct (send sv1 _) as [rj sv2].
  destruct (r <- rj ;; Fetch.fetch_jobs r) as [js|e].
  2: { intros H. injection H as <-. apply Hsame; reflexivity. }
  destruct (Workday.iterate js) as [items|e]; [|discriminate].
  unfold Fetch.with_conn.
  destruct (Fetch.upsert_each clock _ (Fetch.s_db s) items (Fetch.s_tick s))
    as [[db'|e] tick'] eqn:E; [|discriminate].
  intros H. injection H as <-. cbn [Fetch.s_db Fetch.s_state].
  pose proof (upsert_each_invariant
                (fun db =>
                   (unique_keys (jobs (Fetch.s_db s)) ->
                    unique_keys (jobs db)) /\
                   (List.length (jobs (Fetch.s_db s)) <=
                    List.length (jobs db))%nat)
                (fun db j now => Fetch.gh_upsert_job db token org j now))
    as Hinv.
  destruct (Hinv
              ltac:(intros db j now db1 Hw [Hu Hl];
                    destruct (gh_upsert_job_wrote _ _ _ _ _ _ Hw) as (ex & ->);
                    split;
                    [ intros H0; apply insert_or_update_unique, Hu, H0
                    | pose proof (insert_or_update_frame ex (jobs db))
                        as [_ Hf];
                      lia ])
              items (Fetch.s_db s) (Fetch.s_tick s) db' tick'
              (conj (fun H => H) (Nat.le_refl _)) E) as [Hu Hl].
  split; [exact Hu|]. split; [exact Hl|].
  intros k d H. unfold Fetch.set_last_fetch.
  exact (assoc_set_keeps _ _ _ _ _ H).
Qed.

Lemma fetch_tokens_keeps (tokens : list value) :
  forall s : Fetch.session server,
    let fin := Fetch.fetch_tokens clock server send http_date s tokens in
    (unique_keys (jobs (Fetch.s_db s)) ->
     unique_keys (jobs (Fetch.end_db fin))) /\
    (List.length (jobs (Fetch.s_db s)) <=
     List.length (jobs (Fetch.end_db fin)))%nat /\
    (Fetch.raised fin = None <-> Fetch.saved_state fin <> None) /\
    (forall st k d,
       Fetch.saved_state fin = Some st ->
       Fetch.assoc (Fetch.s_state s) k = Some d ->
       exists d', Fetch.assoc st k = Some d').
Proof.
  induction tokens as [|t tokens IH]; intros s; cbn [Fetch.fetch_tokens].
  - cbv zeta. cbn [Fetch.end_db Fetch.raised Fetch.saved_state].
    split; [trivial|]. split; [lia|]. split; [split; intros; congruence|].
    intros st k d H Hk. injection H as <-. exists d. exact Hk.
  - destruct (Fetch.fetch_token clock server send http_date s t)
      as [s'|e] eqn:E.
    + destruct (fetch_token_keeps s s' t E) as (Hu & Hl & Hst).
      specialize (IH s'). cbv zeta in IH |- *.
      destruct IH as (Hu' & Hl' & Hr' & Hst').
      split; [intros H; apply Hu', Hu, H|]. split; [lia|].
      split; [exact Hr'|].
      intros st k d Hsaved Hk.
      destruct (Hst k d Hk) as (d1 & Hd1).
      exact (Hst' st k d1 Hsaved Hd1).
    + cbv zeta. cbn [Fetch.end_db Fetch.raised Fetch.saved_state].
      split; [trivial|]. split; [lia|].
      split; [split; intros; congruence|]. intros; discriminate.
Qed.

(** X26.  Across a whole run of [fetch_greenhouse], whatever the sources
    answer: the UNIQUE constraint keeps holding and the table never loses
    a row; the state file is saved exactly when no exception ended the
    run; and a saved state still has an entry for every source that had
    one when the run began. *)
Theorem session_keeps_table_and_checkpoints
    (loaded : Fetch.state) (db : database) (sv : server)
    (tokens : list value) :
  let fin :=
    Fetch.fetch_greenhouse clock server send http_date loaded db sv tokens in
  (unique_keys (jobs db) -> unique_keys (jobs (Fetch.end_db fin))) /\
  (List.length (jobs db) <= List.length (jobs (Fetch.end_db fin)))%nat /\
  (Fetch.raised fin = None <-> Fetch.saved_state fin <> None) /\
  (forall st k d,
     Fetch.saved_state fin = Some st ->
     Fetch.assoc loaded k = Some d ->
     exists d', Fetch.assoc st k = Some d').
Proof.
  exact (fetch_tokens_keeps tokens (Fetch.mkSession loaded db sv 0)).
Qed.

End SessionInvariants.

(* ------------------------------------------------------------------ *)
(** ** Worked instances of the further properties                       *)
(* ------------------------------------------------------------------ *)

Lemma sample_gh_refresh_writes :
  adapter_writes (R := demo_runtime) sample_gh_typo_database sample_gh_tuple
    sample_now sample_gh_refreshed.
Proof.
  left. exists "acme", "Acme", sample_gh_job.
  split; vm_compute; reflexivity.
Qed.

Lemma sample_gh_add_writes :
  adapter_writes (R := demo_runtime) sample_database sample_gh_tuple
    sample_now sample_gh_added.
Proof.
  left. exists "acme", "Acme", sample_gh_job.
  split; vm_compute; reflexivity.
Qed.

Lemma sample_lever_follow_up_writes :
  adapter_writes (R := demo_runtime) sample_gh_added
    sample_lever_same_url_tuple "t2" sample_two_sources.
Proof.
  right; left. exists "acme", sample_lever_same_url.
  split; vm_compute; reflexivity.
Qed.

Lemma sample_table_unique : unique_keys (jobs sample_database).
Proof.
  unfold unique_keys.
  change (jobs sample_database) with sample_table.
  cbn [map sample_table canonical_key].
  repeat constructor; simpl; intuition discriminate.
Qed.

(** The sample posting added to the three-row table. *)
Lemma upsert_leaves_other_rows_witness :
  exists k,
    p_canonical_key sample_gh_tuple = PStr k /\
    others k (jobs sample_gh_added) = others k (jobs sample_database) /\
    (List.length (jobs sample_database) <= List.length (jobs sample_gh_added)
     <= S (List.length (jobs sample_database)))%nat.
Proof.
  exact (upsert_leaves_other_rows (R := demo_runtime) sample_database
           sample_gh_added sample_gh_tuple sample_now sample_gh_add_writes).
Defined.

Lemma upsert_keeps_unique_keys_witness :
  unique_keys (jobs sample_database) /\ unique_keys (jobs sample_gh_added).
Proof.
  split; [exact sample_table_unique|].
  exact (upsert_keeps_unique_keys (R := demo_runtime) sample_database
           sample_gh_added sample_gh_tuple sample_now sample_table_unique
           sample_gh_add_writes).
Defined.

(** The stored sample posting fetched again, with its title put right. *)
Lemma conflict_keeps_identity_columns_witness :
  exists r',
    rows_with_key (canonical_key sample_gh_row_typo)
      (jobs sample_gh_refreshed) = [r'] /\
    id r' = id sample_gh_row_typo /\
    board_token r' = board_token sample_gh_row_typo /\
    post_url r' = post_url sample_gh_row_typo /\
    first_seen_at r' = first_seen_at sample_gh_row_typo /\
    last_seen_at r' = sample_now /\
    List.length (jobs sample_gh_refreshed) =
    List.length (jobs sample_gh_typo_database).
Proof.
  assert (Hu : unique_keys (jobs sample_gh_typo_database))
    by (repeat constructor; simpl; intros []).
  assert (Hin : In sample_gh_row_typo (jobs sample_gh_typo_database))
    by (left; reflexivity).
  assert (Hk : p_canonical_key sample_gh_tuple =
               PStr (canonical_key sample_gh_row_typo))
    by (vm_compute; reflexivity).
  exact (conflict_keeps_identity_columns (R := demo_runtime)
           sample_gh_typo_database sample_gh_refreshed sample_gh_tuple
           sample_now sample_gh_row_typo Hu Hin Hk sample_gh_refresh_writes).
Defined.

Lemma first_upsert_appends_row_witness :
  exists r',
    jobs sample_gh_added = jobs sample_database ++ [r'] /\
    canonical_key r' = "md5:https://x.co/a" /\
    first_seen_at r' = sample_now /\
    last_seen_at r' = sample_now /\
    forall r, In r (jobs sample_database) -> id r < id r'.
Proof.
  assert (Hk : p_canonical_key sample_gh_tuple = PStr "md5:https://x.co/a")
    by (vm_compute; reflexivity).
  assert (Hnil : rows_with_key "md5:https://x.co/a" (jobs sample_database)
                 = [])
    by (vm_compute; reflexivity).
  exact (first_upsert_appends_row (R := demo_runtime) sample_database
           sample_gh_added sample_gh_tuple sample_now "md5:https://x.co/a"
           Hk Hnil sample_gh_add_writes).
Defined.

(** The same URL seen by Greenhouse and then by Lever. *)
Lemma same_fingerprint_is_one_row_witness :
  exists r1 r2,
    rows_with_key "md5:https://x.co/a" (jobs sample_gh_added) = [r1] /\
    rows_with_key "md5:https://x.co/a" (jobs sample_two_sources) = [r2] /\
    List.length (jobs sample_two_sources) =
    List.length (jobs sample_gh_added) /\
    id r2 = id r1 /\
    board_token r2 = board_token r1 /\
    first_seen_at r2 = first_seen_at r1 /\
    last_seen_at r2 = "t2".
Proof.
  assert (Hk1 : p_canonical_key sample_gh_tuple = PStr "md5:https://x.co/a")
    by (vm_compute; reflexivity).
  assert (Hk2 : p_canonical_key sample_lever_same_url_tuple =
                PStr "md5:https://x.co/a")
    by (vm_compute; reflexivity).
  destruct (same_fingerprint_is_one_row (R := demo_runtime) sample_database
              sample_gh_added sample_two_sources sample_gh_tuple
              sample_lever_same_url_tuple sample_now "t2"
              "md5:https://x.co/a") as [H _].
  exact (H sample_table_unique sample_gh_add_writes
           sample_lever_follow_up_writes Hk1 Hk2).
Defined.


(** A Greenhouse posting whose location name is blank. *)
Lemma blank_location_is_stored_as_null_witness :
  exists p k r',
    Greenhouse.row_params (R := demo_runtime) "acme" "Acme"
      (PDict [ ("absolute_url", PStr "https://x.co/b");
               ("title", PStr "Clerk");
               ("location", PDict [("name", PStr "   ")]) ])
      sample_now = Ok (Some p) /\
    p_canonical_key p = PStr k /\
    rows_with_key k
      (jobs
         (after
            (Greenhouse.upsert_job (R := demo_runtime) sample_database
               "acme" "Acme"
               (PDict [ ("absolute_url", PStr "https://x.co/b");
                        ("title", PStr "Clerk");
                        ("location", PDict [("name", PStr "   ")]) ])
               sample_now)
            sample_database)) = [r'] /\
    location r' <> Some "".
Proof.
  destruct (blank_location_is_stored_as_null (R := demo_runtime)
              sample_database
              (after
                 (Greenhouse.upsert_job (R := demo_runtime) sample_database
                    "acme" "Acme"
                    (PDict [ ("absolute_url", PStr "https://x.co/b");
                             ("title", PStr "Clerk");
                             ("location", PDict [("name", PStr "   ")]) ])
                    sample_now)
                 sample_database)
              sample_now sample_table_unique) as (G & _ & _).
  apply G. vm_compute; reflexivity.
Defined.


(** The misspelt title was put right; the index still answers to the
    misspelling. *)
Lemma index_keeps_overwritten_words_witness :
  exists ix',
    job_fts sample_gh_refreshed = Some ix' /\
    Search.fts_match ix' ["enginer"] sample_gh_row = true /\
    Search.search_jobs sample_gh_refreshed "enginer" None 10 =
      Some [Search.project sample_gh_row].
Proof.
  destruct (index_keeps_overwritten_words (R := demo_runtime)
              sample_gh_typo_database sample_gh_refreshed sample_gh_tuple
              sample_now
              (fold_left (fun ix r => jobs_ai (R := demo_runtime) r ix)
                 [sample_gh_row_typo] (mkIndex 0 0 0 0 0 []))
              sample_gh_refresh_writes eq_refl) as (ix' & Hix' & Hkeep).
  exists ix'. split; [exact Hix'|]. split.
  - apply (Hkeep ["enginer"] sample_gh_row_typo sample_gh_row eq_refl).
    vm_compute; reflexivity.
  - vm_compute; reflexivity.
Defined.


Lemma returned_reply_is_not_retryable_witness :
  Backoff.retryable 200 = false /\
  In (Backoff.Reply (Backoff.mkReply 200 None)) sample_script.
Proof.
  exact (returned_reply_is_not_retryable sample_script [30; 2; 4]
           (Backoff.mkReply 200 None) eq_refl).
Defined.


(** A cap of zero pages against the sample endpoint. *)
Lemma requests_walk_the_offsets_witness :
  Workday.fetch_jobs (R := demo_runtime) nat sample_send 0%nat "" 2 0 =
  ([], Ok []).
Proof.
  destruct (requests_walk_the_offsets (R := demo_runtime) nat sample_send
              0%nat "" 2 0) as [_ H].
  apply H. lia.
Defined.

(** A full first page, then a body that is not JSON. *)
Lemma failing_page_discards_fetched_records_witness :
  Workday.fetch_jobs (R := demo_runtime) nat broken_second_page_send 0%nat
    "" 2 5 =
  ([Workday.mkRequest Workday.POST 2 0 ""] ++
   [Workday.mkRequest Workday.POST 2 2 ""],
   Raise JSONDecodeError).
Proof.
  destruct (failing_page_discards_fetched_records (R := demo_runtime) nat
              broken_second_page_send 0%nat "" 2 5) as [_ H].
  apply (H 1%nat 2%nat [Workday.mkRequest Workday.POST 2 0 ""]
           [Workday.mkRequest Workday.POST 2 2 ""]
           (firstn 2 sample_postings) JSONDecodeError).
  - lia.
  - vm_compute; reflexivity.
  - discriminate.
  - vm_compute; discriminate.
  - vm_compute; reflexivity.
Defined.

(** A title and a description that name a level, a work type and an
    employment type. *)
Lemma classifiers_answer_with_table_labels_witness :
  In "senior" ["intern"; "junior"; "senior"; "principal"; "manager";
               "director"] /\
  In "hybrid" ["onsite"; "hybrid"; "remote"] /\
  In "contract" ["full-time"; "part-time"; "contract"].
Proof.
  destruct (classifiers_answer_with_table_labels
              "Senior hybrid role, fixed-term" (Some "Boston"))
    as (L & W & E).
  split; [|split].
  - apply L. vm_compute; reflexivity.
  - apply W. vm_compute; reflexivity.
  - apply E. vm_compute; reflexivity.
Defined.

Lemma remote_flag_comes_with_work_type_witness :
  Normalizer.work_type
    (Normalizer.normalize_fields "Nurse" "Night shifts"
       (Some "Remote - US")) <> None.
Proof.
  apply remote_flag_comes_with_work_type. vm_compute; discriminate.
Defined.

Lemma location_parts_are_clean_witness :
  "Boston" <> "" /\ strip "Boston" = "Boston" /\
  Search.all_chars (outside ";/|-,") "Boston" = true.
Proof.
  pose proof (location_parts_are_clean (Some " Boston , MA - USA") "Boston")
    as H.
  assert (E : Normalizer.split_location (Some " Boston , MA - USA") =
              (Some "Boston", Some "MA", None, None))
    by (vm_compute; reflexivity).
  rewrite E in H. apply H. left; reflexivity.
Defined.

Lemma greenhouse_title_is_collapsed_witness :
  join " " (split_ws "Senior Backend Engineer") = "Senior Backend Engineer" /\
  Greenhouse.job_title (PDict [("title", PStr "Senior Backend Engineer")]) =
    Ok "Senior Backend Engineer" /\
  Forall (fun w => w <> "" /\
                   Search.all_chars (fun c => negb (is_space c)) w = true)
    (split_ws "Senior Backend Engineer").
Proof.
  apply (greenhouse_title_is_collapsed sample_gh_job "Senior Backend Engineer").
  vm_compute; reflexivity.
Defined.

Lemma bound_text_is_trimmed_witness :
  exists title loc,
    p_title sample_wd_tuple = PStr title /\
    p_location sample_wd_tuple = str_or_none loc /\
    title <> "" /\ strip title = title /\ strip loc = loc.
Proof.
  destruct (bound_text_is_trimmed (R := demo_runtime) sample_now
              sample_wd_tuple) as (_ & _ & W).
  apply (W sample_endpoint sample_wd_posting). vm_compute; reflexivity.
Defined.

(** The two engineering postings of the sample table, the later one
    first. *)
Lemma results_come_newest_first_witness :
  newest_first
    (match Search.search_jobs sample_database "engineer" None 10 with
     | Some views => views
     | None => []
     end).
Proof.
  destruct (results_come_newest_first sample_database "engineer" None 10
              (match Search.search_jobs sample_database "engineer" None 10
               with
               | Some views => views
               | None => []
               end)) as [H _].
  apply H. vm_compute; reflexivity.
Defined.


(** Three pages of two records from the endless endpoint. *)
Lemma endless_source_is_cut_at_the_cap_witness :
  exists trace all,
    Workday.fetch_jobs (R := demo_runtime) nat endless_send 0%nat "" 2 3 =
      (trace, Ok all) /\
    Workday.pages_requested trace = Z.to_nat 3 /\
    Z.of_nat (List.length all) = 3 * 2.
Proof.
  apply (endless_source_is_cut_at_the_cap (R := demo_runtime) nat
           endless_send 0%nat "" 2 3).
  - intros st off.
    exists [Workday.mkRequest Workday.POST 2 off ""], (S st),
      (firstn 2 sample_postings).
    split; reflexivity.
  - lia.
  - lia.
Defined.

(** A batch of the sample posting followed by a string. *)
Lemma raising_record_rolls_back_the_batch_witness :
  Fetch.with_conn sample_clock
    (fun db j now =>
       Fetch.gh_upsert_job (R := demo_runtime) db "acme" (PStr "Acme") j now)
    sample_database ([sample_gh_job] ++ [PStr "oops"]) 0 =
    (Fetch.RolledBack AttributeError, 2%nat) /\
  Fetch.upsert_each_committing sample_clock
    (fun db j now =>
       Fetch.gh_upsert_job (R := demo_runtime) db "acme" (PStr "Acme") j now)
    sample_database ([sample_gh_job] ++ [PStr "oops"]) 0 =
    (after
       (Fetch.gh_upsert_job (R := demo_runtime) sample_database "acme"
          (PStr "Acme") sample_gh_job (sample_clock 0))
       sample_database,
     Some AttributeError).
Proof.
  destruct (raising_record_rolls_back_the_batch (R := demo_runtime)
              sample_clock
              (fun db j now =>
                 Fetch.gh_upsert_job (R := demo_runtime) db "acme"
                   (PStr "Acme") j now)
              sample_database
              (after
                 (Fetch.gh_upsert_job (R := demo_runtime) sample_database
                    "acme" (PStr "Acme") sample_gh_job (sample_clock 0))
                 sample_database)
              [sample_gh_job] [] (PStr "oops") AttributeError 0 1) as [H _].
  apply H; vm_compute; reflexivity.
Defined.

(** An unknown board, and a board whose body is not JSON. *)
Lemma fetchers_read_responses_witness :
  (Fetch.fetch_board_name (R := demo_runtime)
     (Workday.mkResponse 404 (Raise JSONDecodeError)) "ghost" =
     Raise ValueError /\
   Fetch.lever_fetch_jobs (R := demo_runtime)
     (Workday.mkResponse 404 (Raise JSONDecodeError)) = Raise ValueError) /\
  exists name,
    Fetch.fetch_board_name (R := demo_runtime)
      (Workday.mkResponse 200 (Raise JSONDecodeError)) "acme" = Ok name /\
    ("acme" <> "" -> truthy name = true) /\
    ((forall kv, Workday.json (Workday.mkResponse 200 (Raise JSONDecodeError))
                 <> Ok (PDict kv)) -> name = PStr "acme").
Proof.
  split.
  - destruct (fetchers_read_responses (R := demo_runtime)
                (Workday.mkResponse 404 (Raise JSONDecodeError)) "ghost")
      as [H _].
    apply H. reflexivity.
  - destruct (fetchers_read_responses (R := demo_runtime)
                (Workday.mkResponse 200 (Raise JSONDecodeError)) "acme")
      as (_ & H & _).
    apply H; [discriminate | reflexivity].
Defined.

(** The board "acme", fetched before, answers 304. *)
Lemma not_modified_keeps_table_moves_checkpoint_witness :
  exists s',
    Fetch.fetch_token (R := demo_runtime) sample_clock nat sample_board_send
      sample_http_date (Fetch.mkSession sample_loaded sample_database 0%nat 0%nat)
      (PStr " acme ") = Fetch.Continue s' /\
    Fetch.s_db s' = sample_database /\
    (exists d,
       Fetch.assoc (Fetch.s_state s') "acme" = Some d /\
       Fetch.assoc d "last_fetch" = Some (sample_clock 0)) /\
    (forall other, other <> "acme" ->
       Fetch.assoc (Fetch.s_state s') other =
       Fetch.assoc sample_loaded other).
Proof.
  apply (not_modified_keeps_table_moves_checkpoint (R := demo_runtime)
           sample_clock nat sample_board_send sample_http_date
           (Fetch.mkSession sample_loaded sample_database 0%nat 0%nat)
           (PStr " acme ") "acme"
           (Workday.mkResponse 200 (Ok (PDict [("name", PStr "Acme")])))
           (Workday.mkResponse 304 (Raise JSONDecodeError))
           1%nat 2%nat (PStr "Acme")).
  - vm_compute; reflexivity.
  - discriminate.
  - vm_compute; reflexivity.
  - vm_compute; reflexivity.
  - vm_compute; reflexivity.
  - reflexivity.
Defined.

(** The unknown board "ghost". *)
Lemma failed_source_is_passed_over_witness :
  Fetch.fetch_token (R := demo_runtime) sample_clock nat sample_board_send
    sample_http_date (Fetch.mkSession sample_loaded sample_database 0%nat 0%nat)
    (PStr "ghost") =
  Fetch.Continue (Fetch.mkSession sample_loaded sample_database 1%nat 0%nat).
Proof.
  destruct (failed_source_is_passed_over (R := demo_runtime) sample_clock nat
              sample_board_send sample_http_date
              (Fetch.mkSession sample_loaded sample_database 0%nat 0%nat)
              (PStr "ghost") "ghost") as [H _].
  - vm_compute; reflexivity.
  - discriminate.
  - apply (H ValueError 1%nat). vm_compute; reflexivity.
Defined.

(** A run over a board fetched before, an unknown one and a new one. *)
Lemma session_keeps_table_and_checkpoints_witness :
  unique_keys
    (jobs
       (Fetch.end_db
          (Fetch.fetch_greenhouse (R := demo_runtime) sample_clock nat
             sample_board_send sample_http_date sample_loaded sample_database
             0%nat [PStr "acme"; PStr "ghost"; PStr "fresh"]))).
Proof.
  destruct (session_keeps_table_and_checkpoints (R := demo_runtime)
              sample_clock nat sample_board_send sample_http_date
              sample_loaded sample_database 0%nat
              [PStr "acme"; PStr "ghost"; PStr "fresh"]) as [H _].
  apply H. exact sample_table_unique.
Defined.
